(** * Email tracking server and campaign send loop

    A shallow embedding of [Task/tracking_server.py] (identifier validation,
    URL validation, the open and click endpoints, the statistics endpoint and
    [update_tracking_data]) and of the parts of
    [Task/Email_Campaign_Automation.py] that create tracking identifiers and
    pace the send loop.

    Python [str] is [string]; a [dict] with string keys is a [gmap string _];
    the JSON files under [tracking_data/] are a finite map from path to
    content; exceptions are explicit results; Python [float] is the kernel's
    binary64 [float].

    Part I holds the embedding and the vocabulary of the properties, Part II
    the properties themselves. *)

From Corelib Require Import PrimFloat FloatOps SpecFloat.
From Stdlib Require Import ZArith Ascii Bool Uint63.
From Stdlib Require String.
From stdpp Require Import base option list gmap strings fin_maps.

Local Open Scope Z_scope.

(** * Part I: the embedding *)

(** ** Python strings *)

Module PyStr.

(** [all p s]: every character of [s] satisfies [p]. *)
Fixpoint all (p : ascii -> bool) (s : string) : bool :=
  match s with
  | EmptyString => true
  | String c s' => p c && all p s'
  end.

(** [count ch s]: [s.count(ch)] for a one-character [ch]. *)
Fixpoint count (ch : ascii) (s : string) : nat :=
  match s with
  | EmptyString => 0%nat
  | String c s' => ((if Ascii.eqb c ch then 1 else 0) + count ch s')%nat
  end.

(** [split sep s]: [s.split(sep)] for a one-character separator.  The result
    is never the empty list: [''.split('_') == ['']]. *)
Fixpoint split (sep : ascii) (s : string) : list string :=
  match s with
  | EmptyString => [EmptyString]
  | String c s' =>
      if Ascii.eqb c sep then EmptyString :: split sep s'
      else match split sep s' with
           | hd :: tl => String c hd :: tl
           | [] => [String c EmptyString]
           end
  end.

(** [slice_to n s]: the slice [s[:n]]. *)
Fixpoint slice_to (n : nat) (s : string) : string :=
  match n, s with
  | O, _ => EmptyString
  | S _, EmptyString => EmptyString
  | S n', String c s' => String c (slice_to n' s')
  end.

(** [slice_from n s]: the slice [s[n:]]. *)
Fixpoint slice_from (n : nat) (s : string) : string :=
  match n, s with
  | O, _ => s
  | S _, EmptyString => EmptyString
  | S n', String _ s' => slice_from n' s'
  end.

(** [find p s]: index of the first character satisfying [p]. *)
Fixpoint find (p : ascii -> bool) (s : string) : option nat :=
  match s with
  | EmptyString => None
  | String c s' => if p c then Some O else S <$> find p s'
  end.

(** [lstrip p s]: [s] without its leading characters satisfying [p]. *)
Fixpoint lstrip (p : ascii -> bool) (s : string) : string :=
  match s with
  | EmptyString => EmptyString
  | String c s' => if p c then lstrip p s' else s
  end.

(** [remove p s]: [s] without the characters satisfying [p]. *)
Fixpoint remove (p : ascii -> bool) (s : string) : string :=
  match s with
  | EmptyString => EmptyString
  | String c s' => if p c then remove p s' else String c (remove p s')
  end.

Definition in_range (lo hi c : ascii) : bool :=
  Ascii.leb lo c && Ascii.leb c hi.

Definition is_lower (c : ascii) : bool := in_range "a" "z" c.
Definition is_upper (c : ascii) : bool := in_range "A" "Z" c.
Definition is_digit (c : ascii) : bool := in_range "0" "9" c.

(** One character of [str.lower()], on ASCII. *)
Definition lower_char (c : ascii) : ascii :=
  if is_upper c then ascii_of_nat (nat_of_ascii c + 32) else c.

Fixpoint lower (s : string) : string :=
  match s with
  | EmptyString => EmptyString
  | String c s' => String (lower_char c) (lower s')
  end.

(** Truth value of a string: [bool(s)]. *)
Definition truthy (s : string) : bool :=
  match s with EmptyString => false | _ => true end.

(** [c.isspace()] on a code point below 256: the controls 9 to 13 and 28 to
    31, the space, the next-line control and the no-break space. *)
Definition is_space (c : ascii) : bool :=
  in_range "009" "013" c || in_range "028" "032" c
  || Ascii.eqb c "133" || Ascii.eqb c "160".

(** [s.split()]: the pieces of [s] between runs of white space; none of
    them is empty, and there is none when [s] is blank. *)
Fixpoint split_whitespace (s : string) : list string :=
  match s with
  | EmptyString => []
  | String c s' =>
      if is_space c then split_whitespace s'
      else
        match s' with
        | EmptyString => [String c EmptyString]
        | String c' _ =>
            if is_space c' then String c EmptyString :: split_whitespace s'
            else match split_whitespace s' with
                 | hd :: tl => String c hd :: tl
                 | [] => [String c EmptyString]
                 end
        end
  end.

(** One more decimal digit of [str(n)] in front of [acc]. *)
Fixpoint digits (fuel n : nat) (acc : string) : string :=
  match fuel with
  | O => acc
  | S fuel' =>
      let acc' := String (ascii_of_nat (48 + n mod 10)) acc in
      if (n / 10 =? 0)%nat then acc' else digits fuel' (n / 10) acc'
  end.

(** [str(n)] for a natural number. *)
Definition str_of_nat (n : nat) : string := digits (S n) n EmptyString.

End PyStr.

(** ** Regular expressions

    The patterns of the server, as data, run by Brzozowski derivatives.
    [lang] is the set of strings a pattern denotes. *)

Module Regex.

Inductive re : Type :=
| Void
| Eps
| Cls (p : ascii -> bool)
| Cat (r1 r2 : re)
| Alt (r1 r2 : re)
| Star (r : re).

(** [r+] and [r?]. *)
Definition Plus (r : re) : re := Cat r (Star r).
Definition Opt (r : re) : re := Alt r Eps.

Fixpoint nullable (r : re) : bool :=
  match r with
  | Void => false
  | Eps => true
  | Cls _ => false
  | Cat r1 r2 => nullable r1 && nullable r2
  | Alt r1 r2 => nullable r1 || nullable r2
  | Star _ => true
  end.

Fixpoint deriv (c : ascii) (r : re) : re :=
  match r with
  | Void => Void
  | Eps => Void
  | Cls p => if p c then Eps else Void
  | Cat r1 r2 =>
      if nullable r1 then Alt (Cat (deriv c r1) r2) (deriv c r2)
      else Cat (deriv c r1) r2
  | Alt r1 r2 => Alt (deriv c r1) (deriv c r2)
  | Star r1 => Cat (deriv c r1) (Star r1)
  end.

(** [run r s]: does the whole of [s] match [r]? *)
Fixpoint run (r : re) (s : string) : bool :=
  match s with
  | EmptyString => nullable r
  | String c s' => run (deriv c r) s'
  end.

Inductive lang : re -> string -> Prop :=
| LEps : lang Eps ""
| LCls p c : p c = true -> lang (Cls p) (String c "")
| LCat r1 r2 s1 s2 : lang r1 s1 -> lang r2 s2 -> lang (Cat r1 r2) (s1 +:+ s2)
| LAltL r1 r2 s : lang r1 s -> lang (Alt r1 r2) s
| LAltR r1 r2 s : lang r2 s -> lang (Alt r1 r2) s
| LStar0 r : lang (Star r) ""
| LStarS r s1 s2 : lang r s1 -> lang (Star r) s2 -> lang (Star r) (s1 +:+ s2).

(** The class [[a-zA-Z0-9]]. *)
Definition alnum (c : ascii) : bool :=
  PyStr.is_lower c || PyStr.is_upper c || PyStr.is_digit c.

Definition newline : ascii := "010".

(** A final [$] of a Python pattern (no [re.MULTILINE]) matches at the end of
    the string and also just before a newline that ends the string.  For
    [pattern.match] against a pattern [^ body $] this is a whole-string match
    of [body] followed by an optional newline. *)
Definition Dollar : re := Opt (Cls (Ascii.eqb newline)).

(** [re.match(r'^ body $', s)] as a truth value. *)
Definition py_match_anchored (body : re) (s : string) : bool :=
  run (Cat body Dollar) s.

End Regex.

(** ** Exceptions and results *)

Inductive exn : Type :=
| ValueError
| ZeroDivisionError
| IndexError
| KeyError (key : string)
| TypeError
| AttributeError
| JSONDecodeError
| FileNotFoundError
| OverflowError.

Inductive result (A : Type) : Type :=
| Ok (a : A)
| Raise (e : exn).

Arguments Ok {A} a.
Arguments Raise {A} e.

Definition bind {A B : Type} (m : result A) (k : A -> result B) : result B :=
  match m with
  | Ok a => k a
  | Raise e => Raise e
  end.

Notation "x <~ m ;; k" := (bind m (fun x => k))
  (at level 100, m at next level, right associativity).

(** ** The campaign script: identifiers and the send loop *)

Module Email_Campaign_Automation.

(** [_generate_tracking_id]:
    [f"{self.campaign_id}_{lead_id}_{uuid.uuid4().hex[:8]}"].  [uuid_hex] is
    the hexadecimal text of the fresh UUID. *)
Definition _generate_tracking_id (campaign_id lead_id uuid_hex : string) : string :=
  campaign_id +:+ "_" +:+ lead_id +:+ "_" +:+ PyStr.slice_to 8 uuid_hex.

(** A cell of a row of the leads table, as [pandas.read_excel] gives it
    for a column of text: the table may lack the column, the cell may be
    empty, which pandas reads as the float NaN, or it holds a string. *)
Inductive cell : Type :=
| Missing
| NaN
| Text (s : string).

(** A row of the leads table: the cells the loop depends on. *)
Record lead : Type := Lead {
  Email : cell;
  Company_Name : cell;
  Contact_Person : cell
}.

(** The negation of the skip test
    ['Email' not in lead or not lead['Email'] or pd.isna(lead['Email'])]. *)
Definition has_email (l : lead) : bool :=
  match Email l with
  | Text e => PyStr.truthy e
  | Missing | NaN => false
  end.

(** Lines 156-160 of [_prepare_email]: the first name.  NaN is a true value
    and has no [split]; a blank name splits into no piece. *)
Definition recipient_name (l : lead) : result string :=
  match Contact_Person l with
  | Missing => Ok "there"
  | NaN => Raise AttributeError
  | Text full_name =>
      if PyStr.truthy full_name then
        match PyStr.split_whitespace full_name with
        | first :: _ => Ok first
        | [] => Raise IndexError
        end
      else Ok "there"
  end.

(** Lines 260-261: the company name the copy of a sent email is named
    after, [lead.get('Company Name', f'Unknown_{i}')], as line 261 iterates
    over it; NaN, a float, cannot be iterated over. *)
Definition company_name (i : nat) (l : lead) : result string :=
  match Company_Name l with
  | Missing => Ok ("Unknown_" +:+ PyStr.str_of_nat i)
  | NaN => Raise TypeError
  | Text name => Ok name
  end.

(** The settings read from the environment in [__init__]. *)
Record settings : Type := Settings {
  batch_size : Z;
  delay_min : Z;
  delay_max : Z
}.

(** What one run of the loop does to the outside world, in order.  Each
    effect carries the loop index [i] of the lead it belongs to.
    [Dispatched] stands for [_prepare_email], [_send_email] and the
    bookkeeping of the outcome, [Saved] for [_save_tracking_data]; [Slept]
    and [BatchBreak] are the two [time.sleep] calls. *)
Inductive effect : Type :=
| Skipped (i : nat)
| Dispatched (i : nat) (success : bool)
| Saved (i : nat)
| Slept (i : nat) (secs : Z)
| BatchBreak (i : nat) (secs : Z).

(** [random.randint(a, b)]: [raw] is the entropy consumed by the call. *)
Definition randint (a b raw : Z) : result Z :=
  if b <? a then Raise ValueError else Ok (a + raw mod (b - a + 1)).

(** The longest duration [time.sleep] takes: the seconds are converted to
    nanoseconds in 64 bits. *)
Definition sleep_max : Z := 9223372036.

(** [time.sleep(secs)]: the conversion overflows beyond [sleep_max], and a
    negative duration is refused. *)
Definition sleep (secs : Z) : result unit :=
  if (secs <? - sleep_max) || (sleep_max <? secs) then Raise OverflowError
  else if secs <? 0 then Raise ValueError
  else Ok tt.

Record run : Type := Run {
  successful_sends : nat;
  failed_sends : nat;
  draws : nat;
  trace : list effect
}.

Definition emit (es : list effect) (s : run) : run :=
  Run (successful_sends s) (failed_sends s) (draws s) (trace s ++ es).

Definition tally (success : bool) (s : run) : run :=
  if success
  then Run (S (successful_sends s)) (failed_sends s) (draws s) (trace s)
  else Run (successful_sends s) (S (failed_sends s)) (draws s) (trace s).

Definition drew (s : run) : run :=
  Run (successful_sends s) (failed_sends s) (S (draws s)) (trace s).

Section SendLoop.

Variable cfg : settings.
(** The outcome of [_send_email] for the lead at each index. *)
Variable send_ok : nat -> bool.
(** The entropy behind the successive [random.randint] calls. *)
Variable entropy : nat -> Z.

(** The pause between two emails (source lines 278-281). *)
Definition pause_between (total_leads : Z) (i : nat) (s : run) : result run :=
  if Z.of_nat i <? total_leads - 1 then
    delay <~ randint (delay_min cfg) (delay_max cfg) (entropy (draws s)) ;;
    _ <~ sleep delay ;;
    Ok (emit [Slept i delay] (drew s))
  else Ok s.

(** The longer break after a batch (source lines 284-287).  The modulo is
    evaluated before the comparison with the last index. *)
Definition pause_after_batch (total_leads : Z) (i : nat) (s : run) : result run :=
  if batch_size cfg =? 0 then Raise ZeroDivisionError
  else if ((Z.of_nat i + 1) mod batch_size cfg =? 0) && (Z.of_nat i <? total_leads - 1) then
    batch_delay <~ randint (delay_max cfg * 2) (delay_max cfg * 3) (entropy (draws s)) ;;
    _ <~ sleep batch_delay ;;
    Ok (emit [BatchBreak i batch_delay] (drew s))
  else Ok s.

(** One iteration of the [for] loop of [run_campaign].  The exceptions of
    [_prepare_email] and of the copy of a sent email leave the loop, as
    those of the pauses do; [_send_email] catches its own. *)
Definition iteration (total_leads : Z) (i : nat) (l : lead) (s : run) : result run :=
  if negb (has_email l) then Ok (emit [Skipped i] s)
  else
    _ <~ recipient_name l ;;
    let success := send_ok i in
    _ <~ (if success then company_name i l else Ok EmptyString) ;;
    let s1 := emit [Dispatched i success; Saved i] (tally success s) in
    s2 <~ pause_between total_leads i s1 ;;
    pause_after_batch total_leads i s2.

Fixpoint iterate (total_leads : Z) (i : nat) (leads : list lead) (s : run) : result run :=
  match leads with
  | [] => Ok s
  | l :: rest =>
      s' <~ iteration total_leads i l s ;;
      iterate total_leads (S i) rest s'
  end.

Definition run_campaign (leads : list lead) : result run :=
  iterate (Z.of_nat (length leads)) 0 leads (Run 0 0 0 []).

End SendLoop.

(** The loop indices after which the batch break was taken. *)
Definition batch_breaks (t : list effect) : list nat :=
  omap (fun e => match e with BatchBreak i _ => Some i | _ => None end) t.

End Email_Campaign_Automation.

(** ** The tracking server *)

Module tracking_server.

Import Regex.

(** *** Configuration *)

Definition TRACKING_DATA_DIR : string := "tracking_data".
Definition DEFAULT_REDIRECT_URL : string := "https://www.example.com".
Definition PIXEL_FILE : string := "pixel.png".

(** [re.compile(r'^[a-zA-Z0-9]+_[a-zA-Z0-9]+$')], between its anchors. *)
Definition VALID_TRACKING_ID_PATTERN : re :=
  Cat (Plus (Cls alnum)) (Cat (Cls (Ascii.eqb "_")) (Plus (Cls alnum))).

(** The pattern of [campaign_stats]: [r'^[a-zA-Z0-9]+$']. *)
Definition CAMPAIGN_ID_PATTERN : re := Plus (Cls alnum).

Definition is_valid_tracking_id (tracking_id : string) : bool :=
  py_match_anchored VALID_TRACKING_ID_PATTERN tracking_id.

(** *** URL validation *)

(** The two fields of [urllib.parse.urlparse]'s result that the server
    reads. *)
Record url_parts : Type := UrlParts {
  scheme : string;
  netloc : string
}.

Section UrlValidation.

(** [urllib.parse.urlparse] belongs to the Python library, not to the
    program: the server is embedded over any such function.  [None] stands
    for a raised exception. *)
Variable urlparse : string -> option url_parts.

Definition is_valid_url (url : string) : bool :=
  match urlparse url with
  | Some result =>
      (String.eqb (scheme result) "http" || String.eqb (scheme result) "https")
      && PyStr.truthy (netloc result)
  | None => false
  end.

End UrlValidation.

(** *** The stored data *)

(** One element of an entry's ["events"] list.  [ev_url = None] means the
    key ["url"] is absent; [ev_ip = None] is JSON [null]. *)
Record event : Type := Event {
  ev_action : string;
  ev_timestamp : string;
  ev_ip : option string;
  ev_user_agent : option string;
  ev_url : option string
}.

(** The JSON values found under the keys of an entry. *)
Inductive value : Type :=
| VNull
| VBool (b : bool)
| VInt (z : Z)
| VStr (s : string)
| VEvents (l : list event).

(** What a tracking identifier maps to in a campaign file: a JSON object (an
    entry), or some other JSON value. *)
Inductive record : Type :=
| RDict (e : gmap string value)
| RScalar (v : value).

(** The content of a file: a JSON object of records, a JSON text that is not
    an object, or bytes [json.load] refuses.  [sized] tells a list or a
    string, which have a length, from a number, a boolean or [null]. *)
Inductive file : Type :=
| FJson (d : gmap string record)
| FNonObject (sized : bool)
| FGarbage.

(** Truth value of a JSON value: [bool(v)]. *)
Definition truthy (v : value) : bool :=
  match v with
  | VNull => false
  | VBool b => b
  | VInt z => negb (z =? 0)
  | VStr s => PyStr.truthy s
  | VEvents l => match l with [] => false | _ => true end
  end.

(** *** Server state, requests and responses *)

Inductive log_record : Type :=
| WarnInvalidTrackingId (tracking_id : string)
| InfoEmailOpened (tracking_id : string) (ip : option string) (agent : string)
| WarnInvalidUrl (url : string)
| InfoLinkClicked (tracking_id url : string) (ip : option string) (agent : string)
| ErrorInvalidFormat (tracking_id : string)
| InfoUpdated (tracking_id action : string)
| ErrorUpdating (tracking_id : string) (e : exn)
| ErrorPixelNotFound
| ErrorStats (campaign_id : string) (e : exn).

Record server : Type := Server {
  files : gmap string file;
  pixel_present : bool;
  log : list log_record
}.

Definition logged (r : log_record) (st : server) : server :=
  Server (files st) (pixel_present st) (log st ++ [r]).

Definition with_files (fs : gmap string file) (st : server) : server :=
  Server fs (pixel_present st) (log st).

(** What a handler reads from [request]. *)
Record request : Type := Request {
  remote_addr : option string;
  header_user_agent : option string;
  arg_url : option string
}.

(** Python numbers in a JSON answer. *)
Inductive number : Type :=
| PyInt (z : Z)
| PyFloat (f : float).

Record stats : Type := Stats {
  campaign_id : string;
  total_recipients : Z;
  total_opens : Z;
  total_clicks : Z;
  open_rate : number;
  click_rate : number;
  click_to_open_rate : number
}.

Inductive body : Type :=
| ErrorBody (message : string)
| StatsBody (s : stats).

Inductive response : Type :=
| Abort (status : Z)
| SendFile (path mimetype : string)
| Redirect (location : string)
| Jsonify (b : body) (status : Z).

Definition status_code (r : response) : Z :=
  match r with
  | Abort status => status
  | SendFile _ _ => 200
  | Redirect _ => 302
  | Jsonify _ status => status
  end.

(** *** [update_tracking_data] *)

(** [os.path.join(TRACKING_DATA_DIR, f'campaign_data_{campaign_id}.json')]. *)
Definition data_file (campaign_id : string) : string :=
  TRACKING_DATA_DIR +:+ "/" +:+ "campaign_data_" +:+ campaign_id +:+ ".json".

(** Lines 192-194: create the file with [{}] when it does not exist. *)
Definition ensure_file (path : string) (fs : gmap string file) : gmap string file :=
  match fs !! path with
  | None => <[path := FJson ∅]> fs
  | Some _ => fs
  end.

(** Lines 197-198.  For a JSON text that is not an object the load itself
    succeeds and the first dictionary operation on the value raises; nothing
    happens in between, so both are one step here. *)
Definition json_load (path : string) (fs : gmap string file) : result (gmap string record) :=
  match fs !! path with
  | None => Raise FileNotFoundError
  | Some (FJson d) => Ok d
  | Some (FNonObject _) => Raise TypeError
  | Some FGarbage => Raise JSONDecodeError
  end.

(** Lines 228-229. *)
Definition json_dump (path : string) (d : gmap string record) (fs : gmap string file) : gmap string file :=
  <[path := FJson d]> fs.

(** Lines 205-208: the entry created for an unknown identifier. *)
Definition shell_entry (current_time : string) : gmap string value :=
  <["events" := VEvents []]> (<["first_seen" := VStr current_time]> ∅).

(** Lines 204-208. *)
Definition ensure_entry (current_time tracking_id : string) (d : gmap string record) : gmap string record :=
  match d !! tracking_id with
  | None => <[tracking_id := RDict (shell_entry current_time)]> d
  | Some _ => d
  end.

(** Lines 211-220. *)
Definition event_data (current_time action : string) (ip user_agent url : option string) : event :=
  Event action current_time ip user_agent
    (match url with
     | Some u => if String.eqb action "clicked" && PyStr.truthy u then Some u else None
     | None => None
     end).

(** Lines 223-225 on one record: append the event, set the flag, stamp the
    activity.  Only the first statement can raise. *)
Definition touch (current_time action : string) (ev : event) (r : record) : result record :=
  match r with
  | RDict e =>
      match e !! "events" with
      | None => Raise (KeyError "events")
      | Some (VEvents l) =>
          Ok (RDict (<["last_activity" := VStr current_time]>
                       (<[action := VBool true]>
                          (<["events" := VEvents (l ++ [ev])]> e))))
      | Some _ => Raise AttributeError
      end
  | RScalar _ => Raise TypeError
  end.

(** Lines 200-225: everything done to the loaded dictionary. *)
Definition record_event (current_time tracking_id action : string)
    (ip user_agent url : option string) (d : gmap string record) : result (gmap string record) :=
  let d1 := ensure_entry current_time tracking_id d in
  let ev := event_data current_time action ip user_agent url in
  match d1 !! tracking_id with
  | None => Raise (KeyError tracking_id)
  | Some r =>
      r' <~ touch current_time action ev r ;;
      Ok (<[tracking_id := r']> d1)
  end.

(** Lines 190-229: the body of [with file_lock:]. *)
Definition locked_section (current_time tracking_id action : string)
    (ip user_agent url : option string) (path : string) (fs : gmap string file)
    : gmap string file * result unit :=
  let fs1 := ensure_file path fs in
  match (d <~ json_load path fs1 ;;
         record_event current_time tracking_id action ip user_agent url d) with
  | Ok d' => (json_dump path d' fs1, Ok tt)
  | Raise e => (fs1, Raise e)
  end.

(** [update_tracking_data(tracking_id, action, ip, user_agent, url)], run at
    time [current_time].  Every exception of the locked section is caught and
    logged. *)
Definition update_tracking_data (current_time tracking_id action : string)
    (ip user_agent url : option string) (st : server) : server :=
  match head (PyStr.split "_" tracking_id) with
  | None => logged (ErrorInvalidFormat tracking_id) st
  | Some campaign =>
      let '(fs, r) := locked_section current_time tracking_id action ip user_agent url
                        (data_file campaign) (files st) in
      match r with
      | Ok _ => logged (InfoUpdated tracking_id action) (with_files fs st)
      | Raise e => logged (ErrorUpdating tracking_id e) (with_files fs st)
      end
  end.

(** *** The endpoints *)

(** [track_open]: [/track/pixel/<tracking_id>]. *)
Definition track_open (current_time : string) (req : request) (tracking_id : string)
    (st : server) : response * server :=
  if negb (is_valid_tracking_id tracking_id) then
    (Abort 400, logged (WarnInvalidTrackingId tracking_id) st)
  else
    let client_ip := remote_addr req in
    let user_agent := default "Unknown" (header_user_agent req) in
    let st1 := logged (InfoEmailOpened tracking_id client_ip user_agent) st in
    let st2 := update_tracking_data current_time tracking_id "opened"
                 client_ip (Some user_agent) None st1 in
    if pixel_present st2 then (SendFile PIXEL_FILE "image/png", st2)
    else (Abort 500, logged ErrorPixelNotFound st2).

Section ClickEndpoint.

Variable urlparse : string -> option url_parts.

(** [flask.redirect] belongs to the library as well: it builds the response
    that carries the location, or raises ([None]), as it does on a location
    it cannot put in a header. *)
Variable redirect : string -> option response.

(** Lines 117-123: the redirect target. *)
Definition resolve_url (req : request) : string :=
  let url := default DEFAULT_REDIRECT_URL (arg_url req) in
  if negb (is_valid_url urlparse url) then DEFAULT_REDIRECT_URL else url.

(** [track_click]: [/track/click/<tracking_id>?url=...].  An exception of
    [redirect] on line 135 is not caught: Flask answers 500, and the click
    has been recorded by then. *)
Definition track_click (current_time : string) (req : request) (tracking_id : string)
    (st : server) : response * server :=
  if negb (is_valid_tracking_id tracking_id) then
    (Abort 400, logged (WarnInvalidTrackingId tracking_id) st)
  else
    let url := default DEFAULT_REDIRECT_URL (arg_url req) in
    let st0 := if negb (is_valid_url urlparse url) then logged (WarnInvalidUrl url) st else st in
    let url := resolve_url req in
    let client_ip := remote_addr req in
    let user_agent := default "Unknown" (header_user_agent req) in
    let st1 := logged (InfoLinkClicked tracking_id url client_ip user_agent) st0 in
    let st2 := update_tracking_data current_time tracking_id "clicked"
                 client_ip (Some user_agent) (Some url) st1 in
    match redirect url with
    | Some r => (r, st2)
    | None => (Abort 500, st2)
    end.

End ClickEndpoint.

(** *** [campaign_stats] *)

(** A count as a Python float; exact below [2^53]. *)
Definition float_of_Z (z : Z) : float := PrimFloat.of_uint63 (Uint63.of_Z z).

(** [a / b] on two counts. *)
Definition true_div (a b : Z) : float :=
  PrimFloat.div (float_of_Z a) (float_of_Z b).

(** The integer nearest to [num / den], ties to even ([den > 0]). *)
Definition round_half_even (num den : Z) : Z :=
  let q := num / den in
  let r := num mod den in
  if 2 * r <? den then q
  else if den <? 2 * r then q + 1
  else if Z.even q then q else q + 1.

(** [round(x, 2)]: the exact value of [x] is rounded to two decimals, ties to
    even, and the decimal result is read back as the nearest float. *)
Definition round2 (x : float) : float :=
  match Prim2SF x with
  | S754_finite sign m e =>
      let hundredths :=
        if 0 <=? e then Z.pos m * 2 ^ e * 100
        else round_half_even (Z.pos m * 100) (2 ^ (- e)) in
      let r := PrimFloat.div (float_of_Z hundredths) (float_of_Z 100) in
      if sign then PrimFloat.opp r else r
  | _ => x
  end.

(** [round(part / whole * 100, 2) if whole > 0 else 0]. *)
Definition rate (part whole : Z) : number :=
  if 0 <? whole
  then PyFloat (round2 (PrimFloat.mul (true_div part whole) (float_of_Z 100)))
  else PyInt 0.

(** [data.get(key, False)] as a truth value. *)
Definition get_flag (key : string) (data : record) : result bool :=
  match data with
  | RDict e => Ok (truthy (default (VBool false) (e !! key)))
  | RScalar _ => Raise AttributeError
  end.

(** [sum(1 for data in values if data.get(key, False))]. *)
Fixpoint count_flag (key : string) (values : list record) : result Z :=
  match values with
  | [] => Ok 0
  | data :: rest =>
      b <~ get_flag key data ;;
      n <~ count_flag key rest ;;
      Ok ((if b then 1 else 0) + n)
  end.

(** Lines 155-168. *)
Definition calculate_statistics (campaign : string) (tracking_data : gmap string record) : result stats :=
  let values := (map_to_list tracking_data).*2 in
  let recipients := Z.of_nat (size tracking_data) in
  opens <~ count_flag "opened" values ;;
  clicks <~ count_flag "clicked" values ;;
  Ok (Stats campaign recipients opens clicks
        (rate opens recipients) (rate clicks recipients) (rate clicks opens)).

(** Lines 156-168 on the loaded value.  [len] refuses a number, a boolean
    and [null]; a list or a string has a length and no [values]. *)
Definition stats_of_file (campaign : string) (f : file) : result stats :=
  match f with
  | FJson d => calculate_statistics campaign d
  | FNonObject sized => Raise (if sized then AttributeError else TypeError)
  | FGarbage => Raise JSONDecodeError
  end.

(** [campaign_stats]: [/stats/<campaign_id>]. *)
Definition campaign_stats (campaign : string) (st : server) : response * server :=
  if negb (py_match_anchored CAMPAIGN_ID_PATTERN campaign) then (Abort 400, st)
  else
    match files st !! data_file campaign with
    | None => (Jsonify (ErrorBody "Campaign not found") 404, st)
    | Some f =>
        match stats_of_file campaign f with
        | Ok s => (Jsonify (StatsBody s) 200, st)
        | Raise e =>
            (Jsonify (ErrorBody "Internal server error") 500,
             logged (ErrorStats campaign e) st)
        end
    end.

(** *** Concurrent requests

    Flask serves each request on a thread of its own.  A thread inside
    [update_tracking_data] is at one of the program points below; a step of
    thread [i] runs one statement.  [lock] is [file_lock], with the index of
    the thread inside the [with] block. *)

Record call : Type := Call {
  call_time : string;
  call_tracking_id : string;
  call_action : string;
  call_ip : option string;
  call_user_agent : option string;
  call_url : option string
}.

Inductive pc : Type :=
| AtAcquire
| AtEnsureFile
| AtLoad
| AtUpdate (tracking_data : gmap string record)
| AtDump (tracking_data : gmap string record)
| AtRelease
| Returned.

Record world : Type := World {
  lock : option nat;
  disk : gmap string file;
  threads : list (call * pc)
}.

Definition call_path (c : call) : option string :=
  data_file <$> head (PyStr.split "_" (call_tracking_id c)).

Definition goto (i : nat) (c : call) (p : pc) (w : world) : list (call * pc) :=
  <[i := (c, p)]> (threads w).

(** One statement of thread [i]; [None] when the thread cannot move (it has
    returned, or it waits for the lock). *)
Definition thread_step (i : nat) (w : world) : option world :=
  match threads w !! i with
  | None => None
  | Some (c, p) =>
      match call_path c with
      | None =>
          match p with
          | AtAcquire => Some (World (lock w) (disk w) (goto i c Returned w))
          | _ => None
          end
      | Some path =>
          match p with
          | AtAcquire =>
              match lock w with
              | None => Some (World (Some i) (disk w) (goto i c AtEnsureFile w))
              | Some _ => None
              end
          | AtEnsureFile =>
              Some (World (lock w) (ensure_file path (disk w)) (goto i c AtLoad w))
          | AtLoad =>
              match json_load path (disk w) with
              | Ok d => Some (World (lock w) (disk w) (goto i c (AtUpdate d) w))
              | Raise _ => Some (World (lock w) (disk w) (goto i c AtRelease w))
              end
          | AtUpdate d =>
              match record_event (call_time c) (call_tracking_id c) (call_action c)
                      (call_ip c) (call_user_agent c) (call_url c) d with
              | Ok d' => Some (World (lock w) (disk w) (goto i c (AtDump d') w))
              | Raise _ => Some (World (lock w) (disk w) (goto i c AtRelease w))
              end
          | AtDump d' =>
              Some (World (lock w) (json_dump path d' (disk w)) (goto i c AtRelease w))
          | AtRelease => Some (World None (disk w) (goto i c Returned w))
          | Returned => None
          end
      end
  end.

(** A schedule names the thread that moves at each step. *)
Fixpoint run_schedule (schedule : list nat) (w : world) : option world :=
  match schedule with
  | [] => Some w
  | i :: rest =>
      match thread_step i w with
      | Some w' => run_schedule rest w'
      | None => None
      end
  end.

Definition returned (t : call * pc) : bool :=
  match t.2 with Returned => true | _ => false end.

Definition all_returned (w : world) : bool := forallb returned (threads w).

(** [calls] arriving together at a server whose files are [fs]. *)
Definition spawn (fs : gmap string file) (calls : list call) : world :=
  World None fs ((fun c => (c, AtAcquire)) <$> calls).

End tracking_server.

(** ** A model of [urllib.parse.urlparse]

    The scheme and the netloc as CPython's [urlsplit] computes them on ASCII
    text: leading control characters and spaces are stripped, tabs and line
    breaks removed, a leading [scheme:] is split off when it starts with a
    letter and holds only scheme characters, and after [//] the netloc runs
    to the first of [/], [?] and [#].  Only a netloc with one square bracket
    and not the other is reported as an error here; the library also
    refuses a bracketed host that is not an IP literal, so the model stands
    for the library on netlocs without square brackets.  The server does
    not depend on this model; it instantiates the library in examples. *)

Module urllib_parse.

Import tracking_server.

Definition is_c0_control_or_space (c : ascii) : bool := Ascii.leb c " ".

Definition is_unsafe (c : ascii) : bool :=
  Ascii.eqb c "009" || Ascii.eqb c "010" || Ascii.eqb c "013".

Definition is_alpha (c : ascii) : bool := PyStr.is_lower c || PyStr.is_upper c.

Definition scheme_char (c : ascii) : bool :=
  Regex.alnum c || Ascii.eqb c "+" || Ascii.eqb c "-" || Ascii.eqb c ".".

Definition netloc_end (c : ascii) : bool :=
  Ascii.eqb c "/" || Ascii.eqb c "?" || Ascii.eqb c "#".

Definition contains (ch : ascii) (s : string) : bool :=
  match PyStr.find (Ascii.eqb ch) s with Some _ => true | None => false end.

(** The scheme and the rest of the text. *)
Definition split_scheme (url : string) : string * string :=
  match PyStr.find (Ascii.eqb ":") url, url with
  | Some (S i), String c0 _ =>
      if is_alpha c0 && PyStr.all scheme_char (PyStr.slice_to (S i) url)
      then (PyStr.lower (PyStr.slice_to (S i) url), PyStr.slice_from (S (S i)) url)
      else (EmptyString, url)
  | _, _ => (EmptyString, url)
  end.

Definition split_netloc (rest : string) : string :=
  match PyStr.find netloc_end rest with
  | Some n => PyStr.slice_to n rest
  | None => rest
  end.

Definition urlparse (url : string) : option url_parts :=
  let url := PyStr.remove is_unsafe (PyStr.lstrip is_c0_control_or_space url) in
  let '(sch, rest) := split_scheme url in
  match rest with
  | String "/" (String "/" after) =>
      let loc := split_netloc after in
      if xorb (contains "[" loc) (contains "]" loc) then None
      else Some (UrlParts sch loc)
  | _ => Some (UrlParts sch EmptyString)
  end.





End urllib_parse.

(** ** A model of [flask.redirect]

    Werkzeug's [redirect] answers 302 with the location in the [Location]
    header, and its headers refuse a value that holds a carriage return or a
    line feed ([ValueError]).  This is the library on ASCII locations without
    blanks inside; the server does not depend on this model, it
    instantiates the library in examples. *)

Module werkzeug_utils.

Import tracking_server.

Definition is_line_break (c : ascii) : bool :=
  Ascii.eqb c "010" || Ascii.eqb c "013".

Definition redirect (location : string) : option response :=
  match PyStr.find is_line_break location with
  | Some _ => None
  | None => Some (Redirect location)
  end.

End werkzeug_utils.

(** ** The campaign script: the tracking data and the report *)

Module EmailCampaign.

Import tracking_server.

(** [self.tracking_file] (line 68), a path in the working directory. *)
Definition tracking_file (campaign_id : string) : string :=
  "campaign_data_" +:+ campaign_id +:+ ".json".

(** [self.tracking_data]: a Python dictionary, which keeps its keys in the
    order of their first insertion. *)
Definition tracking_data : Type := list (string * gmap string value).

Fixpoint dict_get (key : string) (d : tracking_data) : option (gmap string value) :=
  match d with
  | [] => None
  | (k, v) :: rest => if String.eqb k key then Some v else dict_get key rest
  end.

(** [d[key] = v]: an existing key keeps its place. *)
Fixpoint dict_set (key : string) (v : gmap string value) (d : tracking_data) : tracking_data :=
  match d with
  | [] => [(key, v)]
  | (k, v0) :: rest =>
      if String.eqb k key then (k, v) :: rest else (k, v0) :: dict_set key v rest
  end.

(** What [_prepare_email] reads from the row of a lead for the tracking
    data: [lead.get('id', str(lead.name))] and the three cells with their
    defaults. *)
Record lead_fields : Type := LeadFields {
  lead_id : value;
  company : value;
  contact : value;
  email : value
}.

(** Lines 178-188: the entry [_prepare_email] stores. *)
Definition new_entry (f : lead_fields) : gmap string value :=
  <["last_activity" := VNull]>
    (<["responded" := VBool false]>
       (<["clicked" := VBool false]>
          (<["opened" := VBool false]>
             (<["sent_time" := VNull]>
                (<["email" := email f]>
                   (<["contact" := contact f]>
                      (<["company" := company f]>
                         (<["lead_id" := lead_id f]> ∅)))))))).

(** Lines 255-257 of [run_campaign]: the two stamps of a successful send. *)
Definition mark_sent (tracking_id current_time : string) (d : tracking_data) : result tracking_data :=
  match dict_get tracking_id d with
  | None => Raise (KeyError tracking_id)
  | Some e =>
      Ok (dict_set tracking_id
            (<["last_activity" := VStr current_time]>
               (<["sent_time" := VStr current_time]> e)) d)
  end.

(** One mailed lead, as the loop of [run_campaign] sees it: the identifier
    [_prepare_email] generated, the fields it read, the outcome of
    [_send_email] and the time of the stamp. *)
Record mailing : Type := Mailing {
  tracking_id : string;
  fields : lead_fields;
  success : bool;
  current_time : string
}.

(** What one iteration of [run_campaign] does to [self.tracking_data]: line
    178 through [_prepare_email], then lines 255-257 when the send
    succeeded. *)
Definition bookkeep (m : mailing) (d : tracking_data) : result tracking_data :=
  let d1 := dict_set (tracking_id m) (new_entry (fields m)) d in
  if success m then mark_sent (tracking_id m) (current_time m) d1 else Ok d1.

(** [self.tracking_data] after the iterations of the mailed leads, from the
    dictionary [d]; the skipped leads and the pauses leave it alone. *)
Fixpoint bookkeep_all (ms : list mailing) (d : tracking_data) : result tracking_data :=
  match ms with
  | [] => Ok d
  | m :: rest => d' <~ bookkeep m d ;; bookkeep_all rest d'
  end.

(** The JSON object [json.dump] writes for the dictionary. *)
Definition to_json (d : tracking_data) : gmap string record :=
  list_to_map ((fun kv => (kv.1, RDict kv.2)) <$> d).

(** [_save_tracking_data]. *)
Definition _save_tracking_data (campaign_id : string) (d : tracking_data)
    (fs : gmap string file) : gmap string file :=
  <[tracking_file campaign_id := FJson (to_json d)]> fs.

(** *** [generate_campaign_report] *)

(** [data[key]]. *)
Definition item (key : string) (data : gmap string value) : result value :=
  match data !! key with
  | Some v => Ok v
  | None => Raise (KeyError key)
  end.

(** [sum(1 for data in values if data[key])]. *)
Fixpoint count_where (key : string) (values : list (gmap string value)) : result Z :=
  match values with
  | [] => Ok 0
  | data :: rest =>
      v <~ item key data ;;
      n <~ count_where key rest ;;
      Ok ((if truthy v then 1 else 0) + n)
  end.

(** An element of [hot_leads] or [warm_leads]. *)
Record lead_summary : Type := LeadSummary {
  summary_company : value;
  summary_contact : value;
  summary_email : value;
  summary_opened : value;
  summary_clicked : value
}.

Definition summary (data : gmap string value) : result lead_summary :=
  c <~ item "company" data ;;
  p <~ item "contact" data ;;
  e <~ item "email" data ;;
  o <~ item "opened" data ;;
  k <~ item "clicked" data ;;
  Ok (LeadSummary c p e o k).

(** The comprehension of ['hot_leads']: [if data['clicked']]. *)
Fixpoint hot (values : list (gmap string value)) : result (list lead_summary) :=
  match values with
  | [] => Ok []
  | data :: rest =>
      k <~ item "clicked" data ;;
      if truthy k then
        s <~ summary data ;;
        l <~ hot rest ;;
        Ok (s :: l)
      else hot rest
  end.

(** The comprehension of ['warm_leads']:
    [if data['opened'] and not data['clicked']]. *)
Fixpoint warm (values : list (gmap string value)) : result (list lead_summary) :=
  match values with
  | [] => Ok []
  | data :: rest =>
      o <~ item "opened" data ;;
      keep <~ (if truthy o then k <~ item "clicked" data ;; Ok (negb (truthy k))
               else Ok false) ;;
      if keep : bool then
        s <~ summary data ;;
        l <~ warm rest ;;
        Ok (s :: l)
      else warm rest
  end.

(** [(part / whole * 100) if whole > 0 else 0]: no rounding here. *)
Definition plain_rate (part whole : Z) : number :=
  if 0 <? whole
  then PyFloat (PrimFloat.mul (true_div part whole) (float_of_Z 100))
  else PyInt 0.

Record report : Type := Report {
  campaign_id : string;
  timestamp : string;
  total_leads : Z;
  emails_sent : Z;
  emails_opened : Z;
  links_clicked : Z;
  open_rate : number;
  click_rate : number;
  click_to_open_rate : number;
  hot_leads : list lead_summary;
  warm_leads : list lead_summary
}.

(** The dictionary [generate_campaign_report] builds and returns, at time
    [now]; it is also dumped to [campaign_report_<id>.json] and printed. *)
Definition generate_campaign_report (campaign now : string) (d : tracking_data) : result report :=
  let values := d.*2 in
  let total := Z.of_nat (length d) in
  sent_count <~ count_where "sent_time" values ;;
  opened_count <~ count_where "opened" values ;;
  clicked_count <~ count_where "clicked" values ;;
  hot_list <~ hot values ;;
  warm_list <~ warm values ;;
  Ok (Report campaign now total sent_count opened_count clicked_count
        (plain_rate opened_count sent_count)
        (plain_rate clicked_count sent_count)
        (plain_rate clicked_count opened_count)
        hot_list warm_list).

(** *** The copy of a sent email (lines 259-265) *)

Section SentCopy.

(** [str.isalnum] on one character belongs to the Python library. *)
Variable isalnum : ascii -> bool.

(** [''.join(c if c.isalnum() else '_' for c in company_name)]. *)
Fixpoint safe_name (company_name : string) : string :=
  match company_name with
  | EmptyString => EmptyString
  | String c rest => String (if isalnum c then c else "_"%char) (safe_name rest)
  end.

(** [tracking_id[-8:]]. *)
Definition last_eight (tracking_id : string) : string :=
  PyStr.slice_from (String.length tracking_id - 8) tracking_id.

(** [os.path.join(sent_dir, f"sent_{safe_name}_{tracking_id[-8:]}.html")]. *)
Definition sent_file (company_name tracking_id : string) : string :=
  "sent_emails" +:+ "/" +:+ "sent_" +:+ safe_name company_name +:+ "_"
    +:+ last_eight tracking_id +:+ ".html".

End SentCopy.

End EmailCampaign.

(** ** The tracking server that [setup_tracking_server] writes

    The script kept in the string of [setup_tracking_server] (lines 395-470
    of the campaign script): no lock, no validation, and files in the
    working directory. *)

Module generated_tracking_server.

Import tracking_server.

(** [f'campaign_data_{campaign_id}.json']. *)
Definition data_file (campaign_id : string) : string :=
  "campaign_data_" +:+ campaign_id +:+ ".json".

(** Inside the [try]: load, and update the record if it exists.  Every
    exception is caught and logged, and leaves the file as it was; on a
    JSON text that is not an object, or a record that is not one, either
    the identifier is not found or the assignment raises. *)
Definition update_file (current_time tracking_id action : string) (f : file) : option file :=
  match f with
  | FJson tracking_data =>
      match tracking_data !! tracking_id with
      | Some (RDict e) =>
          Some (FJson (<[tracking_id :=
                          RDict (<["last_activity" := VStr current_time]>
                                   (<[action := VBool true]> e))]> tracking_data))
      | _ => None
      end
  | _ => None
  end.

(** [update_tracking_data(tracking_id, action)] at time [current_time], as a
    function of the files.  The subscript [[0]] is outside the [try]. *)
Definition update_tracking_data (current_time tracking_id action : string)
    (fs : gmap string file) : result (gmap string file) :=
  match head (PyStr.split "_" tracking_id) with
  | None => Raise IndexError
  | Some campaign_id =>
      match fs !! data_file campaign_id with
      | None => Ok fs
      | Some f =>
          match update_file current_time tracking_id action f with
          | Some f' => Ok (<[data_file campaign_id := f']> fs)
          | None => Ok fs
          end
      end
  end.

End generated_tracking_server.

(** ** The vocabulary of the properties *)

Section IdentifierVocabulary.

Import Regex tracking_server Email_Campaign_Automation.

(** A non-empty run of letters and digits. *)
Definition segment (s : string) : Prop := s <> "" /\ PyStr.all alnum s = true.

(** The identifiers of the specification: three segments joined by two
    underscores. *)
Definition three_segments (s : string) : Prop :=
  exists a b n, segment a /\ segment b /\ segment n
                /\ s = a +:+ "_" +:+ b +:+ "_" +:+ n.

End IdentifierVocabulary.

Section StoreVocabulary.

Import tracking_server.

(** The exception the locked section ends with on an unreadable file. *)
Definition load_error (f : file) : exn :=
  match f with FGarbage => JSONDecodeError | _ => TypeError end.

(** The entry of [tid] in the file of [campaign], when there is one. *)
Definition entry_of (fs : gmap string file) (campaign tid : string) : option (gmap string value) :=
  match fs !! data_file campaign with
  | Some (FJson d) =>
      match d !! tid with
      | Some (RDict e) => Some e
      | _ => None
      end
  | _ => None
  end.

(** A flag of an entry, read as [campaign_stats] reads it. *)
Definition flag (key : string) (e : gmap string value) : bool :=
  truthy (default (VBool false) (e !! key)).

(** The ["events"] list of an entry, when it holds one. *)
Definition events_of (e : gmap string value) : option (list event) :=
  match e !! "events" with
  | Some (VEvents l) => Some l
  | _ => None
  end.

(** The events recorded so far for [tid]; none when it has no entry. *)
Definition recorded (fs : gmap string file) (campaign tid : string) : list event :=
  default [] (entry_of fs campaign tid ≫= events_of).

(** The stores on which line 223 cannot raise for [tid]: the campaign file is
    absent or a JSON object, in which [tid] is absent or an entry that holds
    an ["events"] list. *)
Definition recordable (fs : gmap string file) (campaign tid : string) : Prop :=
  match fs !! data_file campaign with
  | None => True
  | Some (FJson d) =>
      match d !! tid with
      | None => True
      | Some (RDict e) => is_Some (events_of e)
      | Some (RScalar _) => False
      end
  | Some _ => False
  end.

(** The two actions of the endpoints, which are also the two flags. *)
Definition is_flag (key : string) : Prop := key = "opened" \/ key = "clicked".

(** The files after [update_tracking_data], as a function of the files
    before. *)
Definition updated_files (now tid action : string) (ip ua url : option string)
    (fs : gmap string file) : gmap string file :=
  match head (PyStr.split "_" tid) with
  | None => fs
  | Some campaign => (locked_section now tid action ip ua url (data_file campaign) fs).1
  end.

(** A run of pixel requests for one identifier, at the given times. *)
Fixpoint opens (times : list string) (req : request) (tid : string) (st : server) : server :=
  match times with
  | [] => st
  | now :: rest => opens rest req tid (track_open now req tid st).2
  end.

(** The record [_prepare_email] stores for a lead, as [_save_tracking_data]
    writes it after the email was sent: it has no ["events"] key. *)
Definition seed_entry : gmap string value :=
  list_to_map [
    ("lead_id", VInt 7); ("company", VStr "Acme"); ("contact", VStr "Ann Lee");
    ("email", VStr "ann@acme.example"); ("sent_time", VStr "2025-01-01T00:00:05");
    ("opened", VBool false); ("clicked", VBool false); ("responded", VBool false);
    ("last_activity", VStr "2025-01-01T00:00:05")
  ].

(** A record that is a JSON object. *)
Definition is_entry (r : record) : Prop :=
  match r with RDict _ => True | RScalar _ => False end.

(** The flag [key] of a record is set: the key is present and its value is
    true.  A missing key counts as not set. *)
Definition flag_true (key : string) (r : record) : bool :=
  match r with
  | RDict e => match e !! key with Some v => truthy v | None => false end
  | RScalar _ => false
  end.

(** The number of entries of a store whose flag [key] is set. *)
Definition entries_with (key : string) (d : gmap string record) : Z :=
  Z.of_nat (size (filter (fun kv => flag_true key kv.2 = true) d)).

(** The rate of the specification, before any rounding:
    [part / whole * 100]. *)
Definition percentage (part whole : Z) : float :=
  PrimFloat.mul (true_div part whole) (float_of_Z 100).

(** Three recipients, one of whom opened the email. *)
Definition one_open_in_three : gmap string record :=
  {[ "a_1" := RDict {[ "opened" := VBool true ]};
     "a_2" := RDict ∅;
     "a_3" := RDict ∅ ]}.

(** A store as the pixel endpoint leaves it after one request for an unknown
    identifier, next to two bare shell entries. *)
Definition shells : gmap string record :=
  {[ "a_1" := RDict (<["last_activity" := VStr "t1"]>
                       (<["opened" := VBool true]>
                          (<["events" := VEvents [Event "opened" "t1" None (Some "Mail") None]]>
                             (shell_entry "t1"))));
     "a_2" := RDict (shell_entry "t2");
     "a_3" := RDict (shell_entry "t3") ]}.

End StoreVocabulary.

Section SendLoopVocabulary.

Import Email_Campaign_Automation.

(** The loop indices after which the specification takes a batch break: the
    lead is mailed, its position is a multiple of the batch size, and it is
    not the last one. *)
Fixpoint break_points (b total : Z) (i : nat) (leads : list lead) : list nat :=
  match leads with
  | [] => []
  | l :: rest =>
      (if has_email l && ((Z.of_nat i + 1) mod b =? 0) && (Z.of_nat i + 1 <? total)
       then [i] else [])
      ++ break_points b total (S i) rest
  end.

(** The durations the two pauses may take. *)
Definition in_range (cfg : settings) (e : effect) : Prop :=
  match e with
  | Slept _ secs => delay_min cfg <= secs <= delay_max cfg
  | BatchBreak _ secs => 2 * delay_max cfg <= secs <= 3 * delay_max cfg
  | _ => True
  end.

(** The contact cells on which line 158 does not raise: no column, an
    empty string, or a name that is not blank. *)
Definition usable_contact (c : cell) : bool :=
  match c with
  | Missing => true
  | NaN => false
  | Text name => negb (PyStr.truthy name) || negb (PyStr.all PyStr.is_space name)
  end.

(** The rows the loop body gets through, given the outcome of the send: the
    contact is usable, and when the email was sent the company cell is not
    empty (line 261). *)
Definition well_formed (success : bool) (l : lead) : Prop :=
  usable_contact (Contact_Person l) = true
  /\ (success = true -> Company_Name l <> NaN).

(** A lead with an email address and one without. *)
Definition ann : lead :=
  Lead (Text "ann@acme.example") (Text "Acme") (Text "Ann Lee").

Definition bob : lead := Lead Missing (Text "Bolt") NaN.

(** The loop indices, from [i] on, of the leads that satisfy [f]. *)
Fixpoint indices_where (f : lead -> bool) (i : nat) (leads : list lead) : list nat :=
  match leads with
  | [] => []
  | l :: rest => (if f l then [i] else []) ++ indices_where f (S i) rest
  end.

(** The loop indices of the leads that are mailed. *)
Definition mailed (leads : list lead) : list nat := indices_where has_email 0 leads.

(** The sends and the saves of a trace, in order. *)
Definition deliveries (t : list effect) : list effect :=
  omap (fun e => match e with Dispatched _ _ | Saved _ => Some e | _ => None end) t.

(** The loop indices of the leads a trace skips. *)
Definition skips (t : list effect) : list nat :=
  omap (fun e => match e with Skipped i => Some i | _ => None end) t.

(** The loop indices after which the short pause was taken. *)
Definition pauses (t : list effect) : list nat :=
  omap (fun e => match e with Slept i _ => Some i | _ => None end) t.

End SendLoopVocabulary.

Section ThreadVocabulary.

Import tracking_server.

Variable campaign : string.

Local Abbreviation path := (data_file campaign).

(** Program points inside [with file_lock:]. *)
Definition in_cs (p : pc) : bool :=
  match p with
  | AtAcquire | Returned => false
  | _ => true
  end.

(** Statements a thread still has to run, at most. *)
Definition rank (p : pc) : nat :=
  match p with
  | AtAcquire => 6
  | AtEnsureFile => 5
  | AtLoad => 4
  | AtUpdate _ => 3
  | AtDump _ => 2
  | AtRelease => 1
  | Returned => 0
  end.

(** Statements the threads of a world still have to run, at most. *)
Definition measure (w : world) : nat := sum_list ((fun t => rank t.2) <$> threads w).

(** The campaign file holds a record for [tid]. *)
Definition holds (fs : gmap string file) (tid : string) : Prop :=
  exists d, fs !! path = Some (FJson d) /\ is_Some (d !! tid).

(** The campaign file is absent or a JSON object. *)
Definition readable (fs : gmap string file) : Prop :=
  match fs !! path with
  | None | Some (FJson _) => True
  | Some _ => False
  end.

(** What a thread at [p] knows about the disk. *)
Definition pc_ok (fs : gmap string file) (c : call) (p : pc) : Prop :=
  match p with
  | AtAcquire | AtEnsureFile => True
  | AtLoad => exists d, fs !! path = Some (FJson d)
  | AtUpdate d => fs !! path = Some (FJson d)
  | AtDump d' =>
      exists d, fs !! path = Some (FJson d)
                /\ dom d ⊆ dom d' /\ call_tracking_id c ∈ dom d'
  | AtRelease | Returned => holds fs (call_tracking_id c)
  end.

(** The invariant of the worlds reached from [spawn]: the lock is held by
    the one thread inside the [with] block, and each thread's view of the
    disk is accurate. *)
Record inv (w : world) : Prop := Inv {
  inv_readable : readable (disk w);
  inv_path : forall j c p, threads w !! j = Some (c, p) -> call_path c = Some path;
  inv_lock : forall j c p, threads w !! j = Some (c, p) ->
             (in_cs p = true <-> lock w = Some j);
  inv_owner : forall i, lock w = Some i -> is_Some (threads w !! i);
  inv_pc : forall j c p, threads w !! j = Some (c, p) -> pc_ok (disk w) c p
}.

(** One statement of thread [i] running call [c], as a relation between the
    program points, the lock and the disk before and after. *)
Inductive transition (i : nat) (c : call) :
  pc -> option nat -> gmap string file -> pc -> option nat -> gmap string file -> Prop :=
| T_acquire fs :
    transition i c AtAcquire None fs AtEnsureFile (Some i) fs
| T_ensure l fs :
    transition i c AtEnsureFile l fs AtLoad l (ensure_file path fs)
| T_load l fs d :
    json_load path fs = Ok d ->
    transition i c AtLoad l fs (AtUpdate d) l fs
| T_load_raise l fs e :
    json_load path fs = Raise e ->
    transition i c AtLoad l fs AtRelease l fs
| T_update l fs d d' :
    record_event (call_time c) (call_tracking_id c) (call_action c)
      (call_ip c) (call_user_agent c) (call_url c) d = Ok d' ->
    transition i c (AtUpdate d) l fs (AtDump d') l fs
| T_update_raise l fs d e :
    record_event (call_time c) (call_tracking_id c) (call_action c)
      (call_ip c) (call_user_agent c) (call_url c) d = Raise e ->
    transition i c (AtUpdate d) l fs AtRelease l fs
| T_dump l fs d' :
    transition i c (AtDump d') l fs AtRelease l (json_dump path d' fs)
| T_release l fs :
    transition i c AtRelease l fs Returned None fs.

End ThreadVocabulary.

Section UpdateVocabulary.

Import tracking_server.

(** An entry after lines 223-225 have run on it: [l] is its former events
    list. *)
Definition touched (now action : string) (ev : event) (e : gmap string value)
    (l : list event) : gmap string value :=
  <["last_activity" := VStr now]>
    (<[action := VBool true]> (<["events" := VEvents (l ++ [ev])]> e)).

(** The keys lines 223-225 write. *)
Definition written (action key : string) : Prop :=
  key = "events" \/ key = action \/ key = "last_activity".

(** Every URL kept in an event of the store passes [is_valid_url]. *)
Definition urls_valid (urlparse : string -> option url_parts) (fs : gmap string file) : Prop :=
  forall campaign tid ev u,
    ev ∈ recorded fs campaign tid -> ev_url ev = Some u ->
    is_valid_url urlparse u = true.

End UpdateVocabulary.

Section SerialVocabulary.

Import tracking_server.

(** The files after the call [c] has run alone. *)
Definition call_update (c : call) (fs : gmap string file) : gmap string file :=
  updated_files (call_time c) (call_tracking_id c) (call_action c)
    (call_ip c) (call_user_agent c) (call_url c) fs.

(** The files after the calls have run one after the other. *)
Definition run_serially (order : list call) (fs : gmap string file) : gmap string file :=
  foldl (fun fs c => call_update c fs) fs order.

(** The calls of the threads that have returned. *)
Definition finished (w : world) : list call :=
  (filter (fun t => returned t = true) (threads w)).*1.

(** The lock is held by the thread inside the [with] block, if there is
    one, and by no other. *)
Definition lock_ok (w : world) : Prop :=
  (forall j c p, threads w !! j = Some (c, p) -> (in_cs p = true <-> lock w = Some j))
  /\ (forall i, lock w = Some i -> is_Some (threads w !! i)).

(** The files while a thread running [c] is at [p] inside the [with] block,
    [base] being the files when it took the lock. *)
Definition in_progress (c : call) (p : pc) (base fs : gmap string file) : Prop :=
  match call_path c with
  | None => False
  | Some path =>
      match p with
      | AtEnsureFile => fs = base
      | AtLoad => fs = ensure_file path base
      | AtUpdate d => fs = ensure_file path base /\ json_load path fs = Ok d
      | AtDump d' =>
          fs = ensure_file path base
          /\ exists d, json_load path fs = Ok d
                       /\ record_event (call_time c) (call_tracking_id c) (call_action c)
                            (call_ip c) (call_user_agent c) (call_url c) d = Ok d'
      | AtRelease => fs = call_update c base
      | AtAcquire | Returned => False
      end
  end.

(** The world [w], reached from the files [fs], is what running the calls
    of [order] one after the other gives, up to the call in progress. *)
Definition serial (fs : gmap string file) (w : world) (order : list call) : Prop :=
  order ≡ₚ finished w
  /\ lock_ok w
  /\ match lock w with
     | None => disk w = run_serially order fs
     | Some i =>
         exists c p, threads w !! i = Some (c, p)
                     /\ in_progress c p (run_serially order fs) (disk w)
     end.

End SerialVocabulary.

Section CampaignVocabulary.

Import tracking_server EmailCampaign.

(** An entry as the campaign script keeps it in memory: it has a sent time
    (possibly [None]) and both flags are [False]. *)
Definition unopened (e : gmap string value) : Prop :=
  is_Some (e !! "sent_time")
  /\ e !! "opened" = Some (VBool false)
  /\ e !! "clicked" = Some (VBool false).

(** A table of three leads with emails, the second send failing. *)
Definition three_mailings : list mailing :=
  [Mailing "20250101120000_0_aaaaaaaa"
     (LeadFields (VStr "0") (VStr "Acme") (VStr "Ann Lee") (VStr "ann@acme.example"))
     true "2025-01-01T12:00:01";
   Mailing "20250101120000_1_bbbbbbbb"
     (LeadFields (VStr "1") (VStr "Bolt") (VStr "Bob Ray") (VStr "bob@bolt.example"))
     false "2025-01-01T12:01:30";
   Mailing "20250101120000_2_cccccccc"
     (LeadFields (VStr "2") (VStr "Core") (VStr "Cy Moe") (VStr "cy@core.example"))
     true "2025-01-01T12:03:10"].

(** A dictionary as a server that records flags would leave it: one lead
    clicked, one only opened, one did neither. *)
Definition mixed_data : tracking_data :=
  [("c_0_a", <["clicked" := VBool true]> (<["opened" := VBool true]>
               (new_entry (LeadFields (VStr "0") (VStr "Acme") (VStr "Ann") (VStr "a@x.example")))));
   ("c_1_b", <["opened" := VBool true]>
               (new_entry (LeadFields (VStr "1") (VStr "Bolt") (VStr "Bob") (VStr "b@x.example"))));
   ("c_2_c", new_entry (LeadFields (VStr "2") (VStr "Core") (VStr "Cy") (VStr "c@x.example")))].

(** The entry of a mailed lead when the loop has run: stamped if the send
    succeeded. *)
Definition kept_entry (m : mailing) : gmap string value :=
  if success m
  then <["last_activity" := VStr (current_time m)]>
         (<["sent_time" := VStr (current_time m)]> (new_entry (fields m)))
  else new_entry (fields m).

End CampaignVocabulary.

(** * Part II: properties *)

(** ** Strings *)

Section StringFacts.

Import PyStr.

Lemma str_app_cons (c : ascii) (s t : string) :
  String c s +:+ t = String c (s +:+ t).
Proof. reflexivity. Qed.

Lemma str_app_nil_r (s : string) : s +:+ "" = s.
Proof. induction s as [|c s IH]; [done|]. by rewrite str_app_cons, IH. Qed.

Lemma str_app_assoc (s t u : string) : (s +:+ t) +:+ u = s +:+ (t +:+ u).
Proof. induction s as [|c s IH]; [done|]. by rewrite !str_app_cons, IH. Qed.

Lemma str_app_eq_nil (s t : string) : s +:+ t = "" -> s = "" /\ t = "".
Proof. destruct s; [done|]. rewrite str_app_cons. discriminate. Qed.

Lemma str_all_app p s t : all p (s +:+ t) = all p s && all p t.
Proof.
  induction s as [|c s IH]; [done|].
  rewrite str_app_cons. simpl. by rewrite IH, andb_assoc.
Qed.

Lemma str_count_app ch s t : count ch (s +:+ t) = (count ch s + count ch t)%nat.
Proof.
  induction s as [|c s IH]; [done|].
  rewrite str_app_cons. simpl. rewrite IH. lia.
Qed.

Lemma str_count_all_false ch p s :
  p ch = false -> all p s = true -> count ch s = 0%nat.
Proof.
  intros Hp. induction s as [|c s IH]; [done|]. simpl.
  intros [Hc Hs]%andb_prop. rewrite (IH Hs).
  destruct (Ascii.eqb_spec c ch) as [->|]; [congruence|done].
Qed.

Lemma split_nonempty sep s : split sep s <> [].
Proof.
  destruct s as [|c s]; [done|]. simpl.
  destruct (Ascii.eqb c sep); [done|]. by destruct (split sep s).
Qed.

(** The first piece of a split is the text before the first separator. *)
Lemma split_head_app sep a t :
  count sep a = 0%nat ->
  head (split sep (a +:+ String sep t)) = Some a.
Proof.
  induction a as [|c a IH]; intros Hc.
  - simpl. by rewrite Ascii.eqb_refl.
  - rewrite str_app_cons. simpl in *.
    destruct (Ascii.eqb c sep); [done|].
    specialize (IH Hc).
    destruct (split sep (a +:+ String sep t)); simplify_eq/=; done.
Qed.

End StringFacts.

(** ** Regular expressions: the matcher decides the language *)

Section RegexFacts.

Import Regex.

Lemma lang_nil_nullable r : lang r "" <-> nullable r = true.
Proof.
  split.
  - intros H. remember EmptyString as s eqn:Hs.
    induction H; simpl; subst; try done.
    + apply str_app_eq_nil in Hs as [-> ->]. by rewrite IHlang1, IHlang2.
    + by rewrite IHlang.
    + rewrite IHlang by done. apply orb_true_r.
  - induction r; simpl; intros H; try done.
    + constructor.
    + apply andb_prop in H as [H1 H2].
      change EmptyString with ("" +:+ ""). constructor; auto.
    + apply orb_prop in H as [H|H]; [apply LAltL|apply LAltR]; auto.
    + constructor.
Qed.

Lemma lang_deriv_sound c r : forall s, lang (deriv c r) s -> lang r (String c s).
Proof.
  induction r; simpl; intros s H.
  - inversion H.
  - inversion H.
  - destruct (p c) eqn:Hp; inversion H; subst. by constructor.
  - assert (Hcat : forall t, lang (Cat (deriv c r1) r2) t -> lang (Cat r1 r2) (String c t)).
    { intros t Ht. inversion Ht; subst. rewrite <- str_app_cons. constructor; auto. }
    destruct (nullable r1) eqn:Hn; [|by apply Hcat].
    inversion H; subst; [by apply Hcat|].
    change (String c s) with ("" +:+ String c s).
    constructor; [by apply lang_nil_nullable|auto].
  - inversion H; subst; [apply LAltL|apply LAltR]; auto.
  - inversion H; subst. rewrite <- str_app_cons. constructor; auto.
Qed.

Lemma lang_deriv_complete c r t :
  lang r t -> forall s, t = String c s -> lang (deriv c r) s.
Proof.
  induction 1 as [|p c' Hp|r1 r2 s1 s2 H1 IH1 H2 IH2|r1 r2 s0 H1 IH1|r1 r2 s0 H1 IH1
                 | |r0 s1 s2 H1 IH1 H2 IH2]; intros s Hs; simpl.
  - discriminate.
  - injection Hs as -> <-. rewrite Hp. constructor.
  - destruct s1 as [|c1 s1].
    + apply lang_nil_nullable in H1 as ->. apply LAltR. by apply IH2.
    + rewrite str_app_cons in Hs. injection Hs as -> <-.
      assert (lang (Cat (deriv c r1) r2) (s1 +:+ s2)) by (constructor; auto).
      destruct (nullable r1); [by apply LAltL|done].
  - apply LAltL. auto.
  - apply LAltR. auto.
  - discriminate.
  - destruct s1 as [|c1 s1].
    + by apply IH2.
    + rewrite str_app_cons in Hs. injection Hs as -> <-.
      constructor; auto.
Qed.

Lemma lang_deriv c r s : lang (deriv c r) s <-> lang r (String c s).
Proof.
  split; [apply lang_deriv_sound|].
  intros H. by eapply lang_deriv_complete.
Qed.

Theorem run_lang r s : run r s = true <-> lang r s.
Proof.
  revert r. induction s as [|c s IH]; intros r; simpl.
  - symmetry. apply lang_nil_nullable.
  - rewrite IH. apply lang_deriv.
Qed.

Lemma lang_cls_inv p s :
  lang (Cls p) s -> exists c, s = String c "" /\ p c = true.
Proof. intros H. inversion H; subst. eauto. Qed.

Lemma lang_eps_inv s : lang Eps s -> s = "".
Proof. intros H. by inversion H. Qed.

Lemma lang_cat_inv r1 r2 s :
  lang (Cat r1 r2) s -> exists s1 s2, s = s1 +:+ s2 /\ lang r1 s1 /\ lang r2 s2.
Proof. intros H. inversion H; subst. eauto. Qed.

Lemma lang_alt_inv r1 r2 s : lang (Alt r1 r2) s -> lang r1 s \/ lang r2 s.
Proof. intros H. inversion H; subst; auto. Qed.

(** The languages of [[p]*] and [[p]+]. *)
Lemma lang_star_cls p s : lang (Star (Cls p)) s <-> PyStr.all p s = true.
Proof.
  split.
  - intros H. remember (Star (Cls p)) as r eqn:Hr.
    induction H; try discriminate; [done|].
    injection Hr as ->. rewrite str_all_app, IHlang2 by done.
    apply lang_cls_inv in H as (c & -> & Hc). simpl. by rewrite Hc.
  - induction s as [|c s IH]; simpl; [constructor|].
    intros [Hc Hs]%andb_prop.
    change (String c s) with (String c "" +:+ s).
    constructor; [by constructor|auto].
Qed.

Lemma lang_plus_cls p s :
  lang (Plus (Cls p)) s <-> s <> "" /\ PyStr.all p s = true.
Proof.
  unfold Plus. split.
  - intros (s1 & s2 & -> & H1 & H2)%lang_cat_inv.
    apply lang_cls_inv in H1 as (c & -> & Hc). apply lang_star_cls in H2.
    change (String c "" +:+ s2) with (String c s2).
    simpl. split; [done|]. by rewrite Hc, H2.
  - intros [Hne Hall]. destruct s as [|c s]; [done|].
    simpl in Hall. apply andb_prop in Hall as [Hc Hs].
    change (String c s) with (String c "" +:+ s).
    constructor; [by constructor|by apply lang_star_cls].
Qed.

Lemma lang_dollar s : lang Dollar s <-> s = "" \/ s = String newline "".
Proof.
  unfold Dollar, Opt. split.
  - intros [H|H]%lang_alt_inv.
    + apply lang_cls_inv in H as (c & -> & Hc). right.
      by apply Ascii.eqb_eq in Hc as <-.
    + left. by apply lang_eps_inv.
  - intros [->| ->]; [apply LAltR; constructor|].
    apply LAltL. constructor. apply Ascii.eqb_refl.
Qed.

End RegexFacts.

(** ** Tracking identifiers *)

Section Identifiers.

Import Regex tracking_server Email_Campaign_Automation.

(** The identifiers the server accepts are exactly [a_b], with an optional
    final newline, for two segments [a] and [b]. *)
Lemma is_valid_tracking_id_iff s :
  is_valid_tracking_id s = true <->
  exists a b, segment a /\ segment b /\
    (s = a +:+ "_" +:+ b \/ s = a +:+ "_" +:+ b +:+ String newline "").
Proof.
  unfold is_valid_tracking_id, py_match_anchored, VALID_TRACKING_ID_PATTERN.
  rewrite run_lang. split.
  - intros (s1 & n & -> & H1 & Hn)%lang_cat_inv.
    apply lang_cat_inv in H1 as (a & s2 & -> & Ha & H2).
    apply lang_cat_inv in H2 as (u & b & -> & Hu & Hb).
    apply lang_cls_inv in Hu as (c & -> & Hc).
    apply Ascii.eqb_eq in Hc as <-.
    apply lang_plus_cls in Ha, Hb. exists a, b. do 2 (split; [done|]).
    apply lang_dollar in Hn as [->| ->].
    + left. by rewrite str_app_nil_r.
    + right. by rewrite !str_app_assoc.
  - intros (a & b & Ha & Hb & Hs).
    assert (Hbody : lang (Cat (Plus (Cls alnum))
                           (Cat (Cls (Ascii.eqb "_")) (Plus (Cls alnum))))
                      (a +:+ String "_" "" +:+ b)).
    { constructor; [by apply lang_plus_cls|].
      constructor; [by constructor|by apply lang_plus_cls]. }
    destruct Hs as [->| ->].
    + rewrite <- (str_app_nil_r (a +:+ "_" +:+ b)).
      constructor; [done|]. apply lang_dollar. by left.
    + replace (a +:+ "_" +:+ b +:+ String newline "")
        with ((a +:+ String "_" "" +:+ b) +:+ String newline "")
        by (by rewrite !str_app_assoc).
      constructor; [done|]. apply lang_dollar. by right.
Qed.

(** X1: what the server accepts: exactly the identifiers with two segments
    and one underscore, with or without a final newline. *)
Theorem accepted_identifiers (s : string) :
  is_valid_tracking_id s = true <->
  exists a b, segment a /\ segment b /\
    (s = a +:+ "_" +:+ b \/ s = a +:+ "_" +:+ b +:+ String newline "").
Proof. apply is_valid_tracking_id_iff. Qed.

(** An accepted identifier holds exactly one underscore. *)
Lemma valid_tracking_id_one_underscore s :
  is_valid_tracking_id s = true -> PyStr.count "_" s = 1%nat.
Proof.
  intros (a & b & [_ Ha] & [_ Hb] & Hs)%is_valid_tracking_id_iff.
  assert (Hu : alnum "_" = false) by reflexivity.
  pose proof (str_count_all_false _ _ _ Hu Ha) as Ca.
  pose proof (str_count_all_false _ _ _ Hu Hb) as Cb.
  destruct Hs as [->| ->]; rewrite !str_count_app, Ca, Cb; reflexivity.
Qed.

Lemma generated_two_underscores c r u :
  (2 <= PyStr.count "_" (_generate_tracking_id c r u))%nat.
Proof.
  unfold _generate_tracking_id. rewrite !str_count_app. simpl. lia.
Qed.

Lemma generated_has_three_segments c r u :
  segment c -> segment r -> segment (PyStr.slice_to 8 u) ->
  three_segments (_generate_tracking_id c r u).
Proof. intros Hc Hr Hu. by exists c, r, (PyStr.slice_to 8 u). Qed.

(** The server accepts no identifier of three segments. *)
Lemma three_segments_is_rejected s :
  three_segments s -> is_valid_tracking_id s = false.
Proof.
  intros (a & b & n & _ & _ & _ & ->).
  destruct (is_valid_tracking_id _) eqn:Hv; [|done].
  apply valid_tracking_id_one_underscore in Hv.
  rewrite !str_count_app in Hv. simpl in Hv. lia.
Qed.

(** C1: the server's pattern has two segments and one underscore, while
    [_generate_tracking_id] writes three segments and two underscores: no
    identifier the campaign script generates passes [is_valid_tracking_id],
    whatever the campaign, the lead and the UUID are. *)
Theorem generated_id_is_rejected (campaign lead_id uuid_hex : string) :
  is_valid_tracking_id (_generate_tracking_id campaign lead_id uuid_hex) = false.
Proof.
  destruct (is_valid_tracking_id _) eqn:Hv; [|done].
  apply valid_tracking_id_one_underscore in Hv.
  pose proof (generated_two_underscores campaign lead_id uuid_hex). lia.
Qed.

Example generated_id_rejected_20250101 :
  _generate_tracking_id "20250101000000" "7" "1a2b3c4d5e6f47a8b9c0d1e2f3a4b5c6"
    = "20250101000000_7_1a2b3c4d"
  /\ is_valid_tracking_id "20250101000000_7_1a2b3c4d" = false
  /\ is_valid_tracking_id "20250101000000_7" = true.
Proof. by vm_compute. Qed.

(** C3: the campaign segment is recovered from a generated identifier: when
    [campaign] holds no underscore, [tracking_id.split('_')[0]] of the
    generated identifier is [campaign] (whatever the lead identifier is). *)
Theorem campaign_id_round_trip (campaign lead_id uuid_hex : string) :
  PyStr.count "_" campaign = 0%nat ->
  head (PyStr.split "_" (_generate_tracking_id campaign lead_id uuid_hex))
    = Some campaign.
Proof.
  intros Hc. unfold _generate_tracking_id.
  by apply split_head_app.
Qed.

Lemma campaign_id_round_trip_witness :
  PyStr.count "_" "20250101000000" = 0%nat /\
  head (PyStr.split "_" (_generate_tracking_id "20250101000000" "7" "1a2b3c4d5e6f"))
    = Some "20250101000000".
Proof.
  split; [reflexivity|].
  apply (campaign_id_round_trip "20250101000000" "7" "1a2b3c4d5e6f"). reflexivity.
Defined.

End Identifiers.

(** ** The endpoints: rejection, redirection, storage failures *)

Section Endpoints.

Import tracking_server.

Lemma split_head_is_Some s : is_Some (head (PyStr.split "_" s)).
Proof.
  pose proof (split_nonempty "_" s) as H.
  destruct (PyStr.split "_" s); [done|]. by eexists.
Qed.

(** [update_tracking_data] leaves the pixel alone. *)
Lemma update_tracking_data_pixel now tid action ip ua url st :
  pixel_present (update_tracking_data now tid action ip ua url st) = pixel_present st.
Proof.
  unfold update_tracking_data.
  destruct (head _); [|done].
  destruct (locked_section _ _ _ _ _ _ _ _) as [fs [[]|e]]; done.
Qed.

(** C6: a pixel request whose identifier fails [is_valid_tracking_id] is
    answered with status 400; no file of the server is created or changed
    and the pixel is untouched: the only trace is one warning in the log. *)
Theorem invalid_open_is_rejected (now : string) (req : request) (tid : string) (st : server) :
  is_valid_tracking_id tid = false ->
  status_code (track_open now req tid st).1 = 400
  /\ files (track_open now req tid st).2 = files st
  /\ pixel_present (track_open now req tid st).2 = pixel_present st
  /\ log (track_open now req tid st).2 = log st ++ [WarnInvalidTrackingId tid].
Proof.
  intros Hv. unfold track_open. rewrite Hv. simpl. done.
Qed.

Lemma invalid_open_is_rejected_witness :
  let st := Server {[ data_file "a" := FJson ∅ ]} true [] in
  let req := Request (Some "10.0.0.1") None None in
  is_valid_tracking_id "../etc/passwd" = false
  /\ status_code (track_open "t0" req "../etc/passwd" st).1 = 400
  /\ files (track_open "t0" req "../etc/passwd" st).2 = files st.
Proof.
  intros st req.
  assert (Hv : is_valid_tracking_id "../etc/passwd" = false) by reflexivity.
  split; [exact Hv|].
  pose proof (invalid_open_is_rejected "t0" req "../etc/passwd" st Hv) as (H1 & H2 & _).
  split; [exact H1|exact H2].
Defined.

(** The click endpoint rejects the same identifiers in the same way. *)
Lemma invalid_click_is_rejected urlparse redirect now req tid st :
  is_valid_tracking_id tid = false ->
  track_click urlparse redirect now req tid st
    = (Abort 400, logged (WarnInvalidTrackingId tid) st).
Proof. intros Hv. unfold track_click. by rewrite Hv. Qed.

Lemma resolve_url_valid urlparse req :
  is_valid_url urlparse DEFAULT_REDIRECT_URL = true ->
  is_valid_url urlparse (resolve_url urlparse req) = true.
Proof.
  intros Hd. unfold resolve_url.
  destruct (is_valid_url urlparse (default _ _)) eqn:Hu; simpl; done.
Qed.


Lemma files_update now tid action ip ua url st :
  files (update_tracking_data now tid action ip ua url st)
    = updated_files now tid action ip ua url (files st).
Proof.
  unfold update_tracking_data, updated_files.
  destruct (head _); [|done].
  by destruct (locked_section _ _ _ _ _ _ _ _) as [fs [[]|e]].
Qed.




(** When the campaign file cannot be read as a JSON object, the locked
    section raises before it writes. *)
Lemma locked_section_unreadable now tid action ip ua url path fs f :
  fs !! path = Some f ->
  f = FGarbage \/ (exists sized, f = FNonObject sized) ->
  exists e, locked_section now tid action ip ua url path fs = (fs, Raise e)
            /\ e = match f with FGarbage => JSONDecodeError | _ => TypeError end.
Proof.
  intros Hf Hbad. unfold locked_section, ensure_file, json_load.
  rewrite Hf. simpl. rewrite Hf.
  destruct Hbad as [->|[sized ->]]; simpl; eauto.
Qed.

Lemma update_unreadable now tid action ip ua url st campaign f :
  head (PyStr.split "_" tid) = Some campaign ->
  files st !! data_file campaign = Some f ->
  f = FGarbage \/ (exists sized, f = FNonObject sized) ->
  update_tracking_data now tid action ip ua url st
    = logged (ErrorUpdating tid (load_error f)) st.
Proof.
  intros Hc Hf Hbad. unfold update_tracking_data. rewrite Hc.
  destruct (locked_section_unreadable now tid action ip ua url _ _ _ Hf Hbad)
    as (e & -> & ->).
  by destruct st.
Qed.

(** C8, as the code has it: when the campaign file of a valid identifier is
    not parseable, [update_tracking_data] catches the [JSONDecodeError] and
    logs it; the file is left as it was and the event is not recorded; the
    request is answered as if nothing had happened: the pixel endpoint sends
    the pixel (500 only when the pixel file itself is missing), and the
    click endpoint answers as it does on a server that has no file at all,
    with the redirect whenever [flask.redirect] gives one for the target. *)
Theorem corrupt_store_is_logged_not_reported (urlparse : string -> option url_parts)
    (redirect : string -> option response)
    (now : string) (req : request) (tid campaign : string) (st : server) :
  is_valid_tracking_id tid = true ->
  head (PyStr.split "_" tid) = Some campaign ->
  files st !! data_file campaign = Some FGarbage ->
  ((track_open now req tid st).1
     = (if pixel_present st then SendFile PIXEL_FILE "image/png" else Abort 500)
   /\ files (track_open now req tid st).2 = files st
   /\ ErrorUpdating tid JSONDecodeError ∈ log (track_open now req tid st).2)
  /\ ((track_click urlparse redirect now req tid st).1
        = (track_click urlparse redirect now req tid (with_files ∅ st)).1
      /\ (forall r, redirect (resolve_url urlparse req) = Some r ->
            (track_click urlparse redirect now req tid st).1 = r)
      /\ files (track_click urlparse redirect now req tid st).2 = files st
      /\ ErrorUpdating tid JSONDecodeError ∈ log (track_click urlparse redirect now req tid st).2).
Proof.
  intros Hv Hc Hf. split.
  - unfold track_open. rewrite Hv. simpl.
    erewrite update_unreadable; [|exact Hc|exact Hf|by left].
    simpl. destruct (pixel_present st); simpl; (split; [done|split; [done|]]);
      set_solver.
  - unfold track_click. rewrite Hv. simpl.
    erewrite update_unreadable; [|exact Hc| |by left].
    2:{ by destruct (is_valid_url _ _). }
    split_and!.
    + by destruct (redirect _).
    + intros r Hr. by rewrite Hr.
    + destruct (redirect _); simpl; by destruct (is_valid_url _ _).
    + destruct (redirect _); simpl; set_solver.
Qed.

Lemma corrupt_store_is_logged_not_reported_witness :
  let st := Server {[ data_file "a" := FGarbage ]} true [] in
  let req := Request (Some "10.0.0.1") (Some "Mail") None in
  (track_open "t0" req "a_b" st).1 = SendFile PIXEL_FILE "image/png"
  /\ files (track_open "t0" req "a_b" st).2 = files st.
Proof.
  intros st req.
  assert (Hv : is_valid_tracking_id "a_b" = true) by reflexivity.
  assert (Hc : head (PyStr.split "_" "a_b") = Some "a") by reflexivity.
  assert (Hf : files st !! data_file "a" = Some FGarbage) by apply lookup_singleton_eq.
  pose proof (corrupt_store_is_logged_not_reported urllib_parse.urlparse
                werkzeug_utils.redirect "t0" req "a_b" "a" st Hv Hc Hf)
    as [(H1 & H2 & _) _].
  split; [exact H1|exact H2].
Defined.

(** C8, as stated, fails: with an unparseable campaign file the pixel
    request is answered with the pixel and status 200, not with a server
    error; the event is dropped. *)
Lemma corrupt_store_open_is_not_a_server_error :
  let st := Server {[ data_file "a" := FGarbage ]} true [] in
  let req := Request (Some "10.0.0.1") (Some "Mail") None in
  (track_open "t0" req "a_b" st).1 = SendFile PIXEL_FILE "image/png"
  /\ status_code (track_open "t0" req "a_b" st).1 = 200
  /\ status_code (track_open "t0" req "a_b" st).1 <> 500
  /\ files (track_open "t0" req "a_b" st).2 !! data_file "a" = Some FGarbage.
Proof.
  intros st req.
  assert (Hu : update_tracking_data "t0" "a_b" "opened" (Some "10.0.0.1") (Some "Mail") None
                 (logged (InfoEmailOpened "a_b" (Some "10.0.0.1") "Mail") st)
               = logged (ErrorUpdating "a_b" JSONDecodeError)
                   (logged (InfoEmailOpened "a_b" (Some "10.0.0.1") "Mail") st)).
  { apply (update_unreadable _ _ _ _ _ _ _ "a" FGarbage);
      [reflexivity|apply lookup_singleton_eq|by left]. }
  unfold track_open. change (is_valid_tracking_id "a_b") with true. simpl.
  unfold req. simpl. rewrite Hu. simpl.
  split_and!; done.
Qed.

End Endpoints.

(** ** Recording events: flags and event lists *)

Section Recording.

Import tracking_server.

Lemma is_flag_ne key : is_flag key -> key <> "events" /\ key <> "last_activity".
Proof. by intros [->| ->]. Qed.

Lemma touch_ok now action ev e l :
  e !! "events" = Some (VEvents l) ->
  touch now action ev (RDict e)
    = Ok (RDict (<["last_activity" := VStr now]>
                   (<[action := VBool true]> (<["events" := VEvents (l ++ [ev])]> e)))).
Proof. intros He. unfold touch. by rewrite He. Qed.

(** What a successful [touch] leaves in the entry. *)
Lemma touched_entry now action ev e l :
  is_flag action ->
  let e' := <["last_activity" := VStr now]>
              (<[action := VBool true]> (<["events" := VEvents (l ++ [ev])]> e)) in
  flag action e' = true
  /\ events_of e' = Some (l ++ [ev])
  /\ (forall key, is_flag key -> flag key e = true -> flag key e' = true).
Proof.
  intros Ha e'. pose proof (is_flag_ne _ Ha) as [Hne1 Hne2].
  assert (Hact : e' !! action = Some (VBool true)).
  { unfold e'. rewrite lookup_insert_ne by done. by rewrite lookup_insert_eq. }
  split; [|split].
  - unfold flag. by rewrite Hact.
  - unfold events_of, e'.
    rewrite lookup_insert_ne by done. rewrite lookup_insert_ne by done.
    by rewrite lookup_insert_eq.
  - intros key Hk Hset. destruct (decide (key = action)) as [->|Hka].
    + unfold flag. by rewrite Hact.
    + pose proof (is_flag_ne _ Hk) as [Hk1 Hk2].
      unfold flag, e'. by rewrite !lookup_insert_ne by done.
Qed.

Lemma record_event_fresh now tid action ip ua url d :
  d !! tid = None ->
  record_event now tid action ip ua url d
    = Ok (<[tid := RDict (<["last_activity" := VStr now]>
                            (<[action := VBool true]>
                               (<["events" := VEvents ([] ++ [event_data now action ip ua url])]>
                                  (shell_entry now))))]>
            (<[tid := RDict (shell_entry now)]> d)).
Proof.
  intros Hd. unfold record_event, ensure_entry. rewrite Hd.
  rewrite lookup_insert_eq.
  by rewrite (touch_ok _ _ _ _ []) by apply lookup_insert_eq.
Qed.

Lemma record_event_known now tid action ip ua url d e l :
  d !! tid = Some (RDict e) ->
  e !! "events" = Some (VEvents l) ->
  record_event now tid action ip ua url d
    = Ok (<[tid := RDict (<["last_activity" := VStr now]>
                            (<[action := VBool true]>
                               (<["events" := VEvents (l ++ [event_data now action ip ua url])]> e)))]> d).
Proof.
  intros Hd He. unfold record_event, ensure_entry. rewrite Hd.
  cbv beta iota zeta. rewrite Hd.
  by rewrite (touch_ok _ _ _ _ l) by done.
Qed.

(** Whatever the store holds, a successful [record_event] changes only the
    record of [tid], and that record is an entry. *)
Lemma record_event_inv now tid action ip ua url d d' :
  record_event now tid action ip ua url d = Ok d' ->
  exists e l,
    ensure_entry now tid d !! tid = Some (RDict e)
    /\ e !! "events" = Some (VEvents l)
    /\ d' = <[tid := RDict (<["last_activity" := VStr now]>
                             (<[action := VBool true]>
                                (<["events" := VEvents (l ++ [event_data now action ip ua url])]> e)))]>
              (ensure_entry now tid d).
Proof.
  unfold record_event.
  destruct (ensure_entry now tid d !! tid) as [[e|v]|] eqn:Hr; simpl; try done.
  destruct (e !! "events") as [[| | | |l]|] eqn:He; simpl; try done.
  intros [= <-]. by exists e, l.
Qed.

Lemma files_track_open now req tid st :
  files (track_open now req tid st).2
    = if is_valid_tracking_id tid
      then updated_files now tid "opened" (remote_addr req)
             (Some (default "Unknown" (header_user_agent req))) None (files st)
      else files st.
Proof.
  unfold track_open. destruct (is_valid_tracking_id tid); simpl; [|done].
  rewrite update_tracking_data_pixel. simpl.
  destruct (pixel_present st); simpl; by rewrite files_update.
Qed.

Lemma files_track_click urlparse redirect now req tid st :
  files (track_click urlparse redirect now req tid st).2
    = if is_valid_tracking_id tid
      then updated_files now tid "clicked" (remote_addr req)
             (Some (default "Unknown" (header_user_agent req)))
             (Some (resolve_url urlparse req)) (files st)
      else files st.
Proof.
  unfold track_click. destruct (is_valid_tracking_id tid); simpl; [|done].
  destruct (redirect _); simpl; rewrite files_update; by destruct (negb _).
Qed.

Lemma ensure_file_lookup path fs :
  ensure_file path fs !! path = Some (default (FJson ∅) (fs !! path)).
Proof.
  unfold ensure_file. destruct (fs !! path) eqn:H; simpl; [done|].
  apply lookup_insert_eq.
Qed.

Lemma ensure_file_lookup_ne path fs p :
  p <> path -> ensure_file path fs !! p = fs !! p.
Proof.
  intros Hp. unfold ensure_file. destruct (fs !! path); [done|].
  by rewrite lookup_insert_ne.
Qed.

Lemma ensure_entry_lookup_ne now tid d t :
  t <> tid -> ensure_entry now tid d !! t = d !! t.
Proof.
  intros Ht. unfold ensure_entry. destruct (d !! tid); [done|].
  by rewrite lookup_insert_ne.
Qed.

(** The two ways out of the locked section. *)
Lemma locked_section_cases now tid action ip ua url path fs :
  let fs1 := ensure_file path fs in
  (exists e, locked_section now tid action ip ua url path fs = (fs1, Raise e))
  \/ (exists d d',
        fs1 !! path = Some (FJson d)
        /\ record_event now tid action ip ua url d = Ok d'
        /\ locked_section now tid action ip ua url path fs
             = (<[path := FJson d']> fs1, Ok tt)).
Proof.
  intros fs1. unfold locked_section, json_load. fold fs1.
  destruct (fs1 !! path) as [[d| |]|] eqn:Hl; simpl; eauto.
  destruct (record_event now tid action ip ua url d) as [d'|e] eqn:Hr; eauto.
  right. exists d, d'. by rewrite Hr.
Qed.

(** On a recordable store an update records the event: the entry exists
    afterwards, its flag is set, and its events are the former ones followed
    by the new one. *)
Lemma updated_files_recordable now tid action ip ua url fs campaign :
  is_flag action ->
  head (PyStr.split "_" tid) = Some campaign ->
  recordable fs campaign tid ->
  let fs' := updated_files now tid action ip ua url fs in
  recordable fs' campaign tid
  /\ exists e',
       entry_of fs' campaign tid = Some e'
       /\ flag action e' = true
       /\ events_of e' = Some (recorded fs campaign tid ++ [event_data now action ip ua url]).
Proof.
  intros Ha Hc Hrec fs'. unfold fs', updated_files. rewrite Hc.
  unfold recordable, recorded, entry_of in *.
  unfold locked_section, json_load. rewrite ensure_file_lookup.
  destruct (fs !! data_file campaign) as [[d| |]|] eqn:Hf; simpl in *; try done.
  - destruct (d !! tid) as [[e|v]|] eqn:Hd; try done.
    + destruct Hrec as [l Hl]. unfold events_of in Hl.
      destruct (e !! "events") as [[| | | |l0]|] eqn:He; try done.
      injection Hl as ->.
      rewrite (record_event_known _ _ _ _ _ _ _ e l) by done.
      destruct (touched_entry now action (event_data now action ip ua url) e l Ha)
        as (H1 & H2 & _).
      cbn [bind fst]. unfold json_dump. rewrite !lookup_insert_eq.
      split; [by rewrite H2|]. eexists. split; [done|].
      split; [done|]. rewrite H2. cbn. unfold events_of. by rewrite He.
    + rewrite record_event_fresh by done.
      destruct (touched_entry now action (event_data now action ip ua url)
                  (shell_entry now) [] Ha) as (H1 & H2 & _).
      cbn [bind fst]. unfold json_dump. rewrite !lookup_insert_eq.
      split; [by rewrite H2|]. eexists. split; [done|]. by split.
  - rewrite record_event_fresh by done.
    destruct (touched_entry now action (event_data now action ip ua url)
                (shell_entry now) [] Ha) as (H1 & H2 & _).
    cbn [bind fst]. unfold json_dump. rewrite !lookup_insert_eq.
    split; [by rewrite H2|]. eexists. split; [done|]. by split.
Qed.

(** No update, whether it succeeds or fails, and whichever identifier it is
    for, resets a flag that is set. *)
Lemma updated_files_keeps_flags now tid action ip ua url fs campaign t key e :
  is_flag action -> is_flag key ->
  entry_of fs campaign t = Some e ->
  flag key e = true ->
  exists e', entry_of (updated_files now tid action ip ua url fs) campaign t = Some e'
             /\ flag key e' = true.
Proof.
  intros Ha Hk He Hset. unfold updated_files.
  destruct (head (PyStr.split "_" tid)) as [c|]; [|eauto].
  assert (Hkeep : forall p, p <> data_file c ->
            ensure_file (data_file c) fs !! p = fs !! p)
    by (intros; by apply ensure_file_lookup_ne).
  destruct (decide (data_file campaign = data_file c)) as [Hp|Hp].
  - unfold entry_of in He |- *. rewrite Hp in *.
    destruct (fs !! data_file c) as [[d| |]|] eqn:Hf; try done.
    assert (Hfs1 : ensure_file (data_file c) fs = fs)
      by (unfold ensure_file; by rewrite Hf).
    destruct (locked_section_cases now tid action ip ua url (data_file c) fs)
      as [(x & ->)|(d0 & d' & Hl & Hr & ->)]; simpl; rewrite Hfs1 in *.
    + rewrite Hf. eauto.
    + rewrite Hf in Hl. injection Hl as <-.
      rewrite lookup_insert_eq.
      apply record_event_inv in Hr as (e0 & l & He0 & Hl0 & ->).
      destruct (decide (t = tid)) as [->|Ht].
      * rewrite lookup_insert_eq.
        destruct (d !! tid) as [[e1|v]|] eqn:Hd; try done.
        injection He as ->.
        unfold ensure_entry in He0. rewrite Hd in He0. rewrite Hd in He0.
        injection He0 as <-.
        eexists. split; [done|].
        by apply (touched_entry now action _ e l Ha).
      * rewrite lookup_insert_ne by done.
        rewrite ensure_entry_lookup_ne by done.
        destruct (d !! t) as [[e1|v]|]; try done. eauto.
  - assert (Hsame : (locked_section now tid action ip ua url (data_file c) fs).1
                      !! data_file campaign = fs !! data_file campaign).
    { destruct (locked_section_cases now tid action ip ua url (data_file c) fs)
        as [(x & ->)|(d0 & d' & _ & _ & ->)]; simpl.
      - by apply Hkeep.
      - rewrite lookup_insert_ne by done. by apply Hkeep. }
    unfold entry_of in *. rewrite Hsame. eauto.
Qed.

(** X2: on a recordable store, every pixel request for a valid identifier
    adds exactly one event, and from the first request on the flag is set. *)
Lemma repeated_opens_recordable req tid campaign :
  is_valid_tracking_id tid = true ->
  head (PyStr.split "_" tid) = Some campaign ->
  forall times st,
    recordable (files st) campaign tid ->
    exists added,
      recorded (files (opens times req tid st)) campaign tid
        = recorded (files st) campaign tid ++ added
      /\ length added = length times
      /\ (times <> [] ->
          exists e, entry_of (files (opens times req tid st)) campaign tid = Some e
                    /\ flag "opened" e = true).
Proof.
  intros Hv Hc. induction times as [|now rest IH]; intros st Hrec.
  - exists []. simpl. by rewrite app_nil_r.
  - simpl.
    pose proof (files_track_open now req tid st) as Hfs. rewrite Hv in Hfs.
    destruct (updated_files_recordable now tid "opened" (remote_addr req)
                (Some (default "Unknown" (header_user_agent req))) None
                (files st) campaign (or_introl eq_refl) Hc Hrec)
      as (Hrec1 & e1 & He1 & Hflag1 & Hev1).
    rewrite <- Hfs in Hrec1, He1.
    assert (Hrecorded1 : recorded (files (track_open now req tid st).2) campaign tid
              = recorded (files st) campaign tid
                ++ [event_data now "opened" (remote_addr req)
                      (Some (default "Unknown" (header_user_agent req))) None]).
    { unfold recorded at 1. rewrite He1. simpl. by rewrite Hev1. }
    destruct (IH _ Hrec1) as (added & Hadd & Hlen & Hflag).
    eexists (_ :: added). rewrite Hadd, Hrecorded1, <- app_assoc. simpl.
    split; [done|]. split; [by rewrite Hlen|]. intros _.
    destruct rest as [|now' rest']; [simpl; eauto|].
    by apply Hflag.
Qed.

Lemma repeated_opens_recordable_witness :
  let st := Server ∅ true [] in
  let req := Request (Some "10.0.0.1") (Some "Mail") None in
  is_valid_tracking_id "a_b" = true
  /\ head (PyStr.split "_" "a_b") = Some "a"
  /\ recordable (files st) "a" "a_b"
  /\ exists added,
       recorded (files (opens ["t1"; "t2"; "t3"] req "a_b" st)) "a" "a_b"
         = recorded (files st) "a" "a_b" ++ added
       /\ length added = 3%nat.
Proof.
  intros st req.
  assert (Hv : is_valid_tracking_id "a_b" = true) by reflexivity.
  assert (Hc : head (PyStr.split "_" "a_b") = Some "a") by reflexivity.
  assert (Hr : recordable (files st) "a" "a_b")
    by (unfold recordable; simpl; by rewrite lookup_empty).
  split; [exact Hv|]. split; [exact Hc|]. split; [exact Hr|].
  destruct (repeated_opens_recordable req "a_b" "a" Hv Hc ["t1"; "t2"; "t3"] st Hr)
    as (added & Hadd & Hlen & _).
  exists added. split; [exact Hadd|exact Hlen].
Defined.

(** X3: neither endpoint ever resets a flag that is set. *)
Lemma track_open_keeps_flags now req tid st campaign t key e :
  is_flag key ->
  entry_of (files st) campaign t = Some e -> flag key e = true ->
  exists e', entry_of (files (track_open now req tid st).2) campaign t = Some e'
             /\ flag key e' = true.
Proof.
  intros Hk He Hset. rewrite files_track_open.
  destruct (is_valid_tracking_id tid); [|eauto].
  eapply updated_files_keeps_flags; eauto. by left.
Qed.

Lemma track_open_keeps_flags_witness :
  let e := <["clicked" := VBool true]> (shell_entry "t0") in
  let st := Server {[ data_file "a" := FJson {[ "a_b" := RDict e ]} ]} true [] in
  let req := Request None None None in
  is_flag "clicked"
  /\ entry_of (files st) "a" "a_b" = Some e
  /\ flag "clicked" e = true
  /\ exists e', entry_of (files (track_open "t1" req "a_b" st).2) "a" "a_b" = Some e'
                /\ flag "clicked" e' = true.
Proof.
  intros e st req.
  assert (Hk : is_flag "clicked") by (by right).
  assert (He : entry_of (files st) "a" "a_b" = Some e).
  { unfold entry_of, st. simpl. by rewrite !lookup_singleton_eq. }
  assert (Hset : flag "clicked" e = true).
  { unfold flag, e. by rewrite lookup_insert_eq. }
  split; [exact Hk|]. split; [exact He|]. split; [exact Hset|].
  exact (track_open_keeps_flags "t1" req "a_b" st "a" "a_b" "clicked" e Hk He Hset).
Defined.

Lemma track_click_keeps_flags urlparse redirect now req tid st campaign t key e :
  is_flag key ->
  entry_of (files st) campaign t = Some e -> flag key e = true ->
  exists e', entry_of (files (track_click urlparse redirect now req tid st).2) campaign t = Some e'
             /\ flag key e' = true.
Proof.
  intros Hk He Hset. rewrite files_track_click.
  destruct (is_valid_tracking_id tid); [|eauto].
  eapply updated_files_keeps_flags; eauto. by right.
Qed.

(** C2, on the code: an entry seeded by the campaign script has no
    ["events"] list, so line 223 raises [KeyError]; the exception is caught
    and logged and the file is not written.  After the pixel request the
    entry is unchanged: [opened] is still false and no event was recorded,
    however often the request is repeated. *)
Theorem seeded_entry_open_is_dropped :
  let tid := "20250101000000_7" in
  let st := Server {[ data_file "20250101000000" := FJson {[ tid := RDict seed_entry ]} ]}
              true [] in
  let req := Request (Some "10.0.0.1") (Some "Mail") None in
  is_valid_tracking_id tid = true
  /\ (track_open "t1" req tid st).1 = SendFile PIXEL_FILE "image/png"
  /\ files (track_open "t1" req tid st).2 = files st
  /\ ErrorUpdating tid (KeyError "events") ∈ log (track_open "t1" req tid st).2
  /\ files (opens ["t1"; "t2"; "t3"] req tid st) = files st
  /\ (entry_of (files (opens ["t1"; "t2"; "t3"] req tid st)) "20250101000000" tid
       ≫= (.!! "opened")) = Some (VBool false)
  /\ recorded (files (opens ["t1"; "t2"; "t3"] req tid st)) "20250101000000" tid = [].
Proof.
  intros tid st req.
  assert (Hv : is_valid_tracking_id tid = true) by reflexivity.
  assert (Hup : forall now l,
    update_tracking_data now tid "opened" (Some "10.0.0.1") (Some "Mail") None
      (Server (files st) true l)
    = Server (files st) true (l ++ [ErrorUpdating tid (KeyError "events")])).
  { intros now l. unfold update_tracking_data.
    change (head (PyStr.split "_" tid)) with (Some "20250101000000").
    unfold locked_section, ensure_file, json_load, st. cbn [files].
    rewrite !lookup_singleton_eq. cbn [bind].
    unfold record_event, ensure_entry. rewrite !lookup_singleton_eq.
    done. }
  assert (Hopen : forall now l,
    track_open now req tid (Server (files st) true l)
    = (SendFile PIXEL_FILE "image/png",
       Server (files st) true
         ((l ++ [InfoEmailOpened tid (Some "10.0.0.1") "Mail"])
            ++ [ErrorUpdating tid (KeyError "events")]))).
  { intros now l. unfold track_open. rewrite Hv.
    cbn [negb remote_addr header_user_agent req default].
    unfold logged. cbn [files pixel_present log]. by rewrite Hup. }
  split; [done|]. change st with (Server (files st) true []).
  cbn [opens]. do 3 (rewrite Hopen; cbn [fst snd files log]).
  assert (Hentry : entry_of (files st) "20250101000000" tid = Some seed_entry).
  { unfold entry_of, st. cbn [files]. by rewrite !lookup_singleton_eq. }
  unfold recorded. rewrite Hentry.
  split_and!; try done. set_solver.
Qed.

(** The same with the key the campaign script itself generates: also when
    [update_tracking_data] is reached directly, the event is dropped. *)
Example seeded_entry_update_is_dropped :
  let tid := "20250101000000_7_1a2b3c4d" in
  let st := Server {[ data_file "20250101000000" := FJson {[ tid := RDict seed_entry ]} ]}
              true [] in
  update_tracking_data "t1" tid "opened" (Some "10.0.0.1") (Some "Mail") None st
    = Server (files st) true [ErrorUpdating tid (KeyError "events")].
Proof.
  intros tid st. unfold update_tracking_data.
  change (head (PyStr.split "_" tid)) with (Some "20250101000000").
  unfold locked_section, ensure_file, json_load, st. cbn [files].
  rewrite !lookup_singleton_eq. cbn [bind].
  unfold record_event, ensure_entry. rewrite !lookup_singleton_eq.
  done.
Qed.

End Recording.

(** ** Statistics *)

Section Statistics.

Import tracking_server.

Lemma get_flag_entry key r :
  is_entry r -> get_flag key r = Ok (flag_true key r).
Proof.
  destruct r as [e|v]; [|done]. intros _. simpl.
  by destruct (e !! key).
Qed.

Lemma count_flag_entries key (values : list record) :
  Forall is_entry values ->
  count_flag key values
    = Ok (Z.of_nat (length (filter (fun r => flag_true key r = true) values))).
Proof.
  induction 1 as [|r values Hr _ IH]; [done|].
  simpl. rewrite (get_flag_entry _ _ Hr), IH. simpl.
  rewrite filter_cons.
  destruct (decide (flag_true key r = true)) as [Ht|Hf].
  - rewrite Ht. simpl. f_equal. lia.
  - destruct (flag_true key r); [done|]. simpl. f_equal.
Qed.

Lemma length_filter_values (P : record -> Prop) `{!forall r, Decision (P r)}
    (d : gmap string record) :
  length (filter P (map_to_list d).*2) = size (filter (fun kv => P kv.2) d).
Proof.
  induction d as [|i x m Hi IH] using map_ind.
  - by rewrite map_to_list_empty, map_filter_empty, map_size_empty.
  - rewrite map_to_list_insert by done. rewrite fmap_cons, filter_cons. simpl.
    rewrite map_filter_insert. simpl.
    destruct (decide (P x)) as [Hx|Hx].
    + rewrite map_size_insert_None
        by (apply map_lookup_filter_None_2; by left).
      simpl. by rewrite IH.
    + by rewrite delete_id.
Qed.

Lemma values_are_entries (d : gmap string record) :
  map_Forall (fun _ r => is_entry r) d -> Forall is_entry (map_to_list d).*2.
Proof.
  intros Hd. apply Forall_fmap, Forall_forall. intros [k r] Hin.
  apply elem_of_map_to_list in Hin. by apply (Hd k r).
Qed.

Lemma count_flag_store key (d : gmap string record) :
  map_Forall (fun _ r => is_entry r) d ->
  count_flag key (map_to_list d).*2 = Ok (entries_with key d).
Proof.
  intros Hd. rewrite count_flag_entries by by apply values_are_entries.
  unfold entries_with. by rewrite length_filter_values.
Qed.

Lemma calculate_statistics_entries campaign (d : gmap string record) :
  map_Forall (fun _ r => is_entry r) d ->
  calculate_statistics campaign d
    = Ok (Stats campaign (Z.of_nat (size d))
            (entries_with "opened" d) (entries_with "clicked" d)
            (rate (entries_with "opened" d) (Z.of_nat (size d)))
            (rate (entries_with "clicked" d) (Z.of_nat (size d)))
            (rate (entries_with "clicked" d) (entries_with "opened" d))).
Proof.
  intros Hd. unfold calculate_statistics.
  by rewrite !count_flag_store by done.
Qed.

Lemma rate_cases part whole :
  0 <= whole ->
  rate part whole
    = if whole =? 0 then PyInt 0 else PyFloat (round2 (percentage part whole)).
Proof.
  intros Hw. unfold rate, percentage.
  destruct (Z.ltb_spec 0 whole), (Z.eqb_spec whole 0); try done; lia.
Qed.

Lemma entries_with_nonneg key d : 0 <= entries_with key d.
Proof. unfold entries_with. lia. Qed.

(** C5, as the code has it: on a store of entries the three counts are the
    number of entries, of entries with [opened] set and of entries with
    [clicked] set; each rate is the percentage rounded to two decimals
    ([round(x, 2)]), and is the integer 0 when its denominator is 0. *)
Theorem stats_counts_and_rounded_rates (campaign : string) (d : gmap string record) :
  map_Forall (fun _ r => is_entry r) d ->
  exists s,
    calculate_statistics campaign d = Ok s
    /\ total_recipients s = Z.of_nat (size d)
    /\ total_opens s = entries_with "opened" d
    /\ total_clicks s = entries_with "clicked" d
    /\ open_rate s =
         (if total_recipients s =? 0 then PyInt 0
          else PyFloat (round2 (percentage (total_opens s) (total_recipients s))))
    /\ click_rate s =
         (if total_recipients s =? 0 then PyInt 0
          else PyFloat (round2 (percentage (total_clicks s) (total_recipients s))))
    /\ click_to_open_rate s =
         (if total_opens s =? 0 then PyInt 0
          else PyFloat (round2 (percentage (total_clicks s) (total_opens s)))).
Proof.
  intros Hd. eexists. split; [by apply calculate_statistics_entries|].
  simpl. split_and!; try done.
  - apply rate_cases. lia.
  - apply rate_cases. lia.
  - apply rate_cases, entries_with_nonneg.
Qed.

Lemma stats_counts_and_rounded_rates_witness :
  map_Forall (fun _ r => is_entry r) one_open_in_three
  /\ exists s, calculate_statistics "a" one_open_in_three = Ok s
               /\ total_recipients s = 3 /\ total_opens s = 1
               /\ open_rate s = PyFloat (round2 (percentage 1 3)).
Proof.
  assert (Hd : map_Forall (fun _ r => is_entry r) one_open_in_three).
  { intros k r. unfold one_open_in_three.
    rewrite !lookup_insert_Some, lookup_singleton_Some.
    intros [[_ <-]|[_ [[_ <-]|[_ [_ <-]]]]]; exact I. }
  split; [exact Hd|].
  destruct (stats_counts_and_rounded_rates "a" one_open_in_three Hd)
    as (s & Hs & Hn & Ho & _ & Hr & _).
  exists s. split; [exact Hs|].
  assert (H3 : total_recipients s = 3) by (rewrite Hn; vm_compute; reflexivity).
  assert (H1 : total_opens s = 1) by (rewrite Ho; vm_compute; reflexivity).
  split; [exact H3|]. split; [exact H1|].
  rewrite Hr, H3, H1. reflexivity.
Defined.

(** C5, as stated, fails: with one open among three recipients the open
    rate is 33.33, which is not [1 / 3 * 100]. *)
Lemma open_rate_is_rounded :
  exists s, calculate_statistics "a" one_open_in_three = Ok s
            /\ total_recipients s = 3 /\ total_opens s = 1
            /\ open_rate s = PyFloat (PrimFloat.div (float_of_Z 3333) (float_of_Z 100))
            /\ open_rate s <> PyFloat (percentage (total_opens s) (total_recipients s)).
Proof.
  eexists. split; [by vm_compute|].
  cbn [total_recipients total_opens open_rate].
  split; [done|]. split; [done|]. split; [by vm_compute|].
  intros Heq.
  apply (f_equal (fun n => match n with
                           | PyFloat x => PrimFloat.ltb x (percentage 1 3)
                           | PyInt _ => false
                           end)) in Heq.
  vm_compute in Heq. discriminate.
Qed.

(** The zero guards: an empty store yields the integer 0 for all rates. *)
Lemma stats_of_empty_store campaign :
  calculate_statistics campaign ∅
    = Ok (Stats campaign 0 0 0 (PyInt 0) (PyInt 0) (PyInt 0)).
Proof. by vm_compute. Qed.

(** C10: [campaign_stats] is total over entries that lack flags.  On a store
    whose records are JSON objects, whichever keys they hold, the endpoint
    answers 200 and changes nothing; every record counts as a recipient, and
    a record counts as opened (clicked) only if the key is present and true,
    so a missing flag reads as false. *)
Theorem stats_total_over_partial_entries (campaign : string) (d : gmap string record)
    (st : server) :
  Regex.py_match_anchored CAMPAIGN_ID_PATTERN campaign = true ->
  files st !! data_file campaign = Some (FJson d) ->
  map_Forall (fun _ r => is_entry r) d ->
  exists s,
    campaign_stats campaign st = (Jsonify (StatsBody s) 200, st)
    /\ total_recipients s = Z.of_nat (size d)
    /\ total_opens s = entries_with "opened" d
    /\ total_clicks s = entries_with "clicked" d
    /\ (forall tid e, d !! tid = Some (RDict e) ->
          (e !! "opened" = None -> flag_true "opened" (RDict e) = false)
          /\ (e !! "clicked" = None -> flag_true "clicked" (RDict e) = false)).
Proof.
  intros Hc Hf Hd. eexists. split.
  - unfold campaign_stats. rewrite Hc, Hf. simpl.
    by rewrite calculate_statistics_entries.
  - simpl. split_and!; try done.
    intros tid e _. simpl. split; by intros ->.
Qed.

Lemma stats_total_over_partial_entries_witness :
  let st := Server {[ data_file "a" := FJson shells ]} true [] in
  exists s, campaign_stats "a" st = (Jsonify (StatsBody s) 200, st)
            /\ total_recipients s = 3 /\ total_opens s = 1 /\ total_clicks s = 0.
Proof.
  intros st.
  assert (Hc : Regex.py_match_anchored CAMPAIGN_ID_PATTERN "a" = true) by reflexivity.
  assert (Hf : files st !! data_file "a" = Some (FJson shells))
    by apply lookup_singleton_eq.
  assert (Hd : map_Forall (fun _ r => is_entry r) shells).
  { intros k r. unfold shells.
    rewrite !lookup_insert_Some, lookup_singleton_Some.
    intros [[_ <-]|[_ [[_ <-]|[_ [_ <-]]]]]; exact I. }
  destruct (stats_total_over_partial_entries "a" shells st Hc Hf Hd)
    as (s & Hs & Hn & Ho & Hk & _).
  exists s. split; [exact Hs|].
  rewrite Hn, Ho, Hk. vm_compute. repeat split; reflexivity.
Defined.

End Statistics.

(** ** The send loop: when the batch break is taken *)

Section BatchBreaks.

Import Email_Campaign_Automation.

Variable cfg : settings.
Variable send_ok : nat -> bool.
Variable entropy : nat -> Z.

Hypothesis batch_nonzero : batch_size cfg <> 0.
Hypothesis delays_ordered : 0 <= delay_min cfg <= delay_max cfg.
Hypothesis delays_bounded : 3 * delay_max cfg <= sleep_max.

Lemma randint_ok a b raw :
  a <= b -> exists v, randint a b raw = Ok v /\ a <= v <= b.
Proof.
  intros Hab. unfold randint.
  destruct (Z.ltb_spec b a); [lia|].
  eexists. split; [done|].
  pose proof (Z.mod_pos_bound raw (b - a + 1)). lia.
Qed.

Lemma sleep_ok secs : 0 <= secs <= sleep_max -> sleep secs = Ok tt.
Proof.
  intros H. unfold sleep.
  destruct (Z.ltb_spec secs (- sleep_max)); [unfold sleep_max in *; lia|].
  destruct (Z.ltb_spec sleep_max secs); [lia|]. simpl.
  destruct (Z.ltb_spec secs 0); [lia|done].
Qed.

Lemma split_whitespace_nil s :
  PyStr.split_whitespace s = [] <-> PyStr.all PyStr.is_space s = true.
Proof.
  induction s as [|c s IH]; [done|]. simpl.
  destruct (PyStr.is_space c); simpl; [done|].
  split; [|done]. destruct s as [|c' s']; [done|].
  destruct (PyStr.is_space c'); [done|].
  by destruct (PyStr.split_whitespace (String c' s')).
Qed.

Lemma recipient_name_ok l :
  usable_contact (Contact_Person l) = true -> exists name, recipient_name l = Ok name.
Proof.
  unfold usable_contact, recipient_name.
  destruct (Contact_Person l) as [| |name]; [eauto|done|].
  destruct (PyStr.truthy name); simpl; [|eauto].
  intros Hname. destruct (PyStr.split_whitespace name) as [|first rest] eqn:Hs; [|eauto].
  apply split_whitespace_nil in Hs. by rewrite Hs in Hname.
Qed.

Lemma company_name_ok i l :
  Company_Name l <> NaN -> exists name, company_name i l = Ok name.
Proof. unfold company_name. destruct (Company_Name l); eauto. done. Qed.

Lemma batch_breaks_app t1 t2 :
  batch_breaks (t1 ++ t2) = batch_breaks t1 ++ batch_breaks t2.
Proof. apply omap_app. Qed.

Lemma pause_between_ok total i s :
  Forall (in_range cfg) (trace s) ->
  exists s', pause_between cfg entropy total i s = Ok s'
             /\ Forall (in_range cfg) (trace s')
             /\ batch_breaks (trace s') = batch_breaks (trace s).
Proof.
  intros Hs. unfold pause_between.
  destruct (Z.of_nat i <? total - 1); [|eauto].
  destruct (randint_ok (delay_min cfg) (delay_max cfg) (entropy (draws s)))
    as (v & -> & Hv); [lia|].
  simpl. rewrite sleep_ok by lia. simpl. eexists. split; [done|].
  simpl. split.
  - apply Forall_app. split; [done|]. apply Forall_singleton. simpl. lia.
  - rewrite batch_breaks_app. simpl. by rewrite app_nil_r.
Qed.

Lemma pause_after_batch_ok total i s :
  Forall (in_range cfg) (trace s) ->
  exists s', pause_after_batch cfg entropy total i s = Ok s'
             /\ Forall (in_range cfg) (trace s')
             /\ batch_breaks (trace s')
                = batch_breaks (trace s)
                  ++ (if ((Z.of_nat i + 1) mod batch_size cfg =? 0)
                         && (Z.of_nat i + 1 <? total)
                      then [i] else []).
Proof.
  intros Hs. unfold pause_after_batch.
  destruct (Z.eqb_spec (batch_size cfg) 0); [done|].
  replace (Z.of_nat i <? total - 1) with (Z.of_nat i + 1 <? total)
    by (destruct (Z.ltb_spec (Z.of_nat i + 1) total),
                 (Z.ltb_spec (Z.of_nat i) (total - 1)); lia).
  destruct (_ && _).
  - destruct (randint_ok (delay_max cfg * 2) (delay_max cfg * 3) (entropy (draws s)))
      as (v & -> & Hv); [lia|].
    simpl. rewrite sleep_ok by lia. simpl. eexists. split; [done|].
    simpl. split.
    + apply Forall_app. split; [done|]. apply Forall_singleton. simpl. lia.
    + by rewrite batch_breaks_app.
  - eexists. split; [done|]. split; [done|]. by rewrite app_nil_r.
Qed.

Lemma iteration_ok total i l s :
  (has_email l = true -> well_formed (send_ok i) l) ->
  Forall (in_range cfg) (trace s) ->
  exists s', iteration cfg send_ok entropy total i l s = Ok s'
             /\ Forall (in_range cfg) (trace s')
             /\ batch_breaks (trace s')
                = batch_breaks (trace s) ++ break_points (batch_size cfg) total i [l].
Proof.
  intros Hwf Hs. unfold iteration. simpl break_points. rewrite app_nil_r.
  destruct (has_email l); simpl.
  - destruct (Hwf eq_refl) as [Hcontact Hcompany].
    destruct (recipient_name_ok l Hcontact) as [name ->]. simpl.
    assert (Hcopy : exists copy,
              (if send_ok i then company_name i l else Ok EmptyString) = Ok copy).
    { destruct (send_ok i); [|eauto]. by apply company_name_ok, Hcompany. }
    destruct Hcopy as [copy ->]. simpl.
    set (s1 := emit _ (tally (send_ok i) s)).
    assert (Hs1 : Forall (in_range cfg) (trace s1)).
    { unfold s1. simpl. apply Forall_app. split; [|by repeat constructor].
      by destruct (send_ok i). }
    assert (Hb1 : batch_breaks (trace s1) = batch_breaks (trace s)).
    { unfold s1. simpl. rewrite batch_breaks_app. simpl. rewrite app_nil_r.
      by destruct (send_ok i). }
    destruct (pause_between_ok total i s1 Hs1) as (s2 & -> & Hs2 & Hb2).
    simpl.
    destruct (pause_after_batch_ok total i s2 Hs2) as (s3 & -> & Hs3 & Hb3).
    eexists. split; [done|]. split; [done|]. by rewrite Hb3, Hb2, Hb1.
  - eexists. split; [done|]. simpl. split.
    + apply Forall_app. split; [done|]. by apply Forall_singleton.
    + rewrite batch_breaks_app. simpl. by rewrite !app_nil_r.
Qed.

Lemma iterate_ok total leads : forall i s,
  (forall j l, leads !! j = Some l -> has_email l = true ->
     well_formed (send_ok (i + j)) l) ->
  Forall (in_range cfg) (trace s) ->
  exists s', iterate cfg send_ok entropy total i leads s = Ok s'
             /\ Forall (in_range cfg) (trace s')
             /\ batch_breaks (trace s')
                = batch_breaks (trace s) ++ break_points (batch_size cfg) total i leads.
Proof.
  induction leads as [|l rest IH]; intros i s Hwf Hs.
  - exists s. simpl. by rewrite app_nil_r.
  - simpl iterate.
    destruct (iteration_ok total i l s) as (s1 & -> & Hs1 & Hb1); [|done|].
    { intros Hl. specialize (Hwf 0%nat l eq_refl Hl). by rewrite Nat.add_0_r in Hwf. }
    simpl bind.
    destruct (IH (S i) s1) as (s2 & -> & Hs2 & Hb2); [|done|].
    { intros j l' Hj Hl'. specialize (Hwf (S j) l' Hj Hl').
      by rewrite Nat.add_succ_r in Hwf. }
    exists s2. split; [done|]. split; [done|].
    rewrite Hb2, Hb1. simpl break_points. rewrite app_nil_r.
    by rewrite <- app_assoc.
Qed.

End BatchBreaks.

Section BatchBreakSchedule.

Import Email_Campaign_Automation.




(** The scenario of the specification: batches of two, five mailed leads, no
    delay.  Whatever the sends return and the random source yields, the
    batch break is taken after the second and the fourth lead only. *)
Lemma five_leads_batches_of_two send_ok entropy l1 l2 l3 l4 l5 :
  (forall l, l ∈ [l1; l2; l3; l4; l5] ->
     has_email l = true /\ forall success, well_formed success l) ->
  exists s, run_campaign (Settings 2 0 0) send_ok entropy [l1; l2; l3; l4; l5] = Ok s
            /\ batch_breaks (trace s) = [1; 3]%nat.
Proof.
  intros Hall. unfold run_campaign.
  destruct (iterate_ok (Settings 2 0 0) send_ok entropy ltac:(done) ltac:(simpl; lia)
              ltac:(done) 5 [l1; l2; l3; l4; l5] 0%nat (Run 0 0 0 []))
    as (s & Hs & _ & Hbreaks); [|constructor|].
  { intros j l Hj _. apply Hall. by eapply list_elem_of_lookup_2. }
  exists s. split; [done|]. rewrite Hbreaks. simpl.
  destruct (Hall l1) as [-> _]; [by repeat constructor|].
  destruct (Hall l2) as [-> _]; [by repeat constructor|].
  destruct (Hall l3) as [-> _]; [by repeat constructor|].
  destruct (Hall l4) as [-> _]; [by repeat constructor|].
  destruct (Hall l5) as [-> _]; [by repeat constructor|]. done.
Qed.



End BatchBreakSchedule.

(** ** Concurrent requests on one campaign file *)

Section Concurrency.

Import tracking_server.

Variable campaign : string.

Local Abbreviation path := (data_file campaign).

Lemma thread_step_transition i w w' :
  (forall j c p, threads w !! j = Some (c, p) -> call_path c = Some path) ->
  thread_step i w = Some w' ->
  exists c p p',
    threads w !! i = Some (c, p)
    /\ threads w' = <[i := (c, p')]> (threads w)
    /\ transition campaign i c p (lock w) (disk w) p' (lock w') (disk w').
Proof.
  intros Hpath. unfold thread_step, goto.
  destruct (threads w !! i) as [[c p]|] eqn:Hi; [|done].
  rewrite (Hpath _ _ _ Hi).
  destruct p as [| | |d|d'| |]; try done.
  - destruct (lock w) eqn:Hl; [done|]. intros [= <-].
    exists c, AtAcquire, AtEnsureFile. simpl.
    split_and!; try done. constructor.
  - intros [= <-]. exists c, AtEnsureFile, AtLoad.
    split_and!; try done. constructor.
  - destruct (json_load path (disk w)) as [d|e] eqn:Hload; intros [= <-].
    + exists c, AtLoad, (AtUpdate d). split_and!; try done. by constructor.
    + exists c, AtLoad, AtRelease. split_and!; try done. by econstructor.
  - destruct (record_event _ _ _ _ _ _ d) as [d'|e] eqn:Hrec; intros [= <-].
    + exists c, (AtUpdate d), (AtDump d'). split_and!; try done. by constructor.
    + exists c, (AtUpdate d), AtRelease. split_and!; try done. by econstructor.
  - intros [= <-]. exists c, (AtDump d'), AtRelease.
    split_and!; try done. constructor.
  - intros [= <-]. exists c, AtRelease, Returned.
    split_and!; try done. constructor.
Qed.

Lemma transition_rank i c p l fs p' l' fs' :
  transition campaign i c p l fs p' l' fs' -> (rank p' < rank p)%nat.
Proof. destruct 1; simpl; lia. Qed.

Lemma sum_list_insert_lt {A} (f : A -> nat) (l : list A) : forall i x y,
  l !! i = Some x -> (f y < f x)%nat ->
  (sum_list (f <$> <[i := y]> l) < sum_list (f <$> l))%nat.
Proof.
  induction l as [|a l IH]; intros [|i] x y Hi Hlt; simplify_eq/=; [lia|].
  specialize (IH i x y Hi Hlt). lia.
Qed.

Lemma goto_lookup (ts : list (call * pc)) i c p t j :
  ts !! i = Some (c, p) ->
  <[i := t]> ts !! j = if decide (j = i) then Some t else ts !! j.
Proof.
  intros Hi. destruct (decide (j = i)) as [->|Hne].
  - apply list_lookup_insert_eq. by eapply lookup_lt_Some.
  - by apply list_lookup_insert_ne.
Qed.

Lemma inv_goto w i c p p' l' fs' :
  inv campaign w ->
  threads w !! i = Some (c, p) ->
  readable campaign fs' ->
  (in_cs p' = true <-> l' = Some i) ->
  (forall j, j <> i -> (l' = Some j <-> lock w = Some j)) ->
  pc_ok campaign fs' c p' ->
  (forall j cj pj, j <> i -> threads w !! j = Some (cj, pj) -> pc_ok campaign fs' cj pj) ->
  inv campaign (World l' fs' (<[i := (c, p')]> (threads w))).
Proof.
  intros [Hr Hpath Hlock Hown Hpc] Hi Hr' Hmine Hothers Hpc' Hpcs.
  split; simpl; [done|..].
  - intros j cj pj. rewrite (goto_lookup _ _ _ _ _ _ Hi).
    case_decide; [intros [= <- <-]|]; eauto.
  - intros j cj pj. rewrite (goto_lookup _ _ _ _ _ _ Hi).
    case_decide as Hj; [by intros [= <- <-]; subst j|].
    intros Hj'. rewrite (Hothers _ Hj). eauto.
  - intros k Hk. rewrite (goto_lookup _ _ _ _ _ _ Hi).
    case_decide as Hki; [done|]. apply Hown. by apply Hothers.
  - intros j cj pj. rewrite (goto_lookup _ _ _ _ _ _ Hi).
    case_decide as Hj; [by intros [= <- <-]|]. eauto.
Qed.

Lemma pc_ok_outside fs fs' c p :
  (forall tid, holds campaign fs tid -> holds campaign fs' tid) ->
  in_cs p = false -> pc_ok campaign fs c p -> pc_ok campaign fs' c p.
Proof. intros Hmono. destruct p; simpl; try done. auto. Qed.

Lemma record_event_dom now tid action ip ua url d d' :
  record_event now tid action ip ua url d = Ok d' ->
  dom d ⊆ dom d' /\ tid ∈ dom d'.
Proof.
  intros (e & l & _ & _ & ->)%record_event_inv.
  rewrite dom_insert. unfold ensure_entry.
  destruct (d !! tid); [set_solver|]. rewrite dom_insert. set_solver.
Qed.

Lemma record_event_raise now tid action ip ua url d e :
  record_event now tid action ip ua url d = Raise e -> is_Some (d !! tid).
Proof.
  intros Hr. destruct (d !! tid) eqn:Hd; [done|].
  by rewrite record_event_fresh in Hr.
Qed.

Lemma json_load_Ok fs d : json_load path fs = Ok d <-> fs !! path = Some (FJson d).
Proof.
  unfold json_load. destruct (fs !! path) as [[| |]|]; split; congruence.
Qed.

(** Every statement of every thread preserves the invariant. *)
Lemma inv_transition w i c p p' l' fs' :
  inv campaign w ->
  threads w !! i = Some (c, p) ->
  transition campaign i c p (lock w) (disk w) p' l' fs' ->
  inv campaign (World l' fs' (<[i := (c, p')]> (threads w))).
Proof.
  intros Hinv Hi Ht.
  pose proof (inv_readable _ _ Hinv) as Hr.
  pose proof (inv_lock _ _ Hinv _ _ _ Hi) as Hmine.
  pose proof (inv_pc _ _ Hinv _ _ _ Hi) as Hpc.
  assert (Hout : lock w = Some i -> forall j cj pj,
            j <> i -> threads w !! j = Some (cj, pj) -> in_cs pj = false).
  { intros Hl j cj pj Hj Hlk. destruct (in_cs pj) eqn:Hcs; [|done].
    apply (inv_lock _ _ Hinv) in Hlk. apply Hlk in Hcs. congruence. }
  assert (Hsame : forall j cj pj, j <> i -> threads w !! j = Some (cj, pj) ->
            pc_ok campaign (disk w) cj pj)
    by (intros; by eapply inv_pc).
  inversion Ht as [fs|l fs|l fs d Hload|l fs e Hload|l fs d d' Hrec
                  |l fs d e Hrec|l fs d'|l fs]; subst; simpl in *.
  - (* acquire *)
    assert (Hl : lock w = None) by done.
    apply (inv_goto w i c AtAcquire); try done.
    intros j Hj. rewrite Hl. split; [congruence|done].
  - (* create the file if needed *)
    assert (Hli : lock w = Some i) by (by apply Hmine).
    assert (Hex : exists d, ensure_file path (disk w) !! path = Some (FJson d)).
    { rewrite ensure_file_lookup. unfold readable in Hr.
      destruct (disk w !! path) as [[| |]|]; simpl; try done; eauto. }
    apply (inv_goto w i c AtEnsureFile); try done.
    + destruct Hex as [d Hd]. unfold readable. by rewrite Hd.
    + intros j cj pj Hj Hlk. apply (pc_ok_outside (disk w)); eauto.
      intros tid (d & Hd & Htid). exists d. split; [|done].
      unfold ensure_file. by rewrite Hd.
  - (* load *)
    apply json_load_Ok in Hload.
    apply (inv_goto w i c AtLoad); try done.
  - (* load cannot raise *)
    destruct Hpc as [d Hd]. apply json_load_Ok in Hd. congruence.
  - (* update the dictionary *)
    apply record_event_dom in Hrec as [Hsub Hin].
    apply (inv_goto w i c (AtUpdate d)); try done.
    by exists d.
  - (* the update raises: the record was there *)
    apply record_event_raise in Hrec.
    apply (inv_goto w i c (AtUpdate d)); try done.
    by exists d.
  - (* dump *)
    assert (Hli : lock w = Some i) by (by apply Hmine).
    destruct Hpc as (d & Hd & Hsub & Hin).
    apply (inv_goto w i c (AtDump d')); try done.
    + unfold readable, json_dump. by rewrite lookup_insert_eq.
    + exists d'. unfold json_dump. rewrite lookup_insert_eq.
      split; [done|]. by apply elem_of_dom.
    + intros j cj pj Hj Hlk. apply (pc_ok_outside (disk w)); eauto.
      intros tid (d0 & Hd0 & Htid). exists d'. unfold json_dump.
      rewrite lookup_insert_eq. split; [done|].
      rewrite Hd in Hd0. injection Hd0 as <-.
      apply elem_of_dom. apply elem_of_dom in Htid. by apply Hsub.
  - (* release *)
    assert (Hli : lock w = Some i) by (by apply Hmine).
    apply (inv_goto w i c AtRelease); try done.
    intros j Hj. rewrite Hli. split; [done|congruence].
Qed.

Lemma inv_thread_step i w w' :
  inv campaign w -> thread_step i w = Some w' ->
  inv campaign w' /\ (threads w').*1 = (threads w).*1 /\ (measure w' < measure w)%nat.
Proof.
  intros Hinv Hstep.
  destruct (thread_step_transition i w w' (inv_path _ _ Hinv) Hstep)
    as (c & p & p' & Hi & Hts & Ht).
  destruct w' as [l' fs' ts']. simpl in *. subst ts'. split_and!.
  - by eapply inv_transition.
  - rewrite list_fmap_insert. simpl. apply list_insert_id.
    by rewrite list_lookup_fmap, Hi.
  - unfold measure. simpl.
    apply (sum_list_insert_lt (fun t => rank t.2) _ _ (c, p)); [done|].
    simpl. by eapply transition_rank.
Qed.

Lemma inv_run_schedule schedule : forall w w',
  inv campaign w -> run_schedule schedule w = Some w' ->
  inv campaign w' /\ (threads w').*1 = (threads w).*1.
Proof.
  induction schedule as [|i rest IH]; intros w w' Hinv; simpl.
  - by intros [= <-].
  - destruct (thread_step i w) as [w1|] eqn:Hstep; [|done]. intros Hrun.
    destruct (inv_thread_step _ _ _ Hinv Hstep) as (Hinv1 & Hcalls1 & _).
    destruct (IH _ _ Hinv1 Hrun) as [Hinv' Hcalls'].
    split; [done|]. congruence.
Qed.

Lemma inv_spawn fs calls :
  readable campaign fs ->
  (forall c, c ∈ calls -> call_path c = Some path) ->
  inv campaign (spawn fs calls).
Proof.
  intros Hr Hpath. unfold spawn. split; simpl; [done|..].
  - intros j c p [c' [[= -> ->] Hc]]%list_lookup_fmap_Some.
    apply Hpath. by eapply list_elem_of_lookup_2.
  - intros j c p [c' [[= -> ->] Hc]]%list_lookup_fmap_Some. done.
  - done.
  - by intros j c p [c' [[= -> ->] Hc]]%list_lookup_fmap_Some.
Qed.

Lemma all_returned_lookup w j c p :
  all_returned w = true -> threads w !! j = Some (c, p) -> p = Returned.
Proof.
  unfold all_returned. rewrite <- Is_true_true, forallb_True, Forall_lookup.
  intros Hall Hj.
  specialize (Hall _ _ Hj). unfold returned in Hall. simpl in Hall.
  by destruct p.
Qed.

(** A thread can always move, unless all have returned. *)
Lemma progress w :
  inv campaign w -> all_returned w = false -> exists i w', thread_step i w = Some w'.
Proof.
  intros Hinv Hnot.
  assert (Hmove : forall i c p, threads w !! i = Some (c, p) ->
            in_cs p = true \/ (p = AtAcquire /\ lock w = None) ->
            exists w', thread_step i w = Some w').
  { intros i c p Hi Hp. unfold thread_step. rewrite Hi.
    rewrite (inv_path _ _ Hinv _ _ _ Hi).
    destruct Hp as [Hcs|[-> Hl]]; [|rewrite Hl; eauto].
    destruct p; try done; eauto.
    - destruct (json_load _ _); eauto.
    - destruct (record_event _ _ _ _ _ _ _); eauto. }
  destruct (lock w) as [i|] eqn:Hl.
  - destruct (inv_owner _ _ Hinv _ Hl) as [[c p] Hi].
    exists i. apply (Hmove i c p Hi). left. by apply (inv_lock _ _ Hinv _ _ _ Hi).
  - assert (Hex : exists j c p, threads w !! j = Some (c, p) /\ p <> Returned).
    { unfold all_returned in Hnot.
      apply not_true_iff_false in Hnot.
      rewrite <- Is_true_true, forallb_True in Hnot.
      apply not_Forall_Exists in Hnot; [|solve_decision].
      apply Exists_exists in Hnot as ([c p] & Hin & Hp).
      apply list_elem_of_lookup_1 in Hin as [j Hj].
      exists j, c, p. split; [done|]. intros ->. by apply Hp. }
    destruct Hex as (j & c & p & Hj & Hp). exists j.
    apply (Hmove j c p Hj). right. split; [|done].
    pose proof (inv_lock _ _ Hinv _ _ _ Hj) as Hcs. rewrite Hl in Hcs.
    destruct p; try done; simpl in Hcs; by destruct Hcs as [Hcs _]; specialize (Hcs eq_refl).
Qed.

(** Every world of the invariant can be run to the end. *)
Lemma completion n : forall w,
  (measure w < n)%nat -> inv campaign w ->
  exists schedule w', run_schedule schedule w = Some w' /\ all_returned w' = true.
Proof.
  induction n as [|n IH]; intros w Hn Hinv; [lia|].
  destruct (all_returned w) eqn:Hall.
  - exists [], w. by split.
  - destruct (progress w Hinv Hall) as (i & w1 & Hstep).
    destruct (inv_thread_step _ _ _ Hinv Hstep) as (Hinv1 & _ & Hlt).
    destruct (IH w1 ltac:(lia) Hinv1) as (rest & w' & Hrun & Hdone).
    exists (i :: rest), w'. simpl. by rewrite Hstep.
Qed.

Lemma spawn_calls fs calls : (threads (spawn fs calls)).*1 = calls.
Proof.
  unfold spawn. simpl.
  induction calls as [|c calls IH]; [done|]. simpl. by f_equal.
Qed.

(** C4: requests for the records of one campaign, arriving together.  The
    campaign file being absent or a JSON object, the threads can always be
    run to the end, and whichever way their statements interleave, once all
    have returned the file holds a record for every identifier; with
    distinct identifiers these are as many records as requests. *)
Theorem concurrent_updates_keep_all_entries (fs : gmap string file) (calls : list call) :
  readable campaign fs ->
  (forall c, c ∈ calls ->
     head (PyStr.split "_" (call_tracking_id c)) = Some campaign) ->
  NoDup (call_tracking_id <$> calls) ->
  (exists schedule w,
     run_schedule schedule (spawn fs calls) = Some w /\ all_returned w = true)
  /\ forall schedule w,
       run_schedule schedule (spawn fs calls) = Some w ->
       all_returned w = true ->
       (forall c, c ∈ calls ->
          exists d, disk w !! data_file campaign = Some (FJson d)
                    /\ is_Some (d !! call_tracking_id c))
       /\ (calls <> [] ->
           exists d, disk w !! data_file campaign = Some (FJson d)
                     /\ (length calls <= size d)%nat).
Proof.
  intros Hr Hcamp Hnd.
  assert (Hinv : inv campaign (spawn fs calls)).
  { apply inv_spawn; [done|]. intros c Hc. unfold call_path.
    by rewrite (Hcamp c Hc). }
  split; [apply (completion (S (measure (spawn fs calls)))); [lia|done]|].
  intros schedule w Hrun Hdone.
  destruct (inv_run_schedule _ _ _ Hinv Hrun) as [Hinvw Hcalls].
  rewrite spawn_calls in Hcalls.
  assert (Hall : forall c, c ∈ calls -> holds campaign (disk w) (call_tracking_id c)).
  { intros c Hc. rewrite <- Hcalls in Hc.
    apply list_elem_of_fmap in Hc as ([c' p] & -> & Hin).
    apply list_elem_of_lookup_1 in Hin as [j Hj].
    pose proof (all_returned_lookup _ _ _ _ Hdone Hj) as ->.
    apply (inv_pc _ _ Hinvw _ _ _ Hj). }
  split; [done|]. intros Hne.
  destruct calls as [|c0 calls']; [done|].
  destruct (Hall c0) as (d & Hd & _); [by left|].
  exists d. split; [done|].
  assert (Hsub : list_to_set (call_tracking_id <$> (c0 :: calls')) ⊆@{gset string} dom d).
  { intros tid Htid. apply elem_of_list_to_set in Htid.
    apply list_elem_of_fmap in Htid as (c & -> & Hc).
    destruct (Hall c Hc) as (d' & Hd' & Hin).
    rewrite Hd in Hd'. injection Hd' as <-. by apply elem_of_dom. }
  apply subseteq_size in Hsub.
  rewrite size_list_to_set, length_fmap, size_dom in Hsub; done.
Qed.

End Concurrency.

Section ConcurrencyExamples.

Import tracking_server.

(** Run the next statement of the only thread, whose path is given by [Hp]. *)
Ltac next_statement Hp := rewrite ?Hp; simpl.

(** A request running alone goes through the statements of
    [update_tracking_data] and leaves the files that function leaves. *)
Lemma single_thread_is_update fs c campaign :
  head (PyStr.split "_" (call_tracking_id c)) = Some campaign ->
  exists schedule w,
    run_schedule schedule (spawn fs [c]) = Some w
    /\ all_returned w = true
    /\ disk w = updated_files (call_time c) (call_tracking_id c) (call_action c)
                 (call_ip c) (call_user_agent c) (call_url c) fs.
Proof.
  intros Hc. unfold updated_files, locked_section. rewrite Hc.
  assert (Hp : call_path c = Some (data_file campaign))
    by (unfold call_path; by rewrite Hc).
  destruct (json_load (data_file campaign) (ensure_file (data_file campaign) fs))
    as [d|e] eqn:Hload.
  - cbn [bind].
    destruct (record_event (call_time c) (call_tracking_id c) (call_action c)
                (call_ip c) (call_user_agent c) (call_url c) d) as [d'|e] eqn:Hrec.
    + exists [0; 0; 0; 0; 0; 0]%nat. eexists.
      unfold spawn, run_schedule, thread_step, goto. simpl.
      do 2 next_statement Hp. rewrite Hp, Hload. simpl.
      rewrite Hp, Hrec. simpl. next_statement Hp. by rewrite Hp.
    + exists [0; 0; 0; 0; 0]%nat. eexists.
      unfold spawn, run_schedule, thread_step, goto. simpl.
      do 2 next_statement Hp. rewrite Hp, Hload. simpl.
      rewrite Hp, Hrec. simpl. by rewrite Hp.
  - cbn [bind]. exists [0; 0; 0; 0]%nat. eexists.
    unfold spawn, run_schedule, thread_step, goto. simpl.
    do 2 next_statement Hp. rewrite Hp, Hload. simpl.
    by rewrite Hp.
Qed.

Lemma concurrent_updates_keep_all_entries_witness :
  let calls := [Call "t1" "a_1" "opened" None (Some "Mail") None;
                Call "t2" "a_2" "clicked" None (Some "Mail") (Some "https://a.example/")] in
  exists w,
    run_schedule [1; 1; 1; 1; 1; 1; 0; 0; 0; 0; 0; 0]%nat (spawn ∅ calls) = Some w
    /\ exists d, disk w !! data_file "a" = Some (FJson d) /\ (2 <= size d)%nat.
Proof.
  intros calls.
  assert (Hr : readable "a" ∅) by (unfold readable; by rewrite lookup_empty).
  assert (Hc : forall c, c ∈ calls ->
            head (PyStr.split "_" (call_tracking_id c)) = Some "a").
  { intros c Hc. unfold calls in Hc.
    apply elem_of_cons in Hc as [->|Hc]; [done|].
    apply list_elem_of_singleton in Hc as ->. done. }
  assert (Hnd : NoDup (call_tracking_id <$> calls)).
  { unfold calls. simpl. apply NoDup_cons. split; [|apply NoDup_singleton].
    by intros ?%list_elem_of_singleton. }
  destruct (concurrent_updates_keep_all_entries "a" ∅ calls Hr Hc Hnd) as [_ Hall].
  destruct (run_schedule _ (spawn ∅ calls)) as [w|] eqn:Hrun;
    [|vm_compute in Hrun; discriminate].
  exists w. split; [reflexivity|].
  assert (Hdone : all_returned w = true).
  { vm_compute in Hrun. injection Hrun as <-. reflexivity. }
  destruct (Hall _ w Hrun Hdone) as [_ Hsize].
  apply Hsize. discriminate.
Defined.

End ConcurrencyExamples.

(** ** What one update does to the stored entries *)

Section UpdateEffects.

Import tracking_server.

(** The entry of any identifier in any campaign after an update for [tid]:
    it is as before, or it is the entry of [tid] itself, touched; in that
    case it was there with an events list, or it is the new shell. *)
Lemma entry_after_update now tid action ip ua url fs campaign t :
  entry_of (updated_files now tid action ip ua url fs) campaign t
    = entry_of fs campaign t
  \/ (t = tid
      /\ exists e l,
           e !! "events" = Some (VEvents l)
           /\ entry_of (updated_files now tid action ip ua url fs) campaign t
              = Some (touched now action (event_data now action ip ua url) e l)
           /\ (entry_of fs campaign t = Some e
               \/ (entry_of fs campaign t = None /\ e = shell_entry now))).
Proof.
  unfold updated_files.
  destruct (head (PyStr.split "_" tid)) as [c|]; [|by left].
  destruct (decide (data_file campaign = data_file c)) as [Hp|Hp].
  - unfold entry_of. rewrite Hp.
    pose proof (ensure_file_lookup (data_file c) fs) as Hfs1.
    destruct (locked_section_cases now tid action ip ua url (data_file c) fs)
      as [(x & ->)|(d & d' & Hl & Hr & ->)]; simpl.
    + left. rewrite Hfs1. destruct (fs !! data_file c) as [f|]; simpl; [done|].
      by rewrite lookup_empty.
    + rewrite lookup_insert_eq. rewrite Hfs1 in Hl. injection Hl as Hd.
      apply record_event_inv in Hr as (e & l & He & Hel & ->).
      destruct (decide (t = tid)) as [->|Ht].
      * right. split; [done|]. exists e, l. rewrite lookup_insert_eq.
        split; [done|]. split; [done|].
        unfold ensure_entry in He.
        destruct (fs !! data_file c) as [f|]; simpl in Hd.
        -- subst f. destruct (d !! tid) as [[e0|v]|] eqn:Hdt.
           ++ rewrite Hdt in He. left. congruence.
           ++ rewrite Hdt in He. done.
           ++ rewrite lookup_insert_eq in He. right. split; congruence.
        -- injection Hd as <-.
           rewrite lookup_empty, lookup_insert_eq in He. right. split; congruence.
      * left. rewrite lookup_insert_ne by done.
        rewrite ensure_entry_lookup_ne by done.
        destruct (fs !! data_file c) as [f|]; simpl in Hd; [by subst f|].
        injection Hd as <-. by rewrite lookup_empty.
  - left.
    assert (Hsame : (locked_section now tid action ip ua url (data_file c) fs).1
                      !! data_file campaign = fs !! data_file campaign).
    { destruct (locked_section_cases now tid action ip ua url (data_file c) fs)
        as [(x & ->)|(d0 & d' & _ & _ & ->)]; simpl.
      - by apply ensure_file_lookup_ne.
      - rewrite lookup_insert_ne by done. by apply ensure_file_lookup_ne. }
    unfold entry_of. by rewrite Hsame.
Qed.

Lemma events_of_touched now action ev e l :
  is_flag action -> events_of (touched now action ev e l) = Some (l ++ [ev]).
Proof.
  intros Ha. by apply (touched_entry now action ev e l Ha).
Qed.

Lemma touched_other_keys now action ev e l key :
  ~ written action key -> touched now action ev e l !! key = e !! key.
Proof.
  intros Hk. unfold written in Hk. unfold touched.
  rewrite !lookup_insert_ne; [done|..]; naive_solver.
Qed.

(** The events of any identifier after an update: the same, or one more. *)
Lemma recorded_after_update now tid action ip ua url fs campaign t :
  is_flag action ->
  recorded (updated_files now tid action ip ua url fs) campaign t
    = recorded fs campaign t
  \/ (t = tid
      /\ recorded (updated_files now tid action ip ua url fs) campaign t
         = recorded fs campaign t ++ [event_data now action ip ua url]).
Proof.
  intros Ha. unfold recorded.
  destruct (entry_after_update now tid action ip ua url fs campaign t)
    as [->|(-> & e & l & Hl & -> & Hbefore)]; [by left|].
  right. split; [done|]. simpl. rewrite events_of_touched by done. simpl.
  destruct Hbefore as [->|[-> ->]]; simpl.
  - unfold events_of. by rewrite Hl.
  - unfold shell_entry in Hl. rewrite lookup_insert_eq in Hl. by injection Hl as <-.
Qed.

(** The files after either endpoint: untouched, or updated with the
    endpoint's action. *)
Lemma files_after_open now req tid st :
  files (track_open now req tid st).2 = files st
  \/ exists ip ua,
       files (track_open now req tid st).2
         = updated_files now tid "opened" ip ua None (files st).
Proof.
  rewrite files_track_open. destruct (is_valid_tracking_id tid); eauto.
Qed.

Lemma files_after_click urlparse redirect now req tid st :
  files (track_click urlparse redirect now req tid st).2 = files st
  \/ exists ip ua,
       files (track_click urlparse redirect now req tid st).2
         = updated_files now tid "clicked" ip ua (Some (resolve_url urlparse req)) (files st).
Proof.
  rewrite files_track_click. destruct (is_valid_tracking_id tid); eauto.
Qed.

(** X4: the events of an entry are append-only.  Whatever the store holds and
    whichever identifier a request is for, after a pixel or click request the
    events recorded for any identifier are the former ones, followed by at
    most one new event. *)
Theorem events_are_append_only (urlparse : string -> option url_parts)
    (redirect : string -> option response)
    (now : string) (req : request) (tid : string) (st : server) (campaign t : string) :
  (recorded (files st) campaign t
     `prefix_of` recorded (files (track_open now req tid st).2) campaign t
   /\ (length (recorded (files (track_open now req tid st).2) campaign t)
        <= S (length (recorded (files st) campaign t)))%nat)
  /\ (recorded (files st) campaign t
       `prefix_of` recorded (files (track_click urlparse redirect now req tid st).2) campaign t
      /\ (length (recorded (files (track_click urlparse redirect now req tid st).2) campaign t)
           <= S (length (recorded (files st) campaign t)))%nat).
Proof.
  split.
  - destruct (files_after_open now req tid st) as [->|(ip & ua & ->)];
      [split; [done|lia]|].
    destruct (recorded_after_update now tid "opened" ip ua None (files st) campaign t)
      as [->|[_ ->]]; [by left|split; [done|lia]|].
    split; [by eexists|]. rewrite length_app. simpl. lia.
  - destruct (files_after_click urlparse redirect now req tid st) as [->|(ip & ua & ->)];
      [split; [done|lia]|].
    destruct (recorded_after_update now tid "clicked" ip ua
                (Some (resolve_url urlparse req)) (files st) campaign t)
      as [->|[_ ->]]; [by right|split; [done|lia]|].
    split; [by eexists|]. rewrite length_app. simpl. lia.
Qed.

Lemma entry_kept_by_update now tid action ip ua url fs campaign t e :
  entry_of fs campaign t = Some e ->
  exists e', entry_of (updated_files now tid action ip ua url fs) campaign t = Some e'
             /\ forall key, ~ written action key -> e' !! key = e !! key.
Proof.
  intros He.
  destruct (entry_after_update now tid action ip ua url fs campaign t)
    as [->|(-> & e0 & l & Hl & -> & Hbefore)]; [eauto|].
  rewrite He in Hbefore. destruct Hbefore as [[= <-]|[? _]]; [|done].
  eexists. split; [done|]. intros key Hk. by apply touched_other_keys.
Qed.

(** X5: no request deletes an entry, and a request changes no key of an
    entry other than ["events"], the flag of its action and
    ["last_activity"]: whatever else the entry holds (the seed fields of the
    campaign script, [first_seen], the other flag) is as before. *)
Theorem requests_keep_entries (urlparse : string -> option url_parts)
    (redirect : string -> option response)
    (now : string) (req : request) (tid : string) (st : server)
    (campaign t : string) (e : gmap string value) :
  entry_of (files st) campaign t = Some e ->
  (exists e', entry_of (files (track_open now req tid st).2) campaign t = Some e'
              /\ forall key, ~ written "opened" key -> e' !! key = e !! key)
  /\ (exists e', entry_of (files (track_click urlparse redirect now req tid st).2) campaign t = Some e'
                 /\ forall key, ~ written "clicked" key -> e' !! key = e !! key).
Proof.
  intros He. split.
  - destruct (files_after_open now req tid st) as [->|(ip & ua & ->)]; [eauto|].
    by apply entry_kept_by_update.
  - destruct (files_after_click urlparse redirect now req tid st) as [->|(ip & ua & ->)]; [eauto|].
    by apply entry_kept_by_update.
Qed.

Lemma requests_keep_entries_witness :
  let st := Server {[ data_file "a" := FJson {[ "a_b" := RDict seed_entry ]} ]} true [] in
  let req := Request None None None in
  entry_of (files st) "a" "a_b" = Some seed_entry
  /\ exists e', entry_of (files (track_open "t1" req "a_b" st).2) "a" "a_b" = Some e'
                /\ e' !! "email" = Some (VStr "ann@acme.example").
Proof.
  intros st req.
  assert (He : entry_of (files st) "a" "a_b" = Some seed_entry).
  { unfold entry_of, st. simpl. by rewrite !lookup_singleton_eq. }
  split; [exact He|].
  destruct (requests_keep_entries urllib_parse.urlparse werkzeug_utils.redirect "t1" req "a_b" st "a" "a_b"
              seed_entry He) as [(e' & He' & Hkeys) _].
  exists e'. split; [exact He'|].
  rewrite Hkeys; [reflexivity|]. unfold written. by intros [H|[H|H]].
Defined.

Lemma event_data_url now action ip ua url u :
  ev_url (event_data now action ip ua url) = Some u -> url = Some u.
Proof.
  unfold event_data. simpl. destruct url as [u0|]; [|done].
  by destruct (_ && _); intros [= ->].
Qed.

Lemma urls_valid_update urlparse now tid action ip ua url fs :
  is_flag action ->
  (forall u, url = Some u -> is_valid_url urlparse u = true) ->
  urls_valid urlparse fs ->
  urls_valid urlparse (updated_files now tid action ip ua url fs).
Proof.
  intros Ha Hurl Hfs campaign t ev u Hev Hu.
  destruct (recorded_after_update now tid action ip ua url fs campaign t Ha)
    as [Heq|[_ Heq]]; rewrite Heq in Hev; [by eapply Hfs|].
  apply elem_of_app in Hev as [Hev|Hev]; [by eapply Hfs|].
  apply list_elem_of_singleton in Hev as ->.
  by apply Hurl, (event_data_url now action ip ua).
Qed.

(** X6: only validated URLs reach the store.  If the library accepts the
    default redirect URL, then "every URL kept in an event passes
    [is_valid_url]" is an invariant of both endpoints; an empty server has
    it. *)
Theorem stored_urls_stay_valid (urlparse : string -> option url_parts)
    (redirect : string -> option response)
    (now : string) (req : request) (tid : string) (st : server) :
  is_valid_url urlparse DEFAULT_REDIRECT_URL = true ->
  urls_valid urlparse (files st) ->
  urls_valid urlparse (files (track_open now req tid st).2)
  /\ urls_valid urlparse (files (track_click urlparse redirect now req tid st).2).
Proof.
  intros Hd Hst. split.
  - destruct (files_after_open now req tid st) as [->|(ip & ua & ->)]; [done|].
    apply urls_valid_update; [by left|done|done].
  - destruct (files_after_click urlparse redirect now req tid st) as [->|(ip & ua & ->)]; [done|].
    apply urls_valid_update; [by right| |done].
    intros u [= <-]. by apply resolve_url_valid.
Qed.

Lemma stored_urls_stay_valid_witness :
  let st := Server ∅ true [] in
  let req := Request None None (Some "javascript:alert(1)") in
  is_valid_url urllib_parse.urlparse DEFAULT_REDIRECT_URL = true
  /\ urls_valid urllib_parse.urlparse (files st)
  /\ urls_valid urllib_parse.urlparse
       (files (track_click urllib_parse.urlparse werkzeug_utils.redirect "t1" req "a_b" st).2).
Proof.
  intros st req.
  assert (Hd : is_valid_url urllib_parse.urlparse DEFAULT_REDIRECT_URL = true)
    by reflexivity.
  assert (Hst : urls_valid urllib_parse.urlparse (files st)).
  { intros c t ev u Hev. unfold recorded, entry_of, st in Hev. simpl in Hev.
    rewrite lookup_empty in Hev. simpl in Hev. by apply elem_of_nil in Hev. }
  split; [exact Hd|]. split; [exact Hst|].
  exact (proj2 (stored_urls_stay_valid urllib_parse.urlparse werkzeug_utils.redirect "t1" req "a_b" st Hd Hst)).
Defined.

End UpdateEffects.

(** ** Which file a request reaches, and what the first event leaves *)

Section Routing.

Import Regex tracking_server.

(** The campaign segment of an accepted identifier is a non-empty run of
    letters and digits. *)
Lemma valid_id_campaign tid :
  is_valid_tracking_id tid = true ->
  exists campaign, segment campaign /\ head (PyStr.split "_" tid) = Some campaign.
Proof.
  intros (a & b & Ha & Hb & Hs)%is_valid_tracking_id_iff.
  exists a. split; [done|].
  assert (Hc : PyStr.count "_" a = 0%nat).
  { destruct Ha as [_ Ha]. by apply (str_count_all_false _ alnum). }
  destruct Hs as [->| ->]; by apply split_head_app.
Qed.

Lemma updated_files_elsewhere now tid action ip ua url fs campaign p :
  head (PyStr.split "_" tid) = Some campaign ->
  p <> data_file campaign ->
  updated_files now tid action ip ua url fs !! p = fs !! p.
Proof.
  intros Hc Hp. unfold updated_files. rewrite Hc.
  destruct (locked_section_cases now tid action ip ua url (data_file campaign) fs)
    as [(x & ->)|(d0 & d' & _ & _ & ->)]; simpl.
  - by apply ensure_file_lookup_ne.
  - rewrite lookup_insert_ne by done. by apply ensure_file_lookup_ne.
Qed.

(** X7: the identifier is a safe file key.  A pixel or click request with an
    accepted identifier reaches one file only,
    [tracking_data/campaign_data_<campaign>.json], whose campaign part is a
    non-empty run of letters and digits (so it holds no [/] and no [.]);
    every other path is as before, and so is the pixel. *)
Theorem requests_reach_one_campaign_file (urlparse : string -> option url_parts)
    (redirect : string -> option response)
    (now : string) (req : request) (tid : string) (st : server) :
  is_valid_tracking_id tid = true ->
  exists campaign,
    segment campaign
    /\ PyStr.count "/" campaign = 0%nat /\ PyStr.count "." campaign = 0%nat
    /\ (forall p, p <> data_file campaign ->
          files (track_open now req tid st).2 !! p = files st !! p
          /\ files (track_click urlparse redirect now req tid st).2 !! p = files st !! p)
    /\ pixel_present (track_open now req tid st).2 = pixel_present st
    /\ pixel_present (track_click urlparse redirect now req tid st).2 = pixel_present st.
Proof.
  intros Hv. destruct (valid_id_campaign tid Hv) as (campaign & Hseg & Hc).
  exists campaign. split; [done|].
  destruct Hseg as [_ Hall].
  split; [by apply (str_count_all_false _ alnum)|].
  split; [by apply (str_count_all_false _ alnum)|].
  split; [|split].
  - intros p Hp. rewrite files_track_open, files_track_click, Hv.
    split; by apply (updated_files_elsewhere _ _ _ _ _ _ _ campaign).
  - unfold track_open. rewrite Hv. simpl.
    rewrite update_tracking_data_pixel. simpl.
    destruct (pixel_present st) eqn:Hpx; simpl;
      rewrite update_tracking_data_pixel; simpl; done.
  - unfold track_click. rewrite Hv. simpl.
    destruct (redirect _); simpl; rewrite update_tracking_data_pixel; simpl;
      by destruct (negb _).
Qed.

Lemma requests_reach_one_campaign_file_witness :
  let st := Server {[ "tracking_data/../secret.json" := FGarbage ]} true [] in
  let req := Request None None None in
  is_valid_tracking_id "a_b" = true
  /\ files (track_open "t1" req "a_b" st).2 !! "tracking_data/../secret.json"
     = Some FGarbage.
Proof.
  intros st req.
  assert (Hv : is_valid_tracking_id "a_b" = true) by reflexivity.
  split; [exact Hv|].
  destruct (requests_reach_one_campaign_file urllib_parse.urlparse werkzeug_utils.redirect "t1" req "a_b" st Hv)
    as (campaign & Hseg & Hslash & _ & Hother & _).
  assert (Hp : "tracking_data/../secret.json" <> data_file campaign).
  { intros Heq. unfold data_file, TRACKING_DATA_DIR in Heq.
    assert (Hcount : PyStr.count "/" "tracking_data/../secret.json"
                     = PyStr.count "/" ("tracking_data" +:+ "/" +:+ "campaign_data_"
                                          +:+ campaign +:+ ".json"))
      by (by rewrite <- Heq).
    rewrite !str_count_app, Hslash in Hcount. simpl in Hcount. lia. }
  rewrite (proj1 (Hother _ Hp)). apply lookup_singleton_eq.
Defined.

(** The store of a campaign after the first event for an identifier it does
    not hold: the shell entry, touched, is added. *)
Lemma first_event_store now tid action ip ua url fs campaign d :
  head (PyStr.split "_" tid) = Some campaign ->
  default (FJson ∅) (fs !! data_file campaign) = FJson d ->
  d !! tid = None ->
  updated_files now tid action ip ua url fs !! data_file campaign
    = Some (FJson (<[tid := RDict (touched now action (event_data now action ip ua url)
                                    (shell_entry now) [])]> d)).
Proof.
  intros Hc Hd Htid. unfold updated_files, locked_section, json_load.
  rewrite Hc, ensure_file_lookup, Hd. cbn [bind].
  rewrite record_event_fresh by done. cbn [fst]. unfold json_dump.
  rewrite lookup_insert_eq. by rewrite insert_insert_eq.
Qed.

(** X8: the entry an endpoint creates.  When the campaign file is absent, or
    is a JSON object without the identifier, the first pixel request for an
    accepted identifier leaves an entry with exactly four keys:
    [first_seen] and [last_activity] at the time of the request, [events]
    with the one event, and [opened] true; it has no [clicked] key. *)
Theorem first_open_creates_entry (now : string) (req : request)
    (tid campaign : string) (st : server) (d : gmap string record) :
  is_valid_tracking_id tid = true ->
  head (PyStr.split "_" tid) = Some campaign ->
  default (FJson ∅) (files st !! data_file campaign) = FJson d ->
  d !! tid = None ->
  exists e,
    entry_of (files (track_open now req tid st).2) campaign tid = Some e
    /\ e !! "first_seen" = Some (VStr now)
    /\ e !! "last_activity" = Some (VStr now)
    /\ e !! "opened" = Some (VBool true)
    /\ e !! "events"
       = Some (VEvents [Event "opened" now (remote_addr req)
                          (Some (default "Unknown" (header_user_agent req))) None])
    /\ dom e = {[ "first_seen"; "last_activity"; "opened"; "events" ]}
    /\ e !! "clicked" = None.
Proof.
  intros Hv Hc Hd Htid.
  eexists. unfold entry_of. rewrite files_track_open, Hv.
  rewrite (first_event_store _ _ _ _ _ _ _ campaign d) by done.
  rewrite lookup_insert_eq. split; [done|].
  unfold touched, shell_entry. split_and!.
  - do 4 (rewrite lookup_insert_ne by done). by rewrite lookup_insert_eq.
  - by rewrite lookup_insert_eq.
  - rewrite lookup_insert_ne by done. by rewrite lookup_insert_eq.
  - do 2 (rewrite lookup_insert_ne by done). by rewrite lookup_insert_eq.
  - rewrite !dom_insert_L, dom_empty_L. set_solver.
  - do 5 (rewrite lookup_insert_ne by done). apply lookup_empty.
Qed.

Lemma first_open_creates_entry_witness :
  let st := Server ∅ true [] in
  let req := Request (Some "10.0.0.1") None None in
  is_valid_tracking_id "a_b" = true
  /\ head (PyStr.split "_" "a_b") = Some "a"
  /\ exists e, entry_of (files (track_open "t1" req "a_b" st).2) "a" "a_b" = Some e
               /\ e !! "opened" = Some (VBool true) /\ e !! "clicked" = None.
Proof.
  intros st req.
  assert (Hv : is_valid_tracking_id "a_b" = true) by reflexivity.
  assert (Hc : head (PyStr.split "_" "a_b") = Some "a") by reflexivity.
  split; [exact Hv|]. split; [exact Hc|].
  destruct (first_open_creates_entry "t1" req "a_b" "a" st ∅ Hv Hc)
    as (e & He & _ & _ & Ho & _ & _ & Hk).
  - unfold st. simpl. by rewrite lookup_empty.
  - apply lookup_empty.
  - exists e. split; [exact He|]. split; [exact Ho|exact Hk].
Defined.

End Routing.

(** ** The statistics endpoint: outcomes and bounds *)

Section StatisticsContract.

Import Regex tracking_server.

Lemma count_flag_Ok key (values : list record) n :
  count_flag key values = Ok n -> Forall is_entry values.
Proof.
  revert n. induction values as [|r values IH]; intros n; [constructor|].
  simpl. destruct r as [e|v]; simpl; [|done].
  destruct (count_flag key values) as [m|x] eqn:Hc; simpl; [|done].
  intros _. constructor; [done|]. by eapply IH.
Qed.

(** The statistics can be computed exactly on the stores of JSON objects. *)
Lemma calculate_statistics_Ok_iff campaign (d : gmap string record) :
  (exists s, calculate_statistics campaign d = Ok s)
  <-> map_Forall (fun _ r => is_entry r) d.
Proof.
  split.
  - intros [s Hs]. unfold calculate_statistics in Hs.
    destruct (count_flag "opened" (map_to_list d).*2) as [n|x] eqn:Hc; [|done].
    apply count_flag_Ok in Hc.
    intros k r Hk. rewrite Forall_forall in Hc. apply (Hc r).
    apply list_elem_of_fmap. exists (k, r). split; [done|].
    by apply elem_of_map_to_list.
  - intros Hd. eexists. by apply calculate_statistics_entries.
Qed.

Lemma entries_with_le_size key (d : gmap string record) :
  entries_with key d <= Z.of_nat (size d).
Proof.
  unfold entries_with. apply inj_le, map_size_filter.
Qed.

(** X9: bounds on the counts.  Whenever the statistics are computed, the
    opens and the clicks are each between 0 and the number of recipients. *)
Theorem stats_counts_are_bounded (campaign : string) (d : gmap string record) (s : stats) :
  calculate_statistics campaign d = Ok s ->
  0 <= total_opens s <= total_recipients s
  /\ 0 <= total_clicks s <= total_recipients s.
Proof.
  intros Hs.
  assert (Hd : map_Forall (fun _ r => is_entry r) d)
    by (apply (calculate_statistics_Ok_iff campaign); eauto).
  rewrite calculate_statistics_entries in Hs by done. injection Hs as <-. simpl.
  pose proof (entries_with_nonneg "opened" d).
  pose proof (entries_with_nonneg "clicked" d).
  pose proof (entries_with_le_size "opened" d).
  pose proof (entries_with_le_size "clicked" d). lia.
Qed.

Lemma stats_counts_are_bounded_witness :
  exists s, calculate_statistics "a" shells = Ok s
            /\ 0 <= total_opens s <= total_recipients s
            /\ 0 <= total_clicks s <= total_recipients s.
Proof.
  destruct (calculate_statistics "a" shells) as [s|x] eqn:Hs;
    [|vm_compute in Hs; discriminate].
  exists s. split; [reflexivity|].
  exact (stats_counts_are_bounded "a" shells s Hs).
Defined.

(** X10: the outcomes of the statistics endpoint.  It never changes a file or
    the pixel.  It answers 400 exactly for a campaign identifier that is not
    a run of letters and digits (a final newline apart), 404 exactly for an
    accepted identifier without a file, 200 exactly when the file is a JSON
    object all of whose records are JSON objects, and 500 otherwise: one
    record that is not an object makes the whole request fail. *)
Theorem campaign_stats_outcomes (campaign : string) (st : server) :
  files (campaign_stats campaign st).2 = files st
  /\ pixel_present (campaign_stats campaign st).2 = pixel_present st
  /\ (status_code (campaign_stats campaign st).1 = 400
      <-> py_match_anchored CAMPAIGN_ID_PATTERN campaign = false)
  /\ (status_code (campaign_stats campaign st).1 = 404
      <-> py_match_anchored CAMPAIGN_ID_PATTERN campaign = true
          /\ files st !! data_file campaign = None)
  /\ (status_code (campaign_stats campaign st).1 = 200
      <-> py_match_anchored CAMPAIGN_ID_PATTERN campaign = true
          /\ exists d, files st !! data_file campaign = Some (FJson d)
                       /\ map_Forall (fun _ r => is_entry r) d)
  /\ (status_code (campaign_stats campaign st).1 = 200
      \/ status_code (campaign_stats campaign st).1 = 400
      \/ status_code (campaign_stats campaign st).1 = 404
      \/ status_code (campaign_stats campaign st).1 = 500).
Proof.
  unfold campaign_stats.
  destruct (py_match_anchored CAMPAIGN_ID_PATTERN campaign) eqn:Hv; simpl.
  2:{ split_and!; try done; try (split; [done|by intros [? _]]). auto. }
  destruct (files st !! data_file campaign) as [f|] eqn:Hf; simpl.
  2:{ split_and!; try done; try (split; [done|by intros [_ (d & ? & _)]]). auto. }
  destruct (stats_of_file campaign f) as [s|x] eqn:Hs; simpl.
  - split_and!; try done; try (split; [done|by intros [_ ?]]); [|auto].
    split; [intros _|done]. split; [done|].
    destruct f as [d| |]; try done. exists d. split; [done|].
    apply (calculate_statistics_Ok_iff campaign). eauto.
  - split_and!; try done; try (split; [done|by intros [_ ?]]); [|auto].
    split; [done|]. intros [_ (d & [= ->] & Hd)]. simpl in Hs.
    by rewrite calculate_statistics_entries in Hs.
Qed.

Lemma entries_with_insert_fresh key tid r (d : gmap string record) :
  d !! tid = None ->
  entries_with key (<[tid := r]> d)
    = entries_with key d + (if flag_true key r then 1 else 0).
Proof.
  intros Hd. unfold entries_with. rewrite map_filter_insert. simpl.
  destruct (flag_true key r) eqn:Hr.
  - rewrite decide_True by done.
    rewrite map_size_insert_None by (apply map_lookup_filter_None_2; by left). lia.
  - rewrite decide_False by done. rewrite delete_id by done. lia.
Qed.

(** X11: an open shows in the statistics.  On a campaign whose file is
    absent, or holds JSON objects but not the identifier, a pixel request
    for an accepted identifier raises the recipients and the opens of the
    statistics by one and leaves the clicks as they were. *)
Theorem first_open_counts_once (now : string) (req : request)
    (tid campaign : string) (st : server) (d : gmap string record) :
  is_valid_tracking_id tid = true ->
  head (PyStr.split "_" tid) = Some campaign ->
  default (FJson ∅) (files st !! data_file campaign) = FJson d ->
  map_Forall (fun _ r => is_entry r) d ->
  d !! tid = None ->
  exists s s',
    calculate_statistics campaign d = Ok s
    /\ (campaign_stats campaign (track_open now req tid st).2).1
       = Jsonify (StatsBody s') 200
    /\ total_recipients s' = total_recipients s + 1
    /\ total_opens s' = total_opens s + 1
    /\ total_clicks s' = total_clicks s.
Proof.
  intros Hv Hc Hd Hall Htid.
  destruct (valid_id_campaign tid Hv) as (c & Hseg & Hc').
  rewrite Hc in Hc'. injection Hc' as <-.
  assert (Hcamp : py_match_anchored CAMPAIGN_ID_PATTERN campaign = true).
  { unfold py_match_anchored, CAMPAIGN_ID_PATTERN. apply run_lang.
    rewrite <- (str_app_nil_r campaign). constructor.
    - by apply lang_plus_cls.
    - apply lang_dollar. by left. }
  set (e := touched now "opened"
              (event_data now "opened" (remote_addr req)
                 (Some (default "Unknown" (header_user_agent req))) None)
              (shell_entry now) []).
  assert (Hall' : map_Forall (fun _ r => is_entry r) (<[tid := RDict e]> d))
    by (by apply map_Forall_insert_2).
  eexists _, _. split; [by apply calculate_statistics_entries|].
  unfold campaign_stats. rewrite Hcamp. simpl.
  rewrite files_track_open, Hv.
  rewrite (first_event_store _ _ _ _ _ _ _ campaign d) by done. simpl.
  fold e. rewrite calculate_statistics_entries by done. split; [done|]. simpl.
  rewrite map_size_insert_None by done.
  rewrite !entries_with_insert_fresh by done.
  assert (Ho : flag_true "opened" (RDict e) = true).
  { simpl. unfold e, touched.
    rewrite lookup_insert_ne by done. by rewrite lookup_insert_eq. }
  assert (Hk : flag_true "clicked" (RDict e) = false).
  { simpl. unfold e, touched, shell_entry.
    do 5 (rewrite lookup_insert_ne by done). by rewrite lookup_empty. }
  rewrite Ho, Hk. lia.
Qed.

Lemma first_open_counts_once_witness :
  let st := Server {[ data_file "a" := FJson shells ]} true [] in
  let req := Request None None None in
  is_valid_tracking_id "a_9" = true
  /\ head (PyStr.split "_" "a_9") = Some "a"
  /\ exists s', (campaign_stats "a" (track_open "t9" req "a_9" st).2).1
                  = Jsonify (StatsBody s') 200
                /\ total_recipients s' = 4 /\ total_opens s' = 2 /\ total_clicks s' = 0.
Proof.
  intros st req.
  assert (Hv : is_valid_tracking_id "a_9" = true) by reflexivity.
  assert (Hc : head (PyStr.split "_" "a_9") = Some "a") by reflexivity.
  assert (Hd : default (FJson ∅) (files st !! data_file "a") = FJson shells).
  { unfold st. simpl. by rewrite lookup_singleton_eq. }
  assert (Hall : map_Forall (fun _ r => is_entry r) shells).
  { intros k r. unfold shells.
    rewrite !lookup_insert_Some, lookup_singleton_Some.
    intros [[_ <-]|[_ [[_ <-]|[_ [_ <-]]]]]; exact I. }
  assert (Htid : shells !! "a_9" = None) by (by vm_compute).
  split; [exact Hv|]. split; [exact Hc|].
  destruct (first_open_counts_once "t9" req "a_9" "a" st shells Hv Hc Hd Hall Htid)
    as (s & s' & Hs & Hs' & Hn & Ho & Hk).
  exists s'. split; [exact Hs'|].
  assert (Hval : s = Stats "a" 3 1 0 (rate 1 3) (rate 0 3) (rate 0 1)).
  { vm_compute in Hs. by injection Hs as <-. }
  rewrite Hn, Ho, Hk, Hval. simpl. repeat split; reflexivity.
Defined.

End StatisticsContract.

(** ** The lock: exclusion, termination and serial order *)

Section Serializability.

Import tracking_server.

Lemma thread_step_at i w w' :
  thread_step i w = Some w' ->
  exists c p p' campaign,
    threads w !! i = Some (c, p)
    /\ head (PyStr.split "_" (call_tracking_id c)) = Some campaign
    /\ threads w' = <[i := (c, p')]> (threads w)
    /\ transition campaign i c p (lock w) (disk w) p' (lock w') (disk w').
Proof.
  unfold thread_step, goto, call_path.
  destruct (threads w !! i) as [[c p]|] eqn:Hi; [|done].
  destruct (split_head_is_Some (call_tracking_id c)) as [campaign Hc].
  rewrite Hc. simpl.
  destruct p as [| | |d|d'| |]; try done.
  - destruct (lock w) eqn:Hl; [done|]. intros [= <-].
    exists c, AtAcquire, AtEnsureFile, campaign. simpl.
    split_and!; try done. constructor.
  - intros [= <-]. exists c, AtEnsureFile, AtLoad, campaign.
    split_and!; try done. constructor.
  - destruct (json_load (data_file campaign) (disk w)) as [d|e] eqn:Hload; intros [= <-].
    + exists c, AtLoad, (AtUpdate d), campaign. split_and!; try done. by constructor.
    + exists c, AtLoad, AtRelease, campaign. split_and!; try done. by econstructor.
  - destruct (record_event _ _ _ _ _ _ d) as [d'|e] eqn:Hrec; intros [= <-].
    + exists c, (AtUpdate d), (AtDump d'), campaign. split_and!; try done. by constructor.
    + exists c, (AtUpdate d), AtRelease, campaign. split_and!; try done. by econstructor.
  - intros [= <-]. exists c, (AtDump d'), AtRelease, campaign.
    split_and!; try done. constructor.
  - intros [= <-]. exists c, AtRelease, Returned, campaign.
    split_and!; try done. constructor.
Qed.

Lemma filter_insert_same {A} (P : A -> Prop) `{!forall x, Decision (P x)} (l : list A) :
  forall i x y, l !! i = Some x -> ~ P x -> ~ P y -> filter P (<[i := y]> l) = filter P l.
Proof.
  induction l as [|a l IH]; intros [|i] x y Hi Hx Hy; simplify_eq/=.
  - by rewrite !filter_cons_False.
  - rewrite !filter_cons. by rewrite (IH i x y).
Qed.

Lemma filter_insert_new {A} (P : A -> Prop) `{!forall x, Decision (P x)} (l : list A) :
  forall i x y, l !! i = Some x -> ~ P x -> P y -> filter P (<[i := y]> l) ≡ₚ filter P l ++ [y].
Proof.
  induction l as [|a l IH]; intros [|i] x y Hi Hx Hy; simplify_eq/=.
  - rewrite filter_cons_True, filter_cons_False by done.
    apply Permutation_cons_append.
  - destruct (decide (P a)) as [Ha|Ha].
    + rewrite !filter_cons_True by done. simpl. f_equiv. by eapply IH.
    + rewrite !filter_cons_False by done. by eapply IH.
Qed.

Lemma filter_all {A} (P : A -> Prop) `{!forall x, Decision (P x)} (l : list A) :
  Forall P l -> filter P l = l.
Proof.
  induction 1 as [|a l Ha _ IH]; [done|]. by rewrite filter_cons_True, IH.
Qed.

Lemma lock_ok_goto w i c p p' l' fs' :
  lock_ok w ->
  threads w !! i = Some (c, p) ->
  (in_cs p' = true <-> l' = Some i) ->
  (forall j, j <> i -> (l' = Some j <-> lock w = Some j)) ->
  lock_ok (World l' fs' (<[i := (c, p')]> (threads w))).
Proof.
  intros [Hlock Hown] Hi Hmine Hothers. split; simpl.
  - intros j cj pj. rewrite (goto_lookup _ _ _ _ _ _ Hi).
    case_decide as Hj; [by intros [= <- <-]; subst j|].
    intros Hj'. rewrite (Hothers _ Hj). eauto.
  - intros k Hk. rewrite (goto_lookup _ _ _ _ _ _ Hi).
    case_decide as Hki; [done|]. apply Hown. by apply Hothers.
Qed.

Lemma finished_goto w i c p p' l' fs' :
  threads w !! i = Some (c, p) -> p <> Returned ->
  finished (World l' fs' (<[i := (c, p')]> (threads w)))
    ≡ₚ if returned (c, p') then finished w ++ [c] else finished w.
Proof.
  intros Hi Hp. unfold finished. simpl.
  assert (Hnot : ~ returned (c, p) = true) by (by destruct p).
  destruct (returned (c, p')) eqn:Hp'.
  - rewrite (filter_insert_new _ _ i (c, p) (c, p')) by done.
    by rewrite fmap_app.
  - rewrite (filter_insert_same _ _ i (c, p) (c, p')); [done..|].
    by rewrite Hp'.
Qed.

Lemma call_update_locked c campaign base :
  head (PyStr.split "_" (call_tracking_id c)) = Some campaign ->
  call_update c base
    = (locked_section (call_time c) (call_tracking_id c) (call_action c)
         (call_ip c) (call_user_agent c) (call_url c) (data_file campaign) base).1.
Proof. intros Hc. unfold call_update, updated_files. by rewrite Hc. Qed.

(** Every statement keeps the world serial; the thread that releases the
    lock comes last in the order. *)
Lemma serial_thread_step fs i w w' order :
  serial fs w order -> thread_step i w = Some w' ->
  exists order',
    serial fs w' order'
    /\ (threads w').*1 = (threads w).*1
    /\ (measure w' < measure w)%nat.
Proof.
  intros (Hperm & Hlk & Hdisk) Hstep.
  destruct (thread_step_at i w w' Hstep) as (c & p & p' & campaign & Hi & Hc & Hts & Ht).
  destruct w' as [l' fs' ts']. simpl in *. subst ts'.
  assert (Hpath : call_path c = Some (data_file campaign))
    by (unfold call_path; by rewrite Hc).
  assert (Hcalls : (<[i := (c, p')]> (threads w)).*1 = (threads w).*1).
  { rewrite list_fmap_insert. simpl. apply list_insert_id.
    by rewrite list_lookup_fmap, Hi. }
  assert (Hlt : (measure (World l' fs' (<[i := (c, p')]> (threads w))) < measure w)%nat).
  { unfold measure. simpl.
    apply (sum_list_insert_lt (fun t => rank t.2) _ _ (c, p)); [done|].
    simpl. by eapply transition_rank. }
  assert (Hnew : <[i := (c, p')]> (threads w) !! i = Some (c, p')).
  { apply list_lookup_insert_eq. by eapply lookup_lt_Some. }
  pose proof (proj1 Hlk _ _ _ Hi) as Hmine.
  assert (Hin : in_cs p = true -> lock w = Some i
                /\ in_progress c p (run_serially order fs) (disk w)).
  { intros Hcs. apply Hmine in Hcs. split; [done|].
    rewrite Hcs in Hdisk. destruct Hdisk as (c0 & p0 & Hi0 & Hprog).
    rewrite Hi in Hi0. by injection Hi0 as <- <-. }
  assert (Hkeep : forall l0, l0 = l' -> lock w = Some i -> l' = Some i ->
            in_cs p' = true -> p <> Returned -> returned (c, p') = false ->
            in_progress c p' (run_serially order fs) fs' ->
            serial fs (World l' fs' (<[i := (c, p')]> (threads w))) order).
  { intros l0 _ Hli Hl' Hcs' Hp Hp' Hprog. split_and!.
    - rewrite Hperm. symmetry.
      rewrite (finished_goto w i c p p' l' fs' Hi Hp). by rewrite Hp'.
    - apply (lock_ok_goto w i c p); [done|done|by split|].
      intros j Hj. rewrite Hli, Hl'. done.
    - simpl. rewrite Hl'. exists c, p'. by split. }
  inversion Ht as [fs0|l fs0|l fs0 d Hload|l fs0 e Hload|l fs0 d d' Hrec
                  |l fs0 d e Hrec|l fs0 d'|l fs0]; subst; simpl in *.
  - (* acquire *)
    assert (Hl : lock w = None) by done.
    exists order. split; [|done]. split_and!.
    + rewrite Hperm. symmetry.
      by rewrite (finished_goto w i c AtAcquire AtEnsureFile _ _ Hi).
    + apply (lock_ok_goto w i c AtAcquire); [done|done|by split|].
      intros j Hj. rewrite Hl. split; congruence.
    + simpl. exists c, AtEnsureFile. split; [done|].
      unfold in_progress. rewrite Hpath. by rewrite Hl in Hdisk.
  - (* create the file if needed *)
    destruct (Hin eq_refl) as [Hli Hprog].
    unfold in_progress in Hprog. rewrite Hpath in Hprog.
    exists order. split; [|done].
    apply (Hkeep (lock w)); try done.
    unfold in_progress. rewrite Hpath. by rewrite Hprog.
  - (* load *)
    destruct (Hin eq_refl) as [Hli Hprog].
    unfold in_progress in Hprog. rewrite Hpath in Hprog.
    exists order. split; [|done].
    apply (Hkeep (lock w)); try done.
    unfold in_progress. rewrite Hpath. done.
  - (* the load raises *)
    destruct (Hin eq_refl) as [Hli Hprog].
    unfold in_progress in Hprog. rewrite Hpath in Hprog.
    exists order. split; [|done].
    apply (Hkeep (lock w)); try done.
    unfold in_progress. rewrite Hpath.
    rewrite (call_update_locked c campaign) by done.
    unfold locked_section. rewrite <- Hprog, Hload. done.
  - (* update the dictionary *)
    destruct (Hin eq_refl) as [Hli Hprog].
    unfold in_progress in Hprog. rewrite Hpath in Hprog.
    destruct Hprog as [Hfs Hload].
    exists order. split; [|done].
    apply (Hkeep (lock w)); try done.
    unfold in_progress. rewrite Hpath. eauto.
  - (* the update raises *)
    destruct (Hin eq_refl) as [Hli Hprog].
    unfold in_progress in Hprog. rewrite Hpath in Hprog.
    destruct Hprog as [Hfs Hload].
    exists order. split; [|done].
    apply (Hkeep (lock w)); try done.
    unfold in_progress. rewrite Hpath.
    rewrite (call_update_locked c campaign) by done.
    unfold locked_section. rewrite <- Hfs, Hload. simpl. by rewrite Hrec.
  - (* dump *)
    destruct (Hin eq_refl) as [Hli Hprog].
    unfold in_progress in Hprog. rewrite Hpath in Hprog.
    destruct Hprog as (Hfs & d & Hload & Hrec).
    exists order. split; [|done].
    apply (Hkeep (lock w)); try done.
    unfold in_progress. rewrite Hpath.
    rewrite (call_update_locked c campaign) by done.
    unfold locked_section. rewrite <- Hfs, Hload. simpl. by rewrite Hrec.
  - (* release *)
    destruct (Hin eq_refl) as [Hli Hprog].
    unfold in_progress in Hprog. rewrite Hpath in Hprog.
    exists (order ++ [c]). split; [|done]. split_and!.
    + rewrite (finished_goto w i c AtRelease Returned _ _ Hi) by done.
      simpl. by rewrite Hperm.
    + apply (lock_ok_goto w i c AtRelease); [done|done|by split|].
      intros j Hj. rewrite Hli. split; congruence.
    + simpl. unfold run_serially. rewrite foldl_app. simpl. done.
Qed.

Lemma serial_run_schedule fs schedule : forall w order w',
  serial fs w order -> run_schedule schedule w = Some w' ->
  exists order',
    serial fs w' order'
    /\ (threads w').*1 = (threads w).*1
    /\ (length schedule + measure w' <= measure w)%nat.
Proof.
  induction schedule as [|i rest IH]; intros w order w' Hs; simpl.
  - intros [= <-]. exists order. split_and!; [done|done|lia].
  - destruct (thread_step i w) as [w1|] eqn:Hstep; [|done]. intros Hrun.
    destruct (serial_thread_step _ _ _ _ _ Hs Hstep) as (order1 & Hs1 & Hc1 & Hlt).
    destruct (IH _ _ _ Hs1 Hrun) as (order' & Hs' & Hc' & Hle).
    exists order'. split_and!; [done|congruence|lia].
Qed.

Lemma serial_spawn fs calls : serial fs (spawn fs calls) [].
Proof.
  unfold spawn. split_and!; simpl.
  - unfold finished. simpl.
    induction calls as [|c calls IH]; [done|]. simpl.
    by rewrite filter_cons_False.
  - split; simpl; [|done].
    by intros j c p [c' [[= -> ->] Hc]]%list_lookup_fmap_Some.
  - done.
Qed.

Lemma measure_spawn fs calls : measure (spawn fs calls) = (6 * length calls)%nat.
Proof.
  unfold measure, spawn. simpl.
  induction calls as [|c calls IH]; [done|].
  rewrite !fmap_cons. cbn [sum_list sum_list_with rank snd length]. rewrite IH.
  unfold id. lia.
Qed.

Lemma finished_all_returned w : all_returned w = true -> finished w = (threads w).*1.
Proof.
  unfold all_returned, finished.
  rewrite <- Is_true_true, forallb_True. intros Hall.
  rewrite filter_all; [done|].
  eapply Forall_impl; [exact Hall|]. intros t. apply Is_true_true.
Qed.

(** Some thread can move, unless all have returned: no exception inside the
    [with] block leaves the lock taken. *)
Lemma lock_ok_progress w :
  lock_ok w -> all_returned w = false -> exists i w', thread_step i w = Some w'.
Proof.
  intros [Hlock Hown] Hnot.
  assert (Hmove : forall i c p, threads w !! i = Some (c, p) ->
            in_cs p = true \/ (p = AtAcquire /\ lock w = None) ->
            exists w', thread_step i w = Some w').
  { intros i c p Hi Hp. unfold thread_step, call_path. rewrite Hi.
    destruct (split_head_is_Some (call_tracking_id c)) as [campaign ->]. simpl.
    destruct Hp as [Hcs|[-> Hl]]; [|rewrite Hl; eauto].
    destruct p; try done; eauto.
    - destruct (json_load _ _); eauto.
    - destruct (record_event _ _ _ _ _ _ _); eauto. }
  destruct (lock w) as [i|] eqn:Hl.
  - destruct (Hown _ eq_refl) as [[c p] Hi].
    exists i. apply (Hmove i c p Hi). left. by apply (Hlock _ _ _ Hi).
  - assert (Hex : exists j c p, threads w !! j = Some (c, p) /\ p <> Returned).
    { unfold all_returned in Hnot.
      apply not_true_iff_false in Hnot.
      rewrite <- Is_true_true, forallb_True in Hnot.
      apply not_Forall_Exists in Hnot; [|solve_decision].
      apply Exists_exists in Hnot as ([c p] & Hin & Hp).
      apply list_elem_of_lookup_1 in Hin as [j Hj].
      exists j, c, p. split; [done|]. intros ->. by apply Hp. }
    destruct Hex as (j & c & p & Hj & Hp). exists j.
    apply (Hmove j c p Hj). right. split; [|done].
    pose proof (Hlock _ _ _ Hj) as Hcs.
    destruct p; try done; simpl in Hcs; by destruct Hcs as [Hcs _]; specialize (Hcs eq_refl).
Qed.

Lemma serial_completion fs n : forall w order,
  (measure w < n)%nat -> serial fs w order ->
  exists rest w', run_schedule rest w = Some w' /\ all_returned w' = true.
Proof.
  induction n as [|n IH]; intros w order Hn Hs; [lia|].
  destruct (all_returned w) eqn:Hall.
  - exists [], w. by split.
  - destruct (lock_ok_progress w (proj1 (proj2 Hs)) Hall) as (i & w1 & Hstep).
    destruct (serial_thread_step _ _ _ _ _ Hs Hstep) as (order1 & Hs1 & _ & Hlt).
    destruct (IH w1 order1 ltac:(lia) Hs1) as (rest & w' & Hrun & Hdone).
    exists (i :: rest), w'. simpl. by rewrite Hstep.
Qed.

Lemma run_schedule_app s1 : forall s2 w,
  run_schedule (s1 ++ s2) w = run_schedule s1 w ≫= run_schedule s2.
Proof.
  induction s1 as [|i s1 IH]; intros s2 w; simpl; [done|].
  destruct (thread_step i w); [apply IH|done].
Qed.

(** X12: mutual exclusion without deadlock.  Whatever the files hold and
    whichever identifiers the requests carry, in every world the threads of
    [update_tracking_data] reach at most one thread is inside the [with]
    block, the lock is free once all have returned, and until then some
    thread can run its next statement: an exception inside the block
    releases the lock. *)
Theorem lock_is_exclusive_and_released (fs : gmap string file) (calls : list call)
    (schedule : list nat) (w : world) :
  run_schedule schedule (spawn fs calls) = Some w ->
  (forall i j ci pi cj pj,
     threads w !! i = Some (ci, pi) -> threads w !! j = Some (cj, pj) ->
     in_cs pi = true -> in_cs pj = true -> i = j)
  /\ (all_returned w = true -> lock w = None)
  /\ (all_returned w = false -> exists i w', thread_step i w = Some w').
Proof.
  intros Hrun.
  destruct (serial_run_schedule fs _ _ _ _ (serial_spawn fs calls) Hrun)
    as (order & (_ & Hlk & _) & _ & _).
  split_and!.
  - intros i j ci pi cj pj Hi Hj Hci Hcj.
    apply (proj1 Hlk _ _ _ Hi) in Hci. apply (proj1 Hlk _ _ _ Hj) in Hcj. congruence.
  - intros Hall. destruct (lock w) as [i|] eqn:Hl; [|done].
    destruct (proj2 Hlk _ Hl) as [[c p] Hi].
    pose proof (all_returned_lookup _ _ _ _ Hall Hi) as ->.
    apply (proj1 Hlk _ _ _ Hi) in Hl. done.
  - by apply lock_ok_progress.
Qed.

Lemma lock_is_exclusive_and_released_witness :
  let calls := [Call "t1" "a_1" "opened" None (Some "Mail") None;
                Call "t2" "b_2" "opened" None (Some "Mail") None] in
  let fs := {[ data_file "b" := FGarbage ]} : gmap string file in
  exists w,
    run_schedule [1; 1; 1; 1; 0]%nat (spawn fs calls) = Some w
    /\ lock w = Some 0%nat
    /\ exists i w', thread_step i w = Some w'.
Proof.
  intros calls fs.
  destruct (run_schedule [1; 1; 1; 1; 0]%nat (spawn fs calls)) as [w|] eqn:Hrun;
    [|vm_compute in Hrun; discriminate].
  exists w. split; [reflexivity|].
  destruct (lock_is_exclusive_and_released fs calls _ w Hrun) as (_ & _ & Hmove).
  assert (Hw : lock w = Some 0%nat /\ all_returned w = false).
  { vm_compute in Hrun. injection Hrun as <-. by split. }
  split; [apply Hw|]. apply Hmove, Hw.
Defined.

(** X13: every run ends.  From any files and any requests, a schedule has at
    most six statements for each request, and it can always be extended to
    one after which all threads have returned. *)
Theorem every_run_ends (fs : gmap string file) (calls : list call)
    (schedule : list nat) (w : world) :
  run_schedule schedule (spawn fs calls) = Some w ->
  (length schedule <= 6 * length calls)%nat
  /\ exists rest w',
       run_schedule (schedule ++ rest) (spawn fs calls) = Some w'
       /\ all_returned w' = true.
Proof.
  intros Hrun.
  destruct (serial_run_schedule fs _ _ _ _ (serial_spawn fs calls) Hrun)
    as (order & Hs & _ & Hle).
  rewrite measure_spawn in Hle. split; [lia|].
  destruct (serial_completion fs (S (measure w)) w order ltac:(lia) Hs)
    as (rest & w' & Hrest & Hdone).
  exists rest, w'. split; [|done].
  rewrite run_schedule_app, Hrun. done.
Qed.

Lemma every_run_ends_witness :
  let calls := [Call "t1" "a_1" "opened" None (Some "Mail") None;
                Call "t2" "b_2" "opened" None (Some "Mail") None] in
  let fs := {[ data_file "b" := FGarbage ]} : gmap string file in
  exists w,
    run_schedule [1; 1; 1]%nat (spawn fs calls) = Some w
    /\ exists rest w',
         run_schedule ([1; 1; 1]%nat ++ rest) (spawn fs calls) = Some w'
         /\ all_returned w' = true.
Proof.
  intros calls fs.
  destruct (run_schedule [1; 1; 1]%nat (spawn fs calls)) as [w|] eqn:Hrun;
    [|vm_compute in Hrun; discriminate].
  exists w. split; [reflexivity|].
  exact (proj2 (every_run_ends fs calls _ w Hrun)).
Defined.

(** X14: the lock makes the updates serializable.  Whatever the files hold
    and however the statements of the threads interleave, once all threads
    have returned the files are those that running [update_tracking_data]
    for the same requests one after the other, in some order, leaves. *)
Theorem concurrent_updates_are_serializable (fs : gmap string file) (calls : list call)
    (schedule : list nat) (w : world) :
  run_schedule schedule (spawn fs calls) = Some w ->
  all_returned w = true ->
  exists order, order ≡ₚ calls /\ disk w = run_serially order fs.
Proof.
  intros Hrun Hdone.
  destruct (serial_run_schedule fs _ _ _ _ (serial_spawn fs calls) Hrun)
    as (order & (Hperm & Hlk & Hdisk) & Hcalls & _).
  exists order. split.
  - rewrite Hperm, (finished_all_returned w Hdone), Hcalls. by rewrite spawn_calls.
  - destruct (lock w) as [i|] eqn:Hl; [|done].
    destruct Hdisk as (c & p & Hi & Hprog).
    pose proof (all_returned_lookup _ _ _ _ Hdone Hi) as ->.
    unfold in_progress in Hprog. by destruct (call_path c).
Qed.

Lemma concurrent_updates_are_serializable_witness :
  let calls := [Call "t1" "a_1" "opened" None (Some "Mail") None;
                Call "t2" "a_1" "clicked" None (Some "Mail") (Some "https://a.example/")] in
  exists w order,
    run_schedule [1; 1; 1; 1; 1; 1; 0; 0; 0; 0; 0; 0]%nat (spawn ∅ calls) = Some w
    /\ order ≡ₚ calls /\ disk w = run_serially order ∅.
Proof.
  intros calls.
  destruct (run_schedule _ (spawn ∅ calls)) as [w|] eqn:Hrun;
    [|vm_compute in Hrun; discriminate].
  assert (Hdone : all_returned w = true).
  { vm_compute in Hrun. injection Hrun as <-. reflexivity. }
  destruct (concurrent_updates_are_serializable ∅ calls _ w Hrun Hdone)
    as (order & Hperm & Hdisk).
  exists w, order. split; [reflexivity|]. by split.
Defined.

End Serializability.

(** ** The send loop: counters, pauses and settings that stop it *)

Section SendLoopRuns.

Import Email_Campaign_Automation.

Variable cfg : settings.
Variable send_ok : nat -> bool.
Variable entropy : nat -> Z.

Lemma randint_inv a b raw v : randint a b raw = Ok v -> a <= v <= b.
Proof.
  unfold randint. destruct (Z.ltb_spec b a); [done|]. intros [= <-].
  pose proof (Z.mod_pos_bound raw (b - a + 1)). lia.
Qed.

Lemma pause_between_inv total i s s' :
  pause_between cfg entropy total i s = Ok s' ->
  successful_sends s' = successful_sends s
  /\ failed_sends s' = failed_sends s
  /\ exists es,
       trace s' = trace s ++ es
       /\ Forall (in_range cfg) es
       /\ deliveries es = [] /\ skips es = [] /\ batch_breaks es = []
       /\ pauses es = if Z.of_nat i + 1 <? total then [i] else [].
Proof.
  unfold pause_between.
  replace (Z.of_nat i <? total - 1) with (Z.of_nat i + 1 <? total)
    by (destruct (Z.ltb_spec (Z.of_nat i + 1) total),
                 (Z.ltb_spec (Z.of_nat i) (total - 1)); lia).
  destruct (Z.of_nat i + 1 <? total).
  - destruct (randint _ _ _) as [v|e] eqn:Hv; [|done]. simpl.
    destruct (sleep v); [|done]. simpl. intros [= <-]. simpl.
    split; [done|]. split; [done|]. eexists. split; [done|].
    split_and!; try done.
    apply Forall_singleton. simpl. by apply randint_inv in Hv.
  - intros [= <-]. split; [done|]. split; [done|]. exists [].
    rewrite app_nil_r. by split_and!.
Qed.

Lemma pause_after_batch_inv total i s s' :
  pause_after_batch cfg entropy total i s = Ok s' ->
  successful_sends s' = successful_sends s
  /\ failed_sends s' = failed_sends s
  /\ exists es,
       trace s' = trace s ++ es
       /\ Forall (in_range cfg) es
       /\ deliveries es = [] /\ skips es = [] /\ pauses es = []
       /\ (forall j, j ∈ batch_breaks es -> j = i /\ Z.of_nat i + 1 < total).
Proof.
  unfold pause_after_batch.
  destruct (batch_size cfg =? 0); [done|].
  destruct (Z.ltb_spec (Z.of_nat i) (total - 1)) as [Hlt|Hge];
    [|rewrite andb_false_r].
  2:{ intros [= <-]. split; [done|]. split; [done|]. exists [].
      rewrite app_nil_r. split_and!; try done. by intros j ?%elem_of_nil. }
  destruct (_ =? 0); simpl.
  - destruct (randint _ _ _) as [v|e] eqn:Hv; [|done]. simpl.
    destruct (sleep v); [|done]. simpl. intros [= <-]. simpl.
    split; [done|]. split; [done|]. eexists. split; [done|].
    split_and!; try done.
    + apply Forall_singleton. simpl. apply randint_inv in Hv. lia.
    + intros j Hj. apply list_elem_of_singleton in Hj as ->. split; [done|lia].
  - intros [= <-]. split; [done|]. split; [done|]. exists [].
    rewrite app_nil_r. split_and!; try done. by intros j ?%elem_of_nil.
Qed.

Lemma iteration_inv total i l s s' :
  iteration cfg send_ok entropy total i l s = Ok s' ->
  successful_sends s'
    = (successful_sends s + if has_email l && send_ok i then 1 else 0)%nat
  /\ failed_sends s'
     = (failed_sends s + if has_email l && negb (send_ok i) then 1 else 0)%nat
  /\ exists es,
       trace s' = trace s ++ es
       /\ Forall (in_range cfg) es
       /\ deliveries es = (if has_email l then [Dispatched i (send_ok i); Saved i] else [])
       /\ skips es = (if has_email l then [] else [i])
       /\ pauses es = (if has_email l && (Z.of_nat i + 1 <? total) then [i] else [])
       /\ (forall j, j ∈ batch_breaks es -> j ∈ pauses es).
Proof.
  unfold iteration. destruct (has_email l); simpl.
  - destruct (recipient_name l) as [name|e]; [|done]. simpl.
    destruct (if send_ok i then company_name i l else Ok EmptyString)
      as [copy|e]; [|done]. simpl.
    destruct (pause_between _ _ _ _ _) as [s2|e] eqn:H2; [|done]. simpl.
    intros H3.
    apply pause_between_inv in H2 as (Hs2 & Hf2 & es2 & Ht2 & Hr2 & Hd2 & Hk2 & Hb2 & Hp2).
    apply pause_after_batch_inv in H3 as (Hs3 & Hf3 & es3 & Ht3 & Hr3 & Hd3 & Hk3 & Hp3 & Hb3).
    split; [|split].
    + rewrite Hs3, Hs2. destruct (send_ok i); simpl; lia.
    + rewrite Hf3, Hf2. destruct (send_ok i); simpl; lia.
    + exists ([Dispatched i (send_ok i); Saved i] ++ es2 ++ es3).
      split; [|split_and!].
      * rewrite Ht3, Ht2. simpl. rewrite <- !app_assoc.
        by destruct (send_ok i).
      * apply Forall_app. split; [by repeat constructor|]. by apply Forall_app.
      * unfold deliveries in *. rewrite !omap_app, Hd2, Hd3. done.
      * unfold skips in *. rewrite !omap_app, Hk2, Hk3. done.
      * unfold pauses in *. rewrite !omap_app, Hp2, Hp3. simpl.
        by rewrite app_nil_r.
      * unfold pauses, batch_breaks in *. intros j.
        rewrite !omap_app, Hb2, Hp2, Hp3. simpl. rewrite app_nil_r.
        intros [Hj Hlt]%Hb3. subst j.
        destruct (Z.ltb_spec (Z.of_nat i + 1) total); [|lia].
        by apply list_elem_of_singleton.
  - intros [= <-]. simpl. rewrite !Nat.add_0_r.
    split; [done|]. split; [done|]. exists [Skipped i]. split_and!; try done.
    by apply Forall_singleton.
Qed.

Lemma iterate_inv total leads : forall i s s',
  iterate cfg send_ok entropy total i leads s = Ok s' ->
  successful_sends s'
    = (successful_sends s
       + length (filter (fun j => send_ok j = true) (indices_where has_email i leads)))%nat
  /\ failed_sends s'
     = (failed_sends s
        + length (filter (fun j => send_ok j = false) (indices_where has_email i leads)))%nat
  /\ exists es,
       trace s' = trace s ++ es
       /\ Forall (in_range cfg) es
       /\ deliveries es
          = indices_where has_email i leads ≫= (fun j => [Dispatched j (send_ok j); Saved j])
       /\ skips es = indices_where (fun l => negb (has_email l)) i leads
       /\ pauses es
          = filter (fun j => Z.of_nat j + 1 < total) (indices_where has_email i leads)
       /\ (forall j, j ∈ batch_breaks es -> j ∈ pauses es).
Proof.
  induction leads as [|l rest IH]; intros i s s'; simpl.
  - intros [= <-]. rewrite !Nat.add_0_r. split; [done|]. split; [done|].
    exists []. rewrite app_nil_r. by split_and!.
  - destruct (iteration _ _ _ _ _ _ _) as [s1|e] eqn:H1; [|done]. simpl. intros Hrest.
    apply iteration_inv in H1 as (Hs1 & Hf1 & es1 & Ht1 & Hr1 & Hd1 & Hk1 & Hp1 & Hb1).
    apply IH in Hrest as (Hs2 & Hf2 & es2 & Ht2 & Hr2 & Hd2 & Hk2 & Hp2 & Hb2).
    rewrite !filter_app, !length_app.
    split; [|split].
    + rewrite Hs2, Hs1. destruct (has_email l); simpl; [|lia].
      rewrite filter_cons, filter_nil. destruct (send_ok i); simpl; lia.
    + rewrite Hf2, Hf1. destruct (has_email l); simpl; [|lia].
      rewrite filter_cons, filter_nil. destruct (send_ok i); simpl; lia.
    + exists (es1 ++ es2). split; [|split_and!].
      * by rewrite Ht2, Ht1, app_assoc.
      * by apply Forall_app.
      * unfold deliveries in *. rewrite omap_app, Hd1, Hd2, bind_app.
        f_equal. by destruct (has_email l).
      * unfold skips in *. rewrite omap_app, Hk1, Hk2.
        f_equal. by destruct (has_email l).
      * unfold pauses in *. rewrite omap_app, Hp1, Hp2. f_equal.
        destruct (has_email l); simpl; [|done].
        rewrite filter_cons, filter_nil.
        destruct (Z.ltb_spec (Z.of_nat i + 1) total).
        -- by rewrite decide_True.
        -- by rewrite decide_False by lia.
      * unfold pauses, batch_breaks in *. intros j.
        rewrite !omap_app, !elem_of_app. intros [Hj|Hj]; eauto.
Qed.

Lemma length_filter_split (f : nat -> bool) (l : list nat) :
  (length (filter (fun j => f j = true) l) + length (filter (fun j => f j = false) l)
   = length l)%nat.
Proof.
  induction l as [|a l IH]; [done|]. rewrite !filter_cons.
  destruct (f a) eqn:Ha; simpl; lia.
Qed.

(** X15: what a run that returns has done.  The two counters are the
    numbers of mailed leads whose send succeeded and failed, so together
    they count the leads that have an email; every mailed lead is sent to
    and then saved, in the order of the table, whether the send succeeded
    or not, and the other leads are skipped and nothing else. *)
Theorem run_campaign_counts (leads : list lead) (s : run) :
  run_campaign cfg send_ok entropy leads = Ok s ->
  successful_sends s = length (filter (fun j => send_ok j = true) (mailed leads))
  /\ failed_sends s = length (filter (fun j => send_ok j = false) (mailed leads))
  /\ (successful_sends s + failed_sends s = length (mailed leads))%nat
  /\ deliveries (trace s)
     = mailed leads ≫= (fun j => [Dispatched j (send_ok j); Saved j])
  /\ skips (trace s) = indices_where (fun l => negb (has_email l)) 0 leads.
Proof.
  unfold run_campaign, mailed. intros Hrun.
  apply iterate_inv in Hrun as (Hs & Hf & es & Ht & _ & Hd & Hk & _).
  simpl in *. subst es. split_and!; try done.
  rewrite Hs, Hf. apply length_filter_split.
Qed.


Lemma skip_iteration total i l s :
  has_email l = false ->
  iteration cfg send_ok entropy total i l s = Ok (emit [Skipped i] s).
Proof. intros Hl. unfold iteration. by rewrite Hl. Qed.

Lemma iterate_unmailed total leads : forall i s,
  indices_where has_email i leads = [] ->
  exists s', iterate cfg send_ok entropy total i leads s = Ok s'
             /\ successful_sends s' = successful_sends s
             /\ failed_sends s' = failed_sends s
             /\ draws s' = draws s.
Proof.
  induction leads as [|l rest IH]; intros i s; simpl; [eauto|].
  destruct (has_email l) eqn:Hl; [done|]. simpl. intros Hrest.
  rewrite skip_iteration by done. simpl.
  destruct (IH (S i) (emit [Skipped i] s) Hrest) as (s' & -> & ? & ? & ?). eauto.
Qed.

Lemma head_indices_where_ge f leads : forall i i0,
  head (indices_where f i leads) = Some i0 -> (i <= i0)%nat.
Proof.
  induction leads as [|l rest IH]; intros i i0; simpl; [done|].
  destruct (f l); simpl.
  - intros [= <-]. lia.
  - intros Hrest%IH. lia.
Qed.

(** The loop body before the pauses, on a row it gets through. *)
Lemma body_ok i l :
  well_formed (send_ok i) l ->
  exists name copy,
    recipient_name l = Ok name
    /\ (if send_ok i then company_name i l else Ok EmptyString) = Ok copy.
Proof.
  intros [Hcontact Hcompany].
  destruct (recipient_name_ok l Hcontact) as [name ->].
  exists name. destruct (send_ok i); [|eauto].
  destruct (company_name_ok i l (Hcompany eq_refl)) as [copy ->]. eauto.
Qed.

Lemma iterate_zero_batch total leads : forall i s,
  batch_size cfg = 0 ->
  0 <= delay_min cfg <= delay_max cfg ->
  delay_max cfg <= sleep_max ->
  (forall i0 l, head (indices_where has_email i leads) = Some i0 ->
     leads !! (i0 - i)%nat = Some l -> well_formed (send_ok i0) l) ->
  indices_where has_email i leads <> [] ->
  iterate cfg send_ok entropy total i leads s = Raise ZeroDivisionError.
Proof.
  induction leads as [|l rest IH]; intros i s Hb Hd Hmax; simpl; [done|].
  destruct (has_email l) eqn:Hl; simpl.
  - intros Hwf _. unfold iteration. rewrite Hl. simpl.
    destruct (body_ok i l) as (name & copy & -> & ->).
    { apply Hwf; [done|]. by rewrite Nat.sub_diag. }
    simpl.
    assert (Hp : exists s2, pause_between cfg entropy total i
                   (emit [Dispatched i (send_ok i); Saved i] (tally (send_ok i) s)) = Ok s2).
    { unfold pause_between. destruct (_ <? _); [|eauto].
      destruct (randint_ok (delay_min cfg) (delay_max cfg) (entropy (draws
                  (emit [Dispatched i (send_ok i); Saved i] (tally (send_ok i) s)))))
        as (v & -> & Hv); [lia|].
      simpl. rewrite sleep_ok by lia. simpl. eauto. }
    destruct Hp as [s2 ->]. simpl.
    unfold pause_after_batch. by rewrite Hb.
  - intros Hwf Hrest. rewrite skip_iteration by done. simpl.
    apply IH; try done.
    intros i0 l' Hhead Hl'. apply Hwf; [done|].
    apply head_indices_where_ge in Hhead.
    replace (i0 - i)%nat with (S (i0 - S i)) by lia. done.
Qed.

(** X17: a batch size of zero.  With [BATCH_SIZE=0], ordered delays that
    [time.sleep] can take, and a first mailed row the loop body gets
    through, the run raises [ZeroDivisionError] as soon as one lead has an
    email (the modulo is evaluated before the test on the last index); a
    table without any email address is still run through, with both
    counters at zero. *)
Theorem zero_batch_size_stops_the_campaign (leads : list lead) :
  batch_size cfg = 0 ->
  0 <= delay_min cfg <= delay_max cfg ->
  delay_max cfg <= sleep_max ->
  (forall i0 l, head (mailed leads) = Some i0 -> leads !! i0 = Some l ->
     well_formed (send_ok i0) l) ->
  (mailed leads <> [] ->
     run_campaign cfg send_ok entropy leads = Raise ZeroDivisionError)
  /\ (mailed leads = [] ->
      exists s, run_campaign cfg send_ok entropy leads = Ok s
                /\ successful_sends s = 0%nat /\ failed_sends s = 0%nat).
Proof.
  intros Hb Hd Hmax Hwf. unfold run_campaign, mailed in *. split.
  - apply iterate_zero_batch; try done.
    intros i0 l Hhead Hl. rewrite Nat.sub_0_r in Hl. by apply Hwf.
  - intros Hnone.
    destruct (iterate_unmailed (Z.of_nat (length leads)) leads 0 (Run 0 0 0 []) Hnone)
      as (s & Hs & ? & ? & _).
    by exists s.
Qed.

Lemma iterate_inverted_delays total leads : forall i s i0 l0,
  delay_max cfg < delay_min cfg ->
  head (indices_where has_email i leads) = Some i0 ->
  Z.of_nat i0 + 1 < total ->
  leads !! (i0 - i)%nat = Some l0 ->
  well_formed (send_ok i0) l0 ->
  iterate cfg send_ok entropy total i leads s = Raise ValueError.
Proof.
  induction leads as [|l rest IH]; intros i s i0 l0 Hd; simpl; [done|].
  destruct (has_email l) eqn:Hl; simpl.
  - intros [= <-] Hlt. rewrite Nat.sub_diag. intros [= <-] Hwf.
    unfold iteration. rewrite Hl. simpl.
    destruct (body_ok i l Hwf) as (name & copy & -> & ->). simpl.
    unfold pause_between.
    destruct (Z.ltb_spec (Z.of_nat i) (total - 1)); [|lia].
    unfold randint. destruct (Z.ltb_spec (delay_max cfg) (delay_min cfg)); [done|lia].
  - intros Hhead Hlt Hl0 Hwf. rewrite skip_iteration by done. simpl.
    apply (IH _ _ i0 l0); try done.
    apply head_indices_where_ge in Hhead.
    by replace (i0 - i)%nat with (S (i0 - S i)) in Hl0 by lia.
Qed.

(** X18: inverted delays.  With [DELAY_MAX < DELAY_MIN] the run raises
    [ValueError] at the first pause, that is as soon as the first lead that
    has an email is not at the last index of the table, when the loop body
    gets through the row of that lead. *)
Theorem inverted_delays_stop_the_campaign (leads : list lead) (i0 : nat) (l0 : lead) :
  delay_max cfg < delay_min cfg ->
  head (mailed leads) = Some i0 ->
  (i0 + 1 < length leads)%nat ->
  leads !! i0 = Some l0 ->
  well_formed (send_ok i0) l0 ->
  run_campaign cfg send_ok entropy leads = Raise ValueError.
Proof.
  intros Hd Hhead Hlt Hl0 Hwf. unfold run_campaign.
  apply (iterate_inverted_delays _ _ _ _ i0 l0); try done; [lia|].
  by rewrite Nat.sub_0_r.
Qed.

End SendLoopRuns.

Section SendLoopExamples.

Import Email_Campaign_Automation.

Lemma run_campaign_counts_witness :
  exists s,
    run_campaign (Settings 2 1 3) Nat.even Z.of_nat [ann; bob; ann; ann] = Ok s
    /\ successful_sends s = 2%nat /\ failed_sends s = 1%nat
    /\ skips (trace s) = [1%nat].
Proof.
  destruct (run_campaign (Settings 2 1 3) Nat.even Z.of_nat [ann; bob; ann; ann])
    as [s|e] eqn:Hrun; [|vm_compute in Hrun; discriminate].
  destruct (run_campaign_counts _ _ _ _ s Hrun) as (Hs & Hf & _ & _ & Hk).
  exists s. split; [reflexivity|]. rewrite Hs, Hf, Hk. by vm_compute.
Defined.


Lemma zero_batch_size_stops_the_campaign_witness :
  run_campaign (Settings 0 1 3) Nat.even Z.of_nat [bob; ann] = Raise ZeroDivisionError.
Proof.
  apply (zero_batch_size_stops_the_campaign (Settings 0 1 3) Nat.even Z.of_nat [bob; ann]).
  - reflexivity.
  - simpl. lia.
  - done.
  - intros i0 l [= <-] [= <-]. by split.
  - discriminate.
Defined.

Lemma inverted_delays_stop_the_campaign_witness :
  run_campaign (Settings 2 5 1) Nat.even Z.of_nat [bob; ann; bob] = Raise ValueError.
Proof.
  apply (inverted_delays_stop_the_campaign (Settings 2 5 1) Nat.even Z.of_nat
           [bob; ann; bob] 1%nat ann).
  - simpl. lia.
  - reflexivity.
  - simpl. lia.
  - reflexivity.
  - by split.
Defined.

End SendLoopExamples.

(** ** The campaign script: the tracking data it keeps and its report *)

Section CampaignReport.

Import tracking_server EmailCampaign.

Lemma dict_get_set_eq key v d : dict_get key (dict_set key v d) = Some v.
Proof.
  induction d as [|[k v0] d IH]; simpl.
  - by rewrite String.eqb_refl.
  - destruct (String.eqb k key) eqn:Hk; simpl; by rewrite Hk.
Qed.

Lemma Forall_dict_set (P : gmap string value -> Prop) key v d :
  P v -> Forall P d.*2 -> Forall P (dict_set key v d).*2.
Proof.
  intros Hv. induction d as [|[k v0] d IH]; simpl.
  - intros _. by repeat constructor.
  - intros [H0 Hd]%Forall_cons. destruct (String.eqb k key); simpl.
    + by constructor.
    + constructor; [done|]. by apply IH.
Qed.

Lemma dict_get_Forall (P : gmap string value -> Prop) key d e :
  dict_get key d = Some e -> Forall P d.*2 -> P e.
Proof.
  induction d as [|[k v0] d IH]; simpl; [done|].
  intros Hget [H0 Hd]%Forall_cons. destruct (String.eqb k key).
  - by injection Hget as <-.
  - by apply IH.
Qed.

Lemma length_dict_set key v d : (length (dict_set key v d) <= S (length d))%nat.
Proof.
  induction d as [|[k v0] d IH]; simpl; [lia|].
  destruct (String.eqb k key); simpl; lia.
Qed.

Lemma length_dict_set_twice key v v' d :
  length (dict_set key v' (dict_set key v d)) = length (dict_set key v d).
Proof.
  induction d as [|[k v0] d IH]; simpl.
  - by rewrite String.eqb_refl.
  - destruct (String.eqb k key) eqn:Hk; simpl; rewrite Hk; simpl; [done|].
    by rewrite IH.
Qed.

Lemma unopened_new_entry f : unopened (new_entry f).
Proof. unfold unopened, new_entry. split_and!; [by eexists|done|done]. Qed.

Lemma unopened_stamped now e :
  unopened e ->
  unopened (<["last_activity" := VStr now]> (<["sent_time" := VStr now]> e)).
Proof.
  intros (_ & Ho & Hk). split_and!.
  - rewrite lookup_insert_ne by done. rewrite lookup_insert_eq. by eexists.
  - by rewrite !lookup_insert_ne by done.
  - by rewrite !lookup_insert_ne by done.
Qed.

Lemma bookkeep_ok m d :
  Forall unopened d.*2 ->
  exists d', bookkeep m d = Ok d'
             /\ Forall unopened d'.*2
             /\ (length d' <= S (length d))%nat.
Proof.
  intros Hd. unfold bookkeep.
  pose proof (Forall_dict_set unopened (tracking_id m) (new_entry (fields m)) d
                (unopened_new_entry _) Hd) as Hd1.
  pose proof (length_dict_set (tracking_id m) (new_entry (fields m)) d) as Hl1.
  destruct (success m); [|eauto].
  unfold mark_sent. rewrite dict_get_set_eq. eexists. split; [done|]. split.
  - apply Forall_dict_set; [|done]. apply unopened_stamped, unopened_new_entry.
  - by rewrite length_dict_set_twice.
Qed.

Lemma bookkeep_all_ok ms : forall d,
  Forall unopened d.*2 ->
  exists d', bookkeep_all ms d = Ok d'
             /\ Forall unopened d'.*2
             /\ (length d' <= length ms + length d)%nat.
Proof.
  induction ms as [|m ms IH]; intros d Hd; simpl.
  - exists d. split_and!; [done|done|lia].
  - destruct (bookkeep_ok m d Hd) as (d1 & -> & Hd1 & Hl1). simpl.
    destruct (IH d1 Hd1) as (d' & -> & Hd' & Hl').
    exists d'. split_and!; [done|done|lia].
Qed.

Lemma item_Ok key data v : item key data = Ok v <-> data !! key = Some v.
Proof. unfold item. destruct (data !! key); split; congruence. Qed.

Lemma count_where_bounds key values : forall n,
  count_where key values = Ok n -> 0 <= n <= Z.of_nat (length values).
Proof.
  induction values as [|data rest IH]; intros n; simpl.
  - intros [= <-]. lia.
  - destruct (item key data) as [v|]; [|done]. simpl.
    destruct (count_where key rest) as [m|]; [|done]. simpl.
    intros [= <-]. specialize (IH m eq_refl). destruct (truthy v); lia.
Qed.

Lemma count_where_flag_false key values :
  Forall (fun e => e !! key = Some (VBool false)) values ->
  count_where key values = Ok 0.
Proof.
  induction 1 as [|data rest Hd _ IH]; simpl; [done|].
  unfold item. by rewrite Hd, IH.
Qed.

Lemma count_where_present key values :
  Forall (fun e => is_Some (e !! key)) values ->
  exists n, count_where key values = Ok n.
Proof.
  induction 1 as [|data rest [v Hd] _ [n IH]]; simpl; [eauto|].
  unfold item. rewrite Hd, IH. simpl. eauto.
Qed.

Lemma hot_unopened values : Forall unopened values -> hot values = Ok [].
Proof.
  induction 1 as [|data rest (_ & _ & Hk) _ IH]; simpl; [done|].
  unfold item. by rewrite Hk.
Qed.

Lemma warm_unopened values : Forall unopened values -> warm values = Ok [].
Proof.
  induction 1 as [|data rest (_ & Ho & _) _ IH]; simpl; [done|].
  unfold item. by rewrite Ho.
Qed.

(** The run keeps a dictionary from which the report can be made. *)
Lemma report_shape (campaign now : string) (ms : list mailing) :
  exists d r,
    bookkeep_all ms [] = Ok d
    /\ generate_campaign_report campaign now d = Ok r
    /\ Forall unopened d.*2
    /\ (length d <= length ms)%nat.
Proof.
  destruct (bookkeep_all_ok ms [] (Forall_nil_2 _)) as (d & Hd & Hall & Hlen).
  assert (Hsent : exists n, count_where "sent_time" d.*2 = Ok n).
  { apply count_where_present. eapply Forall_impl; [exact Hall|]. by intros e (? & _). }
  destruct Hsent as [n Hn].
  exists d. eexists. split; [done|]. unfold generate_campaign_report.
  rewrite Hn. simpl.
  rewrite (count_where_flag_false "opened")
    by (eapply Forall_impl; [exact Hall|]; by intros e (_ & ? & _)).
  rewrite (count_where_flag_false "clicked")
    by (eapply Forall_impl; [exact Hall|]; by intros e (_ & _ & ?)).
  simpl. rewrite hot_unopened, warm_unopened by done. simpl.
  split; [done|]. split; [done|]. simpl in Hlen. lia.
Qed.

(** X19: the report of a finished run shows no activity.  Whatever leads
    were mailed and whichever sends succeeded, the dictionary the script
    keeps in memory is only written by [_prepare_email] and by the two
    stamps of a successful send, so the report made from it right after
    the run counts no open and no click, lists no hot and no warm lead, and
    has the integer 0 for the click-to-open rate; the emails sent are at
    most the entries, which are at most the mailed leads. *)
Theorem report_after_run_shows_no_activity (campaign now : string) (ms : list mailing) :
  exists d r,
    bookkeep_all ms [] = Ok d
    /\ generate_campaign_report campaign now d = Ok r
    /\ emails_opened r = 0
    /\ links_clicked r = 0
    /\ hot_leads r = []
    /\ warm_leads r = []
    /\ click_to_open_rate r = PyInt 0
    /\ 0 <= emails_sent r <= total_leads r
    /\ total_leads r <= Z.of_nat (length ms).
Proof.
  destruct (bookkeep_all_ok ms [] (Forall_nil_2 _)) as (d & Hd & Hall & Hlen).
  assert (Hsent : exists n, count_where "sent_time" d.*2 = Ok n).
  { apply count_where_present. eapply Forall_impl; [exact Hall|]. by intros e (? & _). }
  destruct Hsent as [n Hn].
  exists d. eexists. split; [done|]. unfold generate_campaign_report.
  rewrite Hn. simpl.
  rewrite (count_where_flag_false "opened")
    by (eapply Forall_impl; [exact Hall|]; by intros e (_ & ? & _)).
  rewrite (count_where_flag_false "clicked")
    by (eapply Forall_impl; [exact Hall|]; by intros e (_ & _ & ?)).
  simpl. rewrite hot_unopened, warm_unopened by done. simpl.
  split; [done|]. simpl. split_and!; try done.
  - apply count_where_bounds in Hn. lia.
  - apply count_where_bounds in Hn. rewrite length_fmap in Hn. lia.
  - simpl in Hlen. lia.
Qed.

Lemma summary_flags data s :
  summary data = Ok s ->
  data !! "opened" = Some (summary_opened s)
  /\ data !! "clicked" = Some (summary_clicked s).
Proof.
  unfold summary.
  destruct (item "company" data); [|done]. simpl.
  destruct (item "contact" data); [|done]. simpl.
  destruct (item "email" data); [|done]. simpl.
  destruct (item "opened" data) as [o|] eqn:Ho; [|done]. simpl.
  destruct (item "clicked" data) as [k|] eqn:Hk; [|done]. simpl.
  intros [= <-]. simpl. by rewrite <- !item_Ok.
Qed.

Lemma hot_inv values : forall l,
  hot values = Ok l ->
  count_where "clicked" values = Ok (Z.of_nat (length l))
  /\ Forall (fun s => truthy (summary_clicked s) = true) l.
Proof.
  induction values as [|data rest IH]; intros l; simpl.
  - by intros [= <-].
  - destruct (item "clicked" data) as [k|] eqn:Hk; [|done]. simpl.
    destruct (truthy k) eqn:Htk.
    + destruct (summary data) as [s|] eqn:Hs; [|done]. simpl.
      destruct (hot rest) as [l'|]; [|done]. simpl. intros [= <-].
      destruct (IH l' eq_refl) as [-> Hall]. simpl. split.
      * f_equal. lia.
      * constructor; [|done].
        apply summary_flags in Hs as [_ Hs]. apply item_Ok in Hk. congruence.
    + intros Hrest. destruct (IH l Hrest) as [-> Hall]. simpl. split; [|done].
      f_equal.
Qed.

Lemma warm_inv values : forall l,
  warm values = Ok l ->
  Forall (fun s => truthy (summary_opened s) = true
                   /\ truthy (summary_clicked s) = false) l
  /\ (forall n, count_where "opened" values = Ok n -> Z.of_nat (length l) <= n)
  /\ (forall h, hot values = Ok h -> (length h + length l <= length values)%nat).
Proof.
  induction values as [|data rest IH]; intros l; simpl.
  - intros [= <-]. split_and!; [done|intros n [= <-]; simpl; lia|].
    intros h [= <-]. simpl. lia.
  - destruct (item "opened" data) as [o|] eqn:Ho; [|done]. simpl.
    destruct (truthy o) eqn:Hto.
    + destruct (item "clicked" data) as [k|] eqn:Hk; [|done]. simpl.
      destruct (truthy k) eqn:Htk; simpl.
      * intros Hrest. destruct (IH l Hrest) as (Hall & Hcount & Hhot).
        split_and!; [done|..].
        -- intros n. destruct (count_where "opened" rest) as [m|]; [|done].
           simpl. intros [= <-]. specialize (Hcount m eq_refl). lia.
        -- intros h. destruct (summary data); [|done]. simpl.
           destruct (hot rest) as [h'|]; [|done]. simpl. intros [= <-].
           specialize (Hhot h' eq_refl). simpl. lia.
      * destruct (summary data) as [s|] eqn:Hs; [|done]. simpl.
        destruct (warm rest) as [l'|]; [|done]. simpl. intros [= <-].
        destruct (IH l' eq_refl) as (Hall & Hcount & Hhot).
        apply summary_flags in Hs as [Hso Hsk].
        apply item_Ok in Ho, Hk.
        split_and!.
        -- constructor; [|done]. split; congruence.
        -- intros n. destruct (count_where "opened" rest) as [m|]; [|done].
           simpl. intros [= <-]. specialize (Hcount m eq_refl). simpl length. lia.
        -- intros h Hh. specialize (Hhot h Hh). simpl. lia.
    + simpl. intros Hrest. destruct (IH l Hrest) as (Hall & Hcount & Hhot).
      split_and!; [done|..].
      * intros n. destruct (count_where "opened" rest) as [m|]; [|done].
        simpl. intros [= <-]. specialize (Hcount m eq_refl). lia.
      * intros h. destruct (item "clicked" data) as [k|]; [|done]. simpl.
        destruct (truthy k).
        -- destruct (summary data); [|done]. simpl.
           destruct (hot rest) as [h'|]; [|done]. simpl. intros [= <-].
           specialize (Hhot h' eq_refl). simpl. lia.
        -- intros Hh. specialize (Hhot h Hh). lia.
Qed.

(** X20: the lists of the report.  Whenever the report is produced, the
    hot leads are as many as the clicked entries and each has its clicked
    flag set, every warm lead is opened and not clicked and they are at
    most the opened entries, and hot and warm leads together are at most
    the entries: no lead is in both lists.  All counts lie between 0 and
    the number of entries. *)
Theorem report_lead_lists (campaign now : string) (d : tracking_data) (r : report) :
  generate_campaign_report campaign now d = Ok r ->
  total_leads r = Z.of_nat (length d)
  /\ 0 <= emails_sent r <= total_leads r
  /\ 0 <= emails_opened r <= total_leads r
  /\ Z.of_nat (length (hot_leads r)) = links_clicked r
  /\ Z.of_nat (length (warm_leads r)) <= emails_opened r
  /\ (length (hot_leads r) + length (warm_leads r) <= length d)%nat
  /\ Forall (fun s => truthy (summary_clicked s) = true) (hot_leads r)
  /\ Forall (fun s => truthy (summary_opened s) = true
                      /\ truthy (summary_clicked s) = false) (warm_leads r).
Proof.
  unfold generate_campaign_report.
  destruct (count_where "sent_time" d.*2) as [ns|] eqn:Hns; [|done]. simpl.
  destruct (count_where "opened" d.*2) as [no|] eqn:Hno; [|done]. simpl.
  destruct (count_where "clicked" d.*2) as [nk|] eqn:Hnk; [|done]. simpl.
  destruct (hot d.*2) as [h|] eqn:Hh; [|done]. simpl.
  destruct (warm d.*2) as [w|] eqn:Hw; [|done]. simpl.
  intros [= <-]. simpl.
  apply count_where_bounds in Hns. apply count_where_bounds in Hno as Hno'.
  rewrite length_fmap in Hns, Hno'.
  destruct (hot_inv _ _ Hh) as [Hk Hhot]. rewrite Hnk in Hk. injection Hk as ->.
  destruct (warm_inv _ _ Hw) as (Hwarm & Hcount & Hboth).
  specialize (Hcount no Hno). specialize (Hboth h Hh). rewrite length_fmap in Hboth.
  split_and!; try done; lia.
Qed.

Lemma report_lead_lists_witness :
  exists r,
    generate_campaign_report "c" "2025-01-02T00:00:00" mixed_data = Ok r
    /\ length (hot_leads r) = 1%nat /\ length (warm_leads r) = 1%nat
    /\ links_clicked r = 1 /\ emails_opened r = 2.
Proof.
  destruct (generate_campaign_report "c" "2025-01-02T00:00:00" mixed_data)
    as [r|e] eqn:Hr; [|vm_compute in Hr; discriminate].
  destruct (report_lead_lists _ _ _ r Hr) as (_ & _ & _ & Hhot & _ & _ & _ & _).
  exists r. split; [reflexivity|]. rewrite <- Hhot.
  vm_compute in Hr. injection Hr as <-. simpl. done.
Defined.

Lemma dict_set_fresh key v (d : tracking_data) :
  key ∉ d.*1 -> dict_set key v d = d ++ [(key, v)].
Proof.
  induction d as [|[k v0] d IH]; simpl; [done|].
  rewrite not_elem_of_cons. intros [Hne Hd].
  destruct (String.eqb_spec k key); [done|]. by rewrite IH.
Qed.

Lemma dict_set_last key v v' (d : tracking_data) :
  key ∉ d.*1 -> dict_set key v' (d ++ [(key, v)]) = d ++ [(key, v')].
Proof.
  induction d as [|[k v0] d IH]; simpl.
  - by rewrite String.eqb_refl.
  - rewrite not_elem_of_cons. intros [Hne Hd].
    destruct (String.eqb_spec k key); [done|]. by rewrite IH.
Qed.

Lemma bookkeep_fresh m (d : tracking_data) :
  tracking_id m ∉ d.*1 ->
  bookkeep m d = Ok (d ++ [(tracking_id m, kept_entry m)]).
Proof.
  intros Hd. unfold bookkeep, kept_entry, mark_sent.
  destruct (success m); [|by rewrite dict_set_fresh].
  rewrite dict_get_set_eq.
  rewrite (dict_set_fresh _ (new_entry (fields m))) by done.
  by rewrite dict_set_last.
Qed.

Lemma bookkeep_all_fresh ms : forall d : tracking_data,
  NoDup (d.*1 ++ (tracking_id <$> ms)) ->
  bookkeep_all ms d = Ok (d ++ ((fun m => (tracking_id m, kept_entry m)) <$> ms)).
Proof.
  induction ms as [|m ms IH]; intros d; simpl.
  - intros _. by rewrite app_nil_r.
  - intros Hnd. rewrite bookkeep_fresh.
    2:{ apply NoDup_app in Hnd as (_ & Hnot & _). intros Hin.
        apply (Hnot _ Hin). by left. }
    simpl. rewrite IH.
    + by rewrite <- app_assoc.
    + rewrite fmap_app. simpl. by rewrite <- app_assoc.
Qed.

Lemma count_sent_kept ms :
  Forall (fun m => current_time m <> "") ms ->
  count_where "sent_time" (kept_entry <$> ms)
    = Ok (Z.of_nat (length (filter (fun m => success m = true) ms))).
Proof.
  induction 1 as [|m ms Hm _ IH]; [done|].
  rewrite fmap_cons. simpl count_where. rewrite IH. rewrite filter_cons.
  unfold kept_entry, item. destruct (success m) eqn:Hs; simpl.
  - rewrite lookup_insert_ne by done. rewrite lookup_insert_eq. simpl.
    destruct (current_time m); [done|]. simpl. f_equal. lia.
  - done.
Qed.

(** X21: the report agrees with the counter of the run.  When the
    identifiers of the mailed leads are distinct and the time stamps are
    not empty, the report made right after the run has one entry for each
    mailed lead, in the order of the table, and its [emails_sent] is the
    number of sends that succeeded. *)
Theorem report_counts_successful_sends (campaign now : string) (ms : list mailing) :
  NoDup (tracking_id <$> ms) ->
  Forall (fun m => current_time m <> "") ms ->
  exists d r,
    bookkeep_all ms [] = Ok d
    /\ d.*1 = tracking_id <$> ms
    /\ generate_campaign_report campaign now d = Ok r
    /\ total_leads r = Z.of_nat (length ms)
    /\ emails_sent r = Z.of_nat (length (filter (fun m => success m = true) ms)).
Proof.
  intros Hnd Htimes.
  destruct (report_shape campaign now ms) as (d & r & Hd & Hr & _).
  exists d, r. rewrite bookkeep_all_fresh in Hd by done. simpl in Hd.
  injection Hd as <-. split; [by rewrite bookkeep_all_fresh|].
  split; [by rewrite <- list_fmap_compose|]. split; [done|].
  unfold generate_campaign_report in Hr.
  rewrite <- list_fmap_compose in Hr.
  change (snd ∘ _) with kept_entry in Hr.
  rewrite count_sent_kept in Hr by done. simpl in Hr.
  destruct (count_where "opened" _); [|done]. simpl in Hr.
  destruct (count_where "clicked" _); [|done]. simpl in Hr.
  destruct (hot _); [|done]. simpl in Hr.
  destruct (warm _); [|done]. simpl in Hr.
  injection Hr as <-. simpl. by rewrite length_fmap.
Qed.

Lemma report_counts_successful_sends_witness :
  exists d r,
    bookkeep_all three_mailings [] = Ok d
    /\ generate_campaign_report "20250101120000" "2025-01-01T12:05:00" d = Ok r
    /\ total_leads r = 3 /\ emails_sent r = 2.
Proof.
  assert (Hnd : NoDup (tracking_id <$> three_mailings)).
  { apply (bool_decide_unpack (NoDup (tracking_id <$> three_mailings))). by vm_compute. }
  assert (Htimes : Forall (fun m => current_time m <> "") three_mailings).
  { unfold three_mailings. by repeat constructor. }
  destruct (report_counts_successful_sends "20250101120000" "2025-01-01T12:05:00"
              three_mailings Hnd Htimes) as (d & r & Hd & _ & Hr & Hn & Hs).
  exists d, r. split; [exact Hd|]. split; [exact Hr|]. rewrite Hn, Hs. by vm_compute.
Defined.

End CampaignReport.

(** ** The campaign file and the two servers *)

Section TwoServers.

Import Regex tracking_server EmailCampaign.

Lemma to_json_lookup tid (d : tracking_data) :
  to_json d !! tid = RDict <$> dict_get tid d.
Proof.
  unfold to_json. induction d as [|[k v] d IH]; simpl; [done|].
  destruct (String.eqb_spec k tid) as [->|Hne].
  - by rewrite lookup_insert_eq.
  - by rewrite lookup_insert_ne.
Qed.

Lemma generated_head campaign lead uuid :
  PyStr.count "_" campaign = 0%nat ->
  head (PyStr.split "_"
          (Email_Campaign_Automation._generate_tracking_id campaign lead uuid))
    = Some campaign.
Proof.
  intros Hc. unfold Email_Campaign_Automation._generate_tracking_id.
  by apply split_head_app.
Qed.

(** X22: the generated server records an open of a mailed lead.  For a
    campaign identifier without underscore, a request for the identifier
    [_generate_tracking_id] gave a lead reaches the file
    [_save_tracking_data] wrote, and the server
    [setup_tracking_server] writes sets the flag and the activity stamp in
    the entry of that lead; all the rest of the file, and every other
    file, is as the campaign script left it. *)
Theorem generated_server_records_the_open (campaign lead uuid now action : string)
    (d : tracking_data) (e : gmap string value) (fs : gmap string file) :
  PyStr.count "_" campaign = 0%nat ->
  dict_get (Email_Campaign_Automation._generate_tracking_id campaign lead uuid) d = Some e ->
  generated_tracking_server.update_tracking_data now
    (Email_Campaign_Automation._generate_tracking_id campaign lead uuid) action
    (_save_tracking_data campaign d fs)
  = Ok (<[tracking_file campaign :=
            FJson (<[Email_Campaign_Automation._generate_tracking_id campaign lead uuid :=
                       RDict (<["last_activity" := VStr now]> (<[action := VBool true]> e))]>
                     (to_json d))]> fs).
Proof.
  intros Hc He. unfold generated_tracking_server.update_tracking_data.
  rewrite generated_head by done.
  change (generated_tracking_server.data_file campaign) with (tracking_file campaign).
  unfold _save_tracking_data. rewrite lookup_insert_eq.
  unfold generated_tracking_server.update_file.
  rewrite to_json_lookup, He. simpl. by rewrite insert_insert_eq.
Qed.

Lemma generated_server_records_the_open_witness :
  let tid := Email_Campaign_Automation._generate_tracking_id "20250101120000" "0" "aaaaaaaabbbb" in
  let e := new_entry (LeadFields (VStr "0") (VStr "Acme") (VStr "Ann Lee")
                        (VStr "ann@acme.example")) in
  PyStr.count "_" "20250101120000" = 0%nat
  /\ generated_tracking_server.update_tracking_data "2025-01-01T13:00:00" tid "opened"
       (_save_tracking_data "20250101120000" [(tid, e)] ∅)
     = Ok (<[tracking_file "20250101120000" :=
               FJson (<[tid := RDict (<["last_activity" := VStr "2025-01-01T13:00:00"]>
                                        (<["opened" := VBool true]> e))]>
                        (to_json [(tid, e)]))]> ∅).
Proof.
  intros tid e. split; [reflexivity|].
  apply (generated_server_records_the_open "20250101120000" "0" "aaaaaaaabbbb").
  - reflexivity.
  - cbn [dict_get]. by rewrite String.eqb_refl.
Defined.

Lemma paths_differ campaign campaign' :
  tracking_file campaign <> data_file campaign'.
Proof. unfold tracking_file, data_file, TRACKING_DATA_DIR. by rewrite !str_app_cons. Qed.

(** X23: the server of the repository and the campaign script do not share
    a file.  No pixel or click request, for whichever identifier, changes
    the file [_save_tracking_data] writes, and on files that hold only
    what the campaign script saved the statistics endpoint never answers
    200: the server keeps its files under [tracking_data/], the script
    writes in the working directory. *)
Theorem enhanced_server_misses_campaign_file (urlparse : string -> option url_parts)
    (redirect : string -> option response)
    (now : string) (req : request) (tid campaign : string) (st : server)
    (d : tracking_data) (campaign' : string) (pixel : bool) (l : list log_record) :
  files (track_open now req tid st).2 !! tracking_file campaign
    = files st !! tracking_file campaign
  /\ files (track_click urlparse redirect now req tid st).2 !! tracking_file campaign
     = files st !! tracking_file campaign
  /\ (status_code
        (campaign_stats campaign' (Server (_save_tracking_data campaign d ∅) pixel l)).1 = 400
      \/ status_code
           (campaign_stats campaign' (Server (_save_tracking_data campaign d ∅) pixel l)).1 = 404).
Proof.
  destruct (split_head_is_Some tid) as [c Hc].
  split_and!.
  - rewrite files_track_open. destruct (is_valid_tracking_id tid); [|done].
    apply (updated_files_elsewhere _ _ _ _ _ _ _ c); [done|apply paths_differ].
  - rewrite files_track_click. destruct (is_valid_tracking_id tid); [|done].
    apply (updated_files_elsewhere _ _ _ _ _ _ _ c); [done|apply paths_differ].
  - unfold campaign_stats.
    destruct (py_match_anchored CAMPAIGN_ID_PATTERN campaign'); simpl; [|by left].
    unfold _save_tracking_data.
    rewrite lookup_insert_ne by apply paths_differ.
    rewrite lookup_empty. by right.
Qed.

(** X24: the generated server only sets flags.  Whatever the files hold, an
    update returns, creates and deletes no file, leaves every file with the
    identifiers it had, and in an entry changes at most the key of the
    action and the activity stamp: it never adds an entry and never records
    an event. *)
Theorem generated_server_only_sets_flags (now tid action : string) (fs : gmap string file) :
  exists fs',
    generated_tracking_server.update_tracking_data now tid action fs = Ok fs'
    /\ dom fs' = dom fs
    /\ forall p d', fs' !! p = Some (FJson d') ->
         exists d, fs !! p = Some (FJson d)
                   /\ dom d' = dom d
                   /\ forall t e', d' !! t = Some (RDict e') ->
                        exists e, d !! t = Some (RDict e)
                                  /\ forall key, key <> action -> key <> "last_activity" ->
                                       e' !! key = e !! key.
Proof.
  assert (Hsame : forall p d', fs !! p = Some (FJson d') ->
            exists d, fs !! p = Some (FJson d)
                      /\ dom d' = dom d
                      /\ forall t e', d' !! t = Some (RDict e') ->
                           exists e, d !! t = Some (RDict e)
                                     /\ forall key, key <> action -> key <> "last_activity" ->
                                          e' !! key = e !! key).
  { intros p d' Hp. exists d'. split_and!; [done|done|]. intros t e' Ht. by exists e'. }
  unfold generated_tracking_server.update_tracking_data.
  destruct (split_head_is_Some tid) as [c ->].
  destruct (fs !! generated_tracking_server.data_file c) as [f|] eqn:Hf; [|eauto].
  unfold generated_tracking_server.update_file.
  destruct f as [d| |]; [|eauto..].
  destruct (d !! tid) as [[e|v]|] eqn:Hd; [|eauto..].
  eexists. split; [done|]. split.
  - rewrite dom_insert_L. apply elem_of_dom_2 in Hf.
    apply subseteq_union_1_L. by apply singleton_subseteq_l.
  - intros p d'. destruct (decide (p = generated_tracking_server.data_file c)) as [->|Hp].
    + rewrite lookup_insert_eq. intros [= <-]. exists d. split_and!; [done|..].
      * rewrite dom_insert_L. apply elem_of_dom_2 in Hd.
        apply subseteq_union_1_L. by apply singleton_subseteq_l.
      * intros t e'. destruct (decide (t = tid)) as [->|Ht].
        -- rewrite lookup_insert_eq. intros [= <-]. exists e. split; [done|].
           intros key Hk1 Hk2. by rewrite !lookup_insert_ne by done.
        -- rewrite lookup_insert_ne by done. intros Ht'. by exists e'.
    + rewrite lookup_insert_ne by done. apply Hsame.
Qed.

End TwoServers.

(** ** Requests and the statistics: the counts only grow *)

Section MonotoneStatistics.

Import Regex tracking_server.

(** The store of a campaign after an update: as it was, or with the touched
    entry of the identifier put in. *)
Lemma store_after_update now tid action ip ua url fs campaign d :
  fs !! data_file campaign = Some (FJson d) ->
  updated_files now tid action ip ua url fs !! data_file campaign = Some (FJson d)
  \/ exists e l,
       (d !! tid = Some (RDict e) \/ (d !! tid = None /\ e = shell_entry now))
       /\ updated_files now tid action ip ua url fs !! data_file campaign
          = Some (FJson (<[tid := RDict (touched now action
                                           (event_data now action ip ua url) e l)]> d)).
Proof.
  intros Hf. destruct (split_head_is_Some tid) as [c Hc].
  destruct (decide (data_file campaign = data_file c)) as [Hp|Hp].
  2:{ left. by rewrite (updated_files_elsewhere _ _ _ _ _ _ _ c). }
  unfold updated_files. rewrite Hc, Hp. rewrite Hp in Hf.
  pose proof (ensure_file_lookup (data_file c) fs) as Hfs1.
  rewrite Hf in Hfs1. simpl in Hfs1.
  destruct (locked_section_cases now tid action ip ua url (data_file c) fs)
    as [(x & ->)|(d0 & d' & Hl & Hr & ->)]; simpl; [by left|].
  rewrite Hl in Hfs1. injection Hfs1 as ->.
  apply record_event_inv in Hr as (e & l & He & _ & ->).
  right. exists e, l. rewrite lookup_insert_eq. unfold ensure_entry in *.
  destruct (d !! tid) as [r|] eqn:Hd.
  - rewrite Hd in He. split; [by left|done].
  - rewrite lookup_insert_eq in He. injection He as <-.
    split; [by right|]. by rewrite insert_insert_eq.
Qed.

Lemma entries_with_insert_known key tid r r0 (d : gmap string record) :
  d !! tid = Some r0 ->
  entries_with key (<[tid := r]> d)
    = entries_with key d - (if flag_true key r0 then 1 else 0)
      + (if flag_true key r then 1 else 0).
Proof.
  intros Hd.
  rewrite <- (insert_delete_eq d tid r).
  rewrite <- (insert_delete_id d tid r0) at 2 by done.
  rewrite !entries_with_insert_fresh by apply lookup_delete_eq. lia.
Qed.

Lemma flag_true_touched now action ev e l key :
  is_flag key ->
  flag_true key (RDict (touched now action ev e l))
    = if decide (key = action) then true else flag_true key (RDict e).
Proof.
  intros Hk. pose proof (is_flag_ne _ Hk) as [Hk1 Hk2]. simpl.
  case_decide as Hka.
  - subst key. unfold touched.
    rewrite lookup_insert_ne by done. by rewrite lookup_insert_eq.
  - rewrite touched_other_keys; [done|]. unfold written. by intros [?|[?|?]].
Qed.

Lemma flag_true_shell now key : is_flag key -> flag_true key (RDict (shell_entry now)) = false.
Proof. by intros [->| ->]. Qed.

Lemma counts_after_update now tid action ip ua url fs campaign d :
  fs !! data_file campaign = Some (FJson d) ->
  map_Forall (fun _ r => is_entry r) d ->
  exists d',
    updated_files now tid action ip ua url fs !! data_file campaign = Some (FJson d')
    /\ map_Forall (fun _ r => is_entry r) d'
    /\ (size d <= size d' <= S (size d))%nat
    /\ (is_flag action ->
         entries_with action d <= entries_with action d' <= entries_with action d + 1)
    /\ (forall key, is_flag key -> key <> action ->
           entries_with key d' = entries_with key d).
Proof.
  intros Hf Hall.
  destruct (store_after_update now tid action ip ua url fs campaign d Hf)
    as [->|(e & l & Hbefore & ->)].
  - exists d. split_and!; try done; intros; lia.
  - eexists. split; [done|].
    split; [by apply map_Forall_insert_2|].
    destruct Hbefore as [Hd|[Hd ->]].
    + rewrite map_size_insert_Some by done. split; [lia|]. split.
      * intros Ha. rewrite (entries_with_insert_known _ _ _ _ _ Hd).
        rewrite flag_true_touched by done. rewrite decide_True by done.
        destruct (flag_true action (RDict e)); lia.
      * intros key Hk Hne. rewrite (entries_with_insert_known _ _ _ _ _ Hd).
        rewrite flag_true_touched by done. rewrite decide_False by done.
        destruct (flag_true key (RDict e)); lia.
    + rewrite map_size_insert_None by done. split; [lia|]. split.
      * intros Ha. rewrite entries_with_insert_fresh by done.
        rewrite flag_true_touched by done. rewrite decide_True by done. lia.
      * intros key Hk Hne. rewrite entries_with_insert_fresh by done.
        rewrite flag_true_touched by done. rewrite decide_False by done.
        rewrite flag_true_shell by done. lia.
Qed.

Lemma campaign_stats_200 campaign st s :
  (campaign_stats campaign st).1 = Jsonify (StatsBody s) 200 ->
  py_match_anchored CAMPAIGN_ID_PATTERN campaign = true
  /\ exists d, files st !! data_file campaign = Some (FJson d)
               /\ map_Forall (fun _ r => is_entry r) d
               /\ total_recipients s = Z.of_nat (size d)
               /\ total_opens s = entries_with "opened" d
               /\ total_clicks s = entries_with "clicked" d.
Proof.
  unfold campaign_stats.
  destruct (py_match_anchored CAMPAIGN_ID_PATTERN campaign); [|done]. simpl.
  destruct (files st !! data_file campaign) as [[d| |]|]; try done. simpl.
  destruct (calculate_statistics campaign d) as [s0|x] eqn:Hs; [|done]. simpl.
  intros [= ->]. split; [done|]. exists d. split; [done|].
  assert (Hall : map_Forall (fun _ r => is_entry r) d)
    by (apply (calculate_statistics_Ok_iff campaign); eauto).
  split; [done|]. rewrite calculate_statistics_entries in Hs by done.
  by injection Hs as <-.
Qed.

Lemma campaign_stats_after campaign st d :
  py_match_anchored CAMPAIGN_ID_PATTERN campaign = true ->
  files st !! data_file campaign = Some (FJson d) ->
  map_Forall (fun _ r => is_entry r) d ->
  exists s, (campaign_stats campaign st).1 = Jsonify (StatsBody s) 200
            /\ total_recipients s = Z.of_nat (size d)
            /\ total_opens s = entries_with "opened" d
            /\ total_clicks s = entries_with "clicked" d.
Proof.
  intros Hc Hf Hall. unfold campaign_stats. rewrite Hc, Hf. simpl.
  rewrite calculate_statistics_entries by done. eexists. by split.
Qed.

(** X25: requests never lower the statistics.  If the statistics of a
    campaign can be read, they can be read after any pixel or click request,
    for whichever identifier; the request raises the recipients by at most
    one and the count of its own action by at most one, lowers neither, and
    leaves the count of the other action as it was. *)
Theorem requests_never_lower_the_counts (urlparse : string -> option url_parts)
    (redirect : string -> option response)
    (now : string) (req : request) (tid campaign : string) (st : server) (s : stats) :
  (campaign_stats campaign st).1 = Jsonify (StatsBody s) 200 ->
  (exists s1,
     (campaign_stats campaign (track_open now req tid st).2).1 = Jsonify (StatsBody s1) 200
     /\ total_recipients s <= total_recipients s1 <= total_recipients s + 1
     /\ total_opens s <= total_opens s1 <= total_opens s + 1
     /\ total_clicks s1 = total_clicks s)
  /\ (exists s2,
       (campaign_stats campaign (track_click urlparse redirect now req tid st).2).1
         = Jsonify (StatsBody s2) 200
       /\ total_recipients s <= total_recipients s2 <= total_recipients s + 1
       /\ total_clicks s <= total_clicks s2 <= total_clicks s + 1
       /\ total_opens s2 = total_opens s).
Proof.
  intros (Hc & d & Hf & Hall & Hn & Ho & Hk)%campaign_stats_200.
  assert (Hsame : forall st', files st' = files st ->
            exists s', (campaign_stats campaign st').1 = Jsonify (StatsBody s') 200
                       /\ total_recipients s' = total_recipients s
                       /\ total_opens s' = total_opens s
                       /\ total_clicks s' = total_clicks s).
  { intros st' Hst'. rewrite <- Hst' in Hf.
    destruct (campaign_stats_after campaign st' d Hc Hf Hall) as (s' & ? & ? & ? & ?).
    exists s'. split_and!; congruence. }
  split.
  - destruct (files_after_open now req tid st) as [Hst|(ip & ua & Hst)].
    + destruct (Hsame _ Hst) as (s1 & ? & H1 & H2 & H3).
      exists s1. split_and!; try done; lia.
    + destruct (counts_after_update now tid "opened" ip ua None (files st) campaign d
                  Hf Hall) as (d' & Hf' & Hall' & Hsize & Hown & Hother).
      rewrite <- Hst in Hf'.
      destruct (campaign_stats_after campaign _ d' Hc Hf' Hall') as (s1 & ? & Hn1 & Ho1 & Hk1).
      exists s1. split; [done|]. rewrite Hn1, Ho1, Hk1, Hn, Ho, Hk.
      specialize (Hown ltac:(by left)).
      rewrite (Hother "clicked") by (done || by right). lia.
  - destruct (files_after_click urlparse redirect now req tid st) as [Hst|(ip & ua & Hst)].
    + destruct (Hsame _ Hst) as (s2 & ? & H1 & H2 & H3).
      exists s2. split_and!; try done; lia.
    + destruct (counts_after_update now tid "clicked" ip ua
                  (Some (resolve_url urlparse req)) (files st) campaign d
                  Hf Hall) as (d' & Hf' & Hall' & Hsize & Hown & Hother).
      rewrite <- Hst in Hf'.
      destruct (campaign_stats_after campaign _ d' Hc Hf' Hall') as (s2 & ? & Hn2 & Ho2 & Hk2).
      exists s2. split; [done|]. rewrite Hn2, Ho2, Hk2, Hn, Ho, Hk.
      specialize (Hown ltac:(by right)).
      rewrite (Hother "opened") by (done || by left). lia.
Qed.

Lemma requests_never_lower_the_counts_witness :
  let st := Server {[ data_file "a" := FJson shells ]} true [] in
  let req := Request None None None in
  exists s s1,
    (campaign_stats "a" st).1 = Jsonify (StatsBody s) 200
    /\ (campaign_stats "a" (track_open "t9" req "a_9" st).2).1 = Jsonify (StatsBody s1) 200
    /\ total_opens s <= total_opens s1 <= total_opens s + 1
    /\ total_clicks s1 = total_clicks s.
Proof.
  intros st req.
  assert (Hc : py_match_anchored CAMPAIGN_ID_PATTERN "a" = true) by reflexivity.
  assert (Hf : files st !! data_file "a" = Some (FJson shells))
    by apply lookup_singleton_eq.
  assert (Hall : map_Forall (fun _ r => is_entry r) shells).
  { intros k r. unfold shells.
    rewrite !lookup_insert_Some, lookup_singleton_Some.
    intros [[_ <-]|[_ [[_ <-]|[_ [_ <-]]]]]; exact I. }
  destruct (campaign_stats_after "a" st shells Hc Hf Hall) as (s & Hs & _).
  destruct (requests_never_lower_the_counts urllib_parse.urlparse werkzeug_utils.redirect "t9" req "a_9" "a" st s Hs)
    as [(s1 & Hs1 & _ & Ho & Hk) _].
  exists s, s1. split; [exact Hs|]. split; [exact Hs1|]. split; [exact Ho|exact Hk].
Defined.

End MonotoneStatistics.

(** ** The copy of a sent email *)

Section SentCopies.

Import EmailCampaign.

Variable isalnum : ascii -> bool.

Lemma str_length_app (s t : string) :
  String.length (s +:+ t) = (String.length s + String.length t)%nat.
Proof. induction s as [|c s IH]; [done|]. rewrite str_app_cons. simpl. by rewrite IH. Qed.

Lemma slice_from_app (s t : string) : PyStr.slice_from (String.length s) (s +:+ t) = t.
Proof. induction s as [|c s IH]; [by destruct t|]. by rewrite str_app_cons. Qed.

Lemma length_slice_to n : forall s,
  (n <= String.length s)%nat -> String.length (PyStr.slice_to n s) = n.
Proof.
  induction n as [|n IH]; intros [|c s]; simpl; try done; try lia.
  intros Hn. rewrite IH; [done|lia].
Qed.

Lemma count_slice_to ch n : forall s,
  PyStr.count ch s = 0%nat -> PyStr.count ch (PyStr.slice_to n s) = 0%nat.
Proof.
  induction n as [|n IH]; intros [|c s]; simpl; try done.
  destruct (Ascii.eqb c ch); [done|]. simpl. apply IH.
Qed.

Lemma length_safe_name s : String.length (safe_name isalnum s) = String.length s.
Proof. induction s as [|c s IH]; [done|]. simpl. by rewrite IH. Qed.

Lemma count_safe_name ch s :
  isalnum ch = false -> ch <> "_"%char -> PyStr.count ch (safe_name isalnum s) = 0%nat.
Proof.
  intros Hch Hne. induction s as [|c s IH]; [done|]. simpl. rewrite IH.
  destruct (isalnum c) eqn:Hc.
  - destruct (Ascii.eqb_spec c ch) as [->|]; [congruence|done].
  - destruct (Ascii.eqb_spec "_"%char ch) as [<-|]; done.
Qed.

Lemma last_eight_generated campaign lead uuid_hex :
  (8 <= String.length uuid_hex)%nat ->
  last_eight (Email_Campaign_Automation._generate_tracking_id campaign lead uuid_hex)
    = PyStr.slice_to 8 uuid_hex.
Proof.
  intros Hu. unfold last_eight, Email_Campaign_Automation._generate_tracking_id.
  rewrite <- !str_app_assoc.
  rewrite str_length_app, (length_slice_to 8) by done.
  rewrite Nat.add_sub. apply slice_from_app.
Qed.

(** X26: the copy of a sent email stays in [sent_emails].  With a library
    [isalnum] that rejects the slash, and a UUID text of at least eight
    characters without slash, the path of the copy is
    [sent_emails/sent_<safe name>_<nonce>.html], where the nonce is the
    first eight characters of the UUID text (the last segment of the
    generated identifier) and the safe name is as long as the company
    name; the only slash of the path is the one that follows the
    directory, whatever the company name holds. *)
Theorem sent_copy_stays_in_sent_dir (company campaign lead uuid_hex : string) :
  isalnum "/" = false ->
  (8 <= String.length uuid_hex)%nat ->
  PyStr.count "/" uuid_hex = 0%nat ->
  sent_file isalnum company
      (Email_Campaign_Automation._generate_tracking_id campaign lead uuid_hex)
    = "sent_emails/sent_" +:+ safe_name isalnum company +:+ "_"
        +:+ PyStr.slice_to 8 uuid_hex +:+ ".html"
  /\ PyStr.count "/"
       (sent_file isalnum company
          (Email_Campaign_Automation._generate_tracking_id campaign lead uuid_hex)) = 1%nat
  /\ String.length (safe_name isalnum company) = String.length company.
Proof.
  intros Hslash Hlen Hu. unfold sent_file.
  rewrite last_eight_generated by done. split_and!.
  - done.
  - rewrite !str_count_app, count_safe_name, count_slice_to by done. reflexivity.
  - apply length_safe_name.
Qed.

End SentCopies.

Section SentCopyExamples.

Import EmailCampaign.

Lemma sent_copy_stays_in_sent_dir_witness :
  sent_file Regex.alnum "A/B & Co."
    (Email_Campaign_Automation._generate_tracking_id "20250101120000" "0"
       "1a2b3c4d5e6f7a8b9c0d1e2f3a4b5c6d")
  = "sent_emails/sent_A_B___Co__1a2b3c4d.html".
Proof.
  destruct (sent_copy_stays_in_sent_dir Regex.alnum "A/B & Co." "20250101120000" "0"
              "1a2b3c4d5e6f7a8b9c0d1e2f3a4b5c6d") as (Hpath & _ & _).
  - reflexivity.
  - simpl. lia.
  - reflexivity.
  - rewrite Hpath. reflexivity.
Defined.

End SentCopyExamples.
